(** * NextStop relay: session, room and handshake logic

    A shallow embedding of the WebSocket relay of the NextStop repository:
    [nextstop-relay/server.js] (rooms, device memory, rate limiting) at top
    level, and the earlier [nextstop-relay/index.js] in [Module Index].

    Conventions of the embedding.
    - A connection ([ws] in the source) is a [nat] naming an entry of the
      socket store; [ws.meta] and [ws.readyState] are fields of that entry,
      so the aliasing of the socket object between the rooms and the
      handlers is kept.
    - The module-level [Map]s are [gmap]s keyed by the device id; a room's
      viewer [Set] is a duplicate-free list in insertion order, which is the
      order [forEach] visits it.
    - A message after [JSON.parse] is a [json] value; [None] stands for a
      parse that threw.  [JObj] lists the own properties of the parsed
      object, each key once.  A property read [msg.k] is [get msg k], with
      [None] for [undefined].
    - Calls into the [ws] library are recorded as effects: [Send w o] for
      [w.send(JSON.stringify(o))] and [Close w code reason] for
      [w.close(code, reason)].
    - [Date.now()] is an argument of the handler, an integer number of
      milliseconds.  Token counts are JavaScript numbers, that is IEEE 754
      binary64 values: the kernel's [float] with its correctly rounded
      operations, so the rounding of the source is the rounding here.
    - Strings are sequences of one-byte code units; the white space that
      [trim] removes is the ECMAScript white space below 256. *)

From Stdlib Require Import QArith ZArith Ascii String Floats.
From stdpp Require Import gmap strings list fin_maps.

(** ** JSON values and property access *)

#[local] Set Warnings "-register-all,-clear-no-such-hyp".

Inductive json :=
| JNull
| JBool (b : bool)
| JNum (q : Q)
| JStr (s : string)
| JArr (l : list json)
| JObj (fields : list (string * json)).

(** An object literal built by the relay: its properties in insertion
    order, which is the order [JSON.stringify] prints them. *)
Definition obj := list (string * json).

Fixpoint assoc (k : string) (l : obj) : option json :=
  match l with
  | [] => None
  | (k', v) :: r => if decide (k = k') then Some v else assoc k r
  end.

(** [msg.k]: [undefined] on anything that is not an object with that key. *)
Definition get (msg : json) (k : string) : option json :=
  match msg with
  | JObj l => assoc k l
  | _ => None
  end.

(** [msg && typeof msg === "object"]. *)
Definition is_object (msg : json) : bool :=
  match msg with
  | JObj _ | JArr _ => true
  | _ => false
  end.

(** [typeof v === "string" ? v : <absent>]. *)
Definition as_string (v : option json) : option string :=
  match v with
  | Some (JStr s) => Some s
  | _ => None
  end.

(** [v === s] for a string literal [s]. *)
Definition str_is (v : option json) (s : string) : bool :=
  match as_string v with
  | Some x => bool_decide (x = s)
  | None => false
  end.

(** [typeof v !== "number" || Number.isNaN(v)]; a parsed number is never NaN. *)
Definition not_number (v : option json) : bool :=
  match v with
  | Some (JNum _) => false
  | _ => true
  end.

(** ** [String.prototype.trim] *)

Definition is_ws (c : ascii) : bool :=
  let n := nat_of_ascii c in
  bool_decide (n = 9 ∨ n = 10 ∨ n = 11 ∨ n = 12 ∨ n = 13 ∨ n = 32 ∨ n = 160)%nat.

Fixpoint trim_start (s : string) : string :=
  match s with
  | EmptyString => EmptyString
  | String c r => if is_ws c then trim_start r else s
  end.

Fixpoint trim_end (s : string) : string :=
  match s with
  | EmptyString => EmptyString
  | String c r =>
      match trim_end r with
      | EmptyString => if is_ws c then EmptyString else String c EmptyString
      | r' => String c r'
      end
  end.

Definition trim (s : string) : string := trim_end (trim_start s).

(** [typeof v === "string" ? v.trim() : ""]. *)
Definition trimmed (v : option json) : string :=
  match as_string v with
  | Some s => trim s
  | None => ""
  end.

(** Truthiness of a string. *)
Definition nonempty (s : string) : bool := negb (bool_decide (s = "")).

(** Truthiness of a possibly [undefined] string. *)
Definition truthy (o : option string) : bool :=
  match o with
  | Some s => nonempty s
  | None => false
  end.

(** [a || b] on strings, [b] possibly [undefined]. *)
Definition or_else (a : string) (b : option string) : option string :=
  if nonempty a then Some a else b.

(** ** Connections and effects *)

Inductive Role := Driver | Viewer.

Global Instance Role_eq_dec : EqDecision Role.
Proof. solve_decision. Defined.

Definition role_name (r : Role) : string :=
  match r with
  | Driver => "driver"
  | Viewer => "viewer"
  end.

(** [msg.role] when it is one of the two role names. *)
Definition role_of (v : option json) : option Role :=
  match as_string v with
  | Some r =>
      if decide (r = "driver") then Some Driver
      else if decide (r = "viewer") then Some Viewer
      else None
  | None => None
  end.

Inductive ready_state := CONNECTING | OPEN | CLOSING | CLOSED.

Global Instance ready_state_eq_dec : EqDecision ready_state.
Proof. solve_decision. Defined.

Inductive effect :=
| Send (w : nat) (payload : obj)
| Close (w : nat) (code : Z) (reason : string).

Definition error_frame (e : string) : obj :=
  [("type", JStr "error"); ("error", JStr e)].

Definition info_frame (m : string) : obj :=
  [("type", JStr "info"); ("message", JStr m)].

Definition dquote : string := String (ascii_of_nat 34) EmptyString.

(** ** server.js *)

(** An integer as a JavaScript number.  It stands for [now - bucket.last],
    the difference of two readings of [Date.now()], which are integers
    below [2^53]: the source computes that difference exactly. *)
Definition number_of_Z (z : Z) : float :=
  if (z <? 0)%Z then (- of_uint63 (Uint63.of_Z (- z)))%float
  else of_uint63 (Uint63.of_Z z).

(** [Math.min] of two numbers: [NaN] when either is, and [-0] below [+0]. *)
Definition Math_min (a b : float) : float :=
  if is_nan a || is_nan b then nan
  else if (b <? a)%float then b
  else if (a <? b)%float then a
  else if is_zero a && get_sign b then b else a.

Definition TELEMETRY_LIMIT_PER_SEC : float := 5.

Record bucket := { tokens : float; last : Z }.

Record meta_t := { role : option Role; deviceId : option string; rate : option bucket }.

Record socket := { meta : meta_t; readyState : ready_state }.

Record room_t := { driver : option nat; viewers : list nat }.

Record route_t := { routeId : option string; direction : option string }.

Record state := {
  sockets : gmap nat socket;
  rooms : gmap string room_t;
  latestTelemetry : gmap string obj;
  names : gmap string string;
  routeMeta : gmap string route_t
}.

Definition init : state :=
  {| sockets := ∅; rooms := ∅; latestTelemetry := ∅; names := ∅; routeMeta := ∅ |}.

Definition set_sockets (f : gmap nat socket → gmap nat socket) (s : state) : state :=
  {| sockets := f (sockets s); rooms := rooms s;
     latestTelemetry := latestTelemetry s; names := names s;
     routeMeta := routeMeta s |}.

Definition set_rooms (f : gmap string room_t → gmap string room_t) (s : state) : state :=
  {| sockets := sockets s; rooms := f (rooms s);
     latestTelemetry := latestTelemetry s; names := names s;
     routeMeta := routeMeta s |}.

Definition set_latestTelemetry (f : gmap string obj → gmap string obj) (s : state) : state :=
  {| sockets := sockets s; rooms := rooms s;
     latestTelemetry := f (latestTelemetry s); names := names s;
     routeMeta := routeMeta s |}.

Definition set_names (f : gmap string string → gmap string string) (s : state) : state :=
  {| sockets := sockets s; rooms := rooms s;
     latestTelemetry := latestTelemetry s; names := f (names s);
     routeMeta := routeMeta s |}.

Definition set_routeMeta (f : gmap string route_t → gmap string route_t) (s : state) : state :=
  {| sockets := sockets s; rooms := rooms s;
     latestTelemetry := latestTelemetry s; names := names s;
     routeMeta := f (routeMeta s) |}.

(** [Set.prototype.add] and [Set.prototype.delete] on the viewer set. *)
Definition set_add (w : nat) (l : list nat) : list nat :=
  if bool_decide (w ∈ l) then l else l ++ [w].

Definition set_delete (w : nat) (l : list nat) : list nat :=
  filter (λ x, x ≠ w) l.

Definition empty_room : room_t := {| driver := None; viewers := [] |}.

Definition ensureRoom (d : string) (s : state) : state :=
  match rooms s !! d with
  | Some _ => s
  | None => set_rooms <[d := empty_room]> s
  end.

(** The room [ensureRoom] returns. *)
Definition room_at (d : string) (s : state) : room_t :=
  default empty_room (rooms s !! d).

(** The room after [ws] has been taken out of it (lines 24-28). *)
Definition room_without (ws : nat) (r : option Role) (room : room_t) : room_t :=
  if bool_decide (r = Some Driver) && bool_decide (driver room = Some ws)
  then {| driver := None; viewers := viewers room |}
  else if bool_decide (r = Some Viewer)
  then {| driver := driver room; viewers := set_delete ws (viewers room) |}
  else room.

(** [!room.driver && room.viewers.size === 0]. *)
Definition room_empty (room : room_t) : bool :=
  bool_decide (driver room = None) && bool_decide (viewers room = []).

Definition removeSocketFromRoom (ws : nat) (s : state) : state :=
  match sockets s !! ws with
  | None => s
  | Some sock =>
      match deviceId (meta sock) with
      | None => s
      | Some d =>
          if bool_decide (d = "") then s
          else
            match rooms s !! d with
            | None => s
            | Some room =>
                let room' := room_without ws (role (meta sock)) room in
                if room_empty room'
                then set_latestTelemetry (delete d) (set_rooms (delete d) s)
                else set_rooms <[d := room']> s
            end
      end
  end.

Definition sendJson (ws : nat) (payload : obj) (s : state) : list effect :=
  match sockets s !! ws with
  | Some sock => if bool_decide (readyState sock = OPEN) then [Send ws payload] else []
  | None => []
  end.

(** [ws.close(code, reason)] of the library: an open socket starts closing. *)
Definition close (ws : nat) (code : Z) (reason : string) (s : state) : state * list effect :=
  (set_sockets
     (alter (λ sock,
        {| meta := meta sock;
           readyState := if bool_decide (readyState sock = OPEN) then CLOSING
                         else readyState sock |}) ws) s,
   [Close ws code reason]).

(** [ws.meta.deviceId = deviceId; ws.meta.role = role]. *)
Definition bind_meta (ws : nat) (d : string) (r : Role) (s : state) : state :=
  set_sockets
    (alter (λ sock,
       {| meta := {| role := Some r; deviceId := Some d; rate := rate (meta sock) |};
          readyState := readyState sock |}) ws) s.

Definition assignSocketToRoom (ws : nat) (d : string) (r : Role) (s : state)
  : state * list effect :=
  let s1 := removeSocketFromRoom ws s in
  let s2 := ensureRoom d s1 in
  let room := room_at d s2 in
  let s3 := bind_meta ws d r s2 in
  match r with
  | Driver =>
      let '(s4, out) :=
        match driver room with
        | Some p =>
            if bool_decide (p ≠ ws) then close p 1001 "driver replaced" s3
            else (s3, [])
        | None => (s3, [])
        end in
      (set_rooms <[d := {| driver := Some ws; viewers := viewers room |}]> s4, out)
  | Viewer =>
      let s4 :=
        set_rooms <[d := {| driver := driver room; viewers := set_add ws (viewers room) |}]> s3 in
      match latestTelemetry s4 !! d with
      | Some snapshot => (s4, sendJson ws snapshot s4)
      | None => (s4, [])
      end
  end.

Definition validateHello (msg : json) : option string :=
  if negb (is_object msg) then Some "Payload must be object"
  else if negb (str_is (get msg "type") "hello")
  then Some ("Expected type " +:+ dquote +:+ "hello" +:+ dquote)
  else if negb (bool_decide (is_Some (role_of (get msg "role"))))
  then Some "Role must be driver or viewer"
  else
    match as_string (get msg "deviceId") with
    | Some d => if bool_decide (trim d = "") then Some "deviceId required" else None
    | None => Some "deviceId required"
    end.

Definition validateTelemetry (msg : json) : option string :=
  if negb (is_object msg) then Some "Payload must be object"
  else if negb (str_is (get msg "type") "telemetry")
  then Some ("Expected type " +:+ dquote +:+ "telemetry" +:+ dquote)
  else if negb (nonempty (trimmed (get msg "deviceId")))
  then Some "deviceId required"
  else if not_number (get msg "lat") then Some "lat must be number"
  else if not_number (get msg "lng") then Some "lng must be number"
  else if not_number (get msg "ts") then Some "ts must be number"
  else if bool_decide (is_Some (get msg "speed")) && not_number (get msg "speed")
  then Some "speed must be number"
  else if bool_decide (is_Some (get msg "heading")) && not_number (get msg "heading")
  then Some "heading must be number"
  else None.

(** The two reads of the clock on a first use, here and in
    [consumeRateToken], are taken to return the same value. *)
Definition initRateLimiter (now : Z) (m : meta_t) : meta_t :=
  match rate m with
  | Some _ => m
  | None =>
      {| role := role m; deviceId := deviceId m;
         rate := Some {| tokens := TELEMETRY_LIMIT_PER_SEC; last := now |} |}
  end.

(** The bucket after the top-up of lines 95-100. *)
Definition topped_up (now : Z) (b : bucket) : float :=
  Math_min TELEMETRY_LIMIT_PER_SEC
    (tokens b + (number_of_Z (now - last b) / 1000) * TELEMETRY_LIMIT_PER_SEC)%float.

Definition consumeRateToken (now : Z) (m : meta_t) : bool * meta_t :=
  let m1 := initRateLimiter now m in
  match rate m1 with
  | None => (false, m1)
  | Some b =>
      let t := topped_up now b in
      if (t <? 1)%float
      then (false, {| role := role m1; deviceId := deviceId m1;
                      rate := Some {| tokens := t; last := now |} |})
      else (true, {| role := role m1; deviceId := deviceId m1;
                     rate := Some {| tokens := (t - 1)%float; last := now |} |})
  end.

(** An optional property of an object literal. *)
Definition opt_field (k : string) (v : option string) : obj :=
  if truthy v then [(k, JStr (default "" v))] else [].

Definition opt_json (k : string) (v : option json) : obj :=
  match v with
  | Some j => [(k, j)]
  | None => []
  end.

(** The merge of lines 147-152 and 205-210. *)
Definition merge_route (d route dir : string) (s : state) : state :=
  if nonempty route || nonempty dir
  then set_routeMeta
         <[d := {| routeId := or_else route (routeMeta s !! d ≫= routeId);
                   direction := or_else dir (routeMeta s !! d ≫= direction) |}]> s
  else s.

Definition hello_ack (r d : json) (announcedName : string) (m : option route_t) : obj :=
  [("type", JStr "hello-ack"); ("role", r); ("deviceId", d)]
    ++ opt_field "displayName" (Some announcedName)
    ++ opt_field "routeId" (m ≫= routeId)
    ++ opt_field "direction" (m ≫= direction).

(** The [hello] branch, lines 134-166. *)
Definition on_hello (ws : nat) (msg : json) (s : state) : state * list effect :=
  match validateHello msg with
  | Some error => (s, sendJson ws (error_frame error) s)
  | None =>
      match as_string (get msg "deviceId"), role_of (get msg "role") with
      | Some d, Some r =>
          let '(s1, out) := assignSocketToRoom ws d r s in
          let announcedName := trimmed (get msg "displayName") in
          let s2 := if nonempty announcedName
                    then set_names <[d := announcedName]> s1 else s1 in
          let announcedRoute := trimmed (get msg "routeId") in
          let announcedDirection := trimmed (get msg "direction") in
          let s3 := merge_route d announcedRoute announcedDirection s2 in
          let helloAck :=
            hello_ack (JStr (role_name r)) (JStr d) announcedName (routeMeta s3 !! d) in
          (s3, out ++ sendJson ws helloAck s3)
      | _, _ => (s, [])
      end
  end.

Definition telemetry_payload (msg : json) (d : string)
    (name route dir : option string) : obj :=
  [("type", JStr "telemetry"); ("deviceId", JStr d)]
    ++ opt_json "lat" (get msg "lat")
    ++ opt_json "lng" (get msg "lng")
    ++ opt_json "ts" (get msg "ts")
    ++ opt_json "speed" (get msg "speed")
    ++ opt_json "heading" (get msg "heading")
    ++ opt_field "displayName" name
    ++ opt_field "routeId" route
    ++ opt_field "direction" dir.

(** [room.viewers.forEach((viewer) => sendJson(viewer, payload))]. *)
Definition broadcast (vs : list nat) (payload : obj) (s : state) : list effect :=
  flat_map (λ v, sendJson v payload s) vs.

(** Lines 186-221: the telemetry that passed every check and the limiter. *)
Definition relay_telemetry (msg : json) (d : string) (s : state) : state * list effect :=
  let incomingName := trimmed (get msg "displayName") in
  let s1 := if nonempty incomingName
            then set_names <[d := incomingName]> s else s in
  let name := if nonempty incomingName then Some incomingName else names s !! d in
  let incomingRoute := trimmed (get msg "routeId") in
  let incomingDirection := trimmed (get msg "direction") in
  let s2 := merge_route d incomingRoute incomingDirection s1 in
  let rememberedMeta := routeMeta s2 !! d in
  let route := or_else incomingRoute (rememberedMeta ≫= routeId) in
  let dir := or_else incomingDirection (rememberedMeta ≫= direction) in
  let payload := telemetry_payload msg d name route dir in
  let s3 := set_latestTelemetry <[d := payload]> s2 in
  let s4 := ensureRoom d s3 in
  (s4, broadcast (viewers (room_at d s4)) payload s4).

(** The [telemetry] branch, lines 168-229. *)
Definition on_telemetry (ws : nat) (msg : json) (now : Z) (s : state)
  : state * list effect :=
  match sockets s !! ws with
  | None => (s, [])
  | Some sock =>
      if negb (bool_decide (role (meta sock) = Some Driver))
      then (s, sendJson ws (error_frame "Only drivers may send telemetry") s)
      else
        match validateTelemetry msg with
        | Some error => (s, sendJson ws (error_frame error) s)
        | None =>
            match as_string (get msg "deviceId") with
            | None => (s, [])
            | Some d =>
                if negb (bool_decide (deviceId (meta sock) = Some d))
                then (s, sendJson ws
                           (error_frame "Driver must send telemetry for subscribed deviceId") s)
                else
                  let '(ok, m') := consumeRateToken now (meta sock) in
                  let s1 := set_sockets
                              <[ws := {| meta := m'; readyState := readyState sock |}]> s in
                  if negb ok then (s1, [])
                  else relay_telemetry msg d s1
            end
        end
  end.

(** The ["message"] handler, lines 119-232. *)
Definition on_message (ws : nat) (raw : option json) (now : Z) (s : state)
  : state * list effect :=
  match raw with
  | None => (s, sendJson ws (error_frame "Invalid JSON") s)
  | Some msg =>
      if negb (is_object msg)
      then (s, sendJson ws (error_frame "Payload must be object") s)
      else if str_is (get msg "type") "hello"
      then on_hello ws msg s
      else if str_is (get msg "type") "telemetry"
      then on_telemetry ws msg now s
      else (s, sendJson ws (error_frame "Unsupported message type") s)
  end.

(** The ["connection"] handler, lines 112-113: a fresh socket. *)
Definition on_connection (ws : nat) (s : state) : state :=
  set_sockets
    <[ws := {| meta := {| role := None; deviceId := None; rate := None |};
               readyState := OPEN |}]> s.

(** The ["error"] handler, lines 238-241. *)
Definition on_error (ws : nat) (s : state) : state := removeSocketFromRoom ws s.

(** The ["close"] handler, lines 234-236; the library has set the socket's
    state to [CLOSED] when it runs. *)
Definition on_close (ws : nat) (s : state) : state :=
  set_sockets
    (alter (λ sock, {| meta := meta sock; readyState := CLOSED |}) ws)
    (removeSocketFromRoom ws s).

(** ** The relay as a transition system

    The library delivers ["connection"] once per socket, with a socket
    object not seen before, and delivers no event for a socket after its
    ["close"]. *)

Inductive event :=
| EConnection (ws : nat)
| EMessage (ws : nat) (raw : option json) (now : Z)
| EError (ws : nat)
| EClose (ws : nat).

Definition live (s : state) (ws : nat) : Prop :=
  ∃ sock, sockets s !! ws = Some sock ∧ readyState sock ≠ CLOSED.

Definition enabled (s : state) (e : event) : Prop :=
  match e with
  | EConnection ws => sockets s !! ws = None
  | EMessage ws _ _ | EError ws | EClose ws => live s ws
  end.

Definition handle (e : event) (s : state) : state * list effect :=
  match e with
  | EConnection ws => (on_connection ws s, [])
  | EMessage ws raw now => on_message ws raw now s
  | EError ws => (on_error ws s, [])
  | EClose ws => (on_close ws s, [])
  end.

Inductive reachable : state → Prop :=
| reach_init : reachable init
| reach_step s e : reachable s → enabled s e → reachable (handle e s).1.

(** Running a list of events from a state, collecting the effects. *)
Fixpoint run (es : list event) (s : state) : state * list effect :=
  match es with
  | [] => (s, [])
  | e :: es' =>
      let '(s1, o1) := handle e s in
      let '(s2, o2) := run es' s1 in
      (s2, o1 ++ o2)
  end.

(** ** index.js, the earlier relay *)

Module Index.

Record meta_t := { role : option Role; deviceId : option string }.

Record socket := { meta : meta_t; readyState : ready_state }.

Record state := {
  sockets : gmap nat socket;
  drivers : gmap string nat;
  viewers : gmap string (list nat);
  latestTelemetry : gmap string obj
}.

Definition init : state :=
  {| sockets := ∅; drivers := ∅; viewers := ∅; latestTelemetry := ∅ |}.

Definition sendJson (ws : nat) (payload : obj) (s : state) : list effect :=
  match sockets s !! ws with
  | Some sock => if bool_decide (readyState sock = OPEN) then [Send ws payload] else []
  | None => []
  end.

(** [ws.close(code, reason)] of the library. *)
Definition close (ws : nat) (code : Z) (reason : string) (s : state)
  : state * list effect :=
  ({| sockets :=
        alter (λ sock,
          {| meta := meta sock;
             readyState := if bool_decide (readyState sock = OPEN) then CLOSING
                           else readyState sock |}) ws (sockets s);
      drivers := drivers s; viewers := viewers s;
      latestTelemetry := latestTelemetry s |},
   [Close ws code reason]).

Definition broadcastTelemetry (d : string) (telemetry : obj) (s : state) : list effect :=
  match viewers s !! d with
  | None => []
  | Some targets => flat_map (λ v, sendJson v telemetry s) targets
  end.

Definition unregister (ws : nat) (s : state) : state :=
  match sockets s !! ws with
  | None => s
  | Some sock =>
      match role (meta sock), deviceId (meta sock) with
      | Some r, Some d =>
          if bool_decide (d = "") then s
          else
            match r with
            | Driver =>
                if bool_decide (drivers s !! d = Some ws)
                then {| sockets := sockets s; drivers := delete d (drivers s);
                        viewers := viewers s; latestTelemetry := latestTelemetry s |}
                else s
            | Viewer =>
                match viewers s !! d with
                | None => s
                | Some group =>
                    let group' := set_delete ws group in
                    {| sockets := sockets s; drivers := drivers s;
                       viewers := if bool_decide (group' = [])
                                  then delete d (viewers s)
                                  else <[d := group']> (viewers s);
                       latestTelemetry := latestTelemetry s |}
                end
            end
      | _, _ => s
      end
  end.

Definition validateHello (msg : json) : option string :=
  if negb (is_object msg) then Some "Malformed message"
  else if negb (str_is (get msg "type") "hello") then Some "Unexpected message type"
  else if negb (bool_decide (is_Some (role_of (get msg "role")))) then Some "Unknown role"
  else if negb (nonempty (trimmed (get msg "deviceId"))) then Some "Missing deviceId"
  else None.

Definition validateTelemetry (msg : json) (expectedDeviceId : string) : option string :=
  if negb (is_object msg) then Some "Malformed message"
  else if negb (str_is (get msg "type") "telemetry") then Some "Unexpected message type"
  else if negb (str_is (get msg "deviceId") expectedDeviceId) then Some "Device mismatch"
  else if not_number (get msg "lat") then Some "lat must be number"
  else if not_number (get msg "lng") then Some "lng must be number"
  else if not_number (get msg "ts") then Some "ts must be number"
  else if bool_decide (is_Some (get msg "speed")) && not_number (get msg "speed")
  then Some "speed must be number"
  else if bool_decide (is_Some (get msg "heading")) && not_number (get msg "heading")
  then Some "heading must be number"
  else None.

Definition hello_ack (r : Role) (d : string) : obj :=
  [("type", JStr "hello-ack"); ("role", JStr (role_name r)); ("deviceId", JStr d)].

(** Lines 95-122: the first message of a connection. *)
Definition on_first (ws : nat) (msg : json) (s : state) : state * list effect :=
  match validateHello msg with
  | Some error =>
      let out := sendJson ws (error_frame error) s in
      let '(s1, out') := close ws 1002 "protocol error" s in
      (s1, out ++ out')
  | None =>
      match as_string (get msg "deviceId"), role_of (get msg "role") with
      | Some d, Some r =>
          let s1 :=
            {| sockets :=
                 alter (λ sock, {| meta := {| role := Some r; deviceId := Some d |};
                                   readyState := readyState sock |}) ws (sockets s);
               drivers := drivers s; viewers := viewers s;
               latestTelemetry := latestTelemetry s |} in
          let '(s2, out) :=
            match r with
            | Driver =>
                let '(s', o) :=
                  match drivers s1 !! d with
                  | Some previous =>
                      if bool_decide (previous ≠ ws)
                      then
                        let o1 := sendJson previous (info_frame "Another driver connected") s1 in
                        let '(s'', o2) := close previous 1001 "driver replaced" s1 in
                        (s'', o1 ++ o2)
                      else (s1, [])
                  | None => (s1, [])
                  end in
                ({| sockets := sockets s'; drivers := <[d := ws]> (drivers s');
                    viewers := viewers s'; latestTelemetry := latestTelemetry s' |}, o)
            | Viewer =>
                let group := default [] (viewers s1 !! d) in
                let s' := {| sockets := sockets s1; drivers := drivers s1;
                             viewers := <[d := set_add ws group]> (viewers s1);
                             latestTelemetry := latestTelemetry s1 |} in
                match latestTelemetry s' !! d with
                | Some snapshot => (s', sendJson ws snapshot s')
                | None => (s', [])
                end
            end in
          (s2, out ++ sendJson ws (hello_ack r d) s2)
      | _, _ => (s, [])
      end
  end.

(** Lines 124-149. *)
Definition on_telemetry (ws : nat) (m : meta_t) (msg : json) (s : state)
  : state * list effect :=
  if negb (bool_decide (role m = Some Driver))
  then (s, sendJson ws (error_frame "Only drivers may send telemetry") s)
  else
    match deviceId m with
    | None => (s, [])
    | Some d =>
        match validateTelemetry msg d with
        | Some error => (s, sendJson ws (error_frame error) s)
        | None =>
            let payload : obj :=
              [("type", JStr "telemetry"); ("deviceId", JStr d)]
                ++ opt_json "lat" (get msg "lat")
                ++ opt_json "lng" (get msg "lng")
                ++ opt_json "ts" (get msg "ts")
                ++ opt_json "speed" (get msg "speed")
                ++ opt_json "heading" (get msg "heading") in
            let s1 := {| sockets := sockets s; drivers := drivers s;
                         viewers := viewers s;
                         latestTelemetry := <[d := payload]> (latestTelemetry s) |} in
            (s1, broadcastTelemetry d payload s1)
        end
    end.

(** The ["message"] handler, lines 84-152.  [None] is the [TypeError] of
    reading [msg.type] when an identified connection sends [null]. *)
Definition on_message (ws : nat) (raw : option json) (s : state)
  : option (state * list effect) :=
  match raw with
  | None => Some (s, sendJson ws (error_frame "Invalid JSON") s)
  | Some msg =>
      match sockets s !! ws with
      | None => Some (s, [])
      | Some sock =>
          match role (meta sock) with
          | None => Some (on_first ws msg s)
          | Some _ =>
              match msg with
              | JNull => None
              | _ =>
                  if str_is (get msg "type") "telemetry"
                  then Some (on_telemetry ws (meta sock) msg s)
                  else Some (s, sendJson ws (error_frame "Unsupported message") s)
              end
          end
      end
  end.

Definition on_connection (ws : nat) (s : state) : state :=
  {| sockets := <[ws := {| meta := {| role := None; deviceId := None |};
                           readyState := OPEN |}]> (sockets s);
     drivers := drivers s; viewers := viewers s;
     latestTelemetry := latestTelemetry s |}.

End Index.

(** ** Sample messages and traces *)

Definition hello_msg (r d : string) (extra : obj) : json :=
  JObj ([("type", JStr "hello"); ("role", JStr r); ("deviceId", JStr d)] ++ extra).

Definition telemetry_msg (d : string) (extra : obj) : json :=
  JObj ([("type", JStr "telemetry"); ("deviceId", JStr d);
         ("lat", JNum 29.65); ("lng", JNum (-82.35)); ("ts", JNum 1000)] ++ extra).

(** One driver of ["bus-1"] that has sent one telemetry message. *)
Definition driver_trace : list event :=
  [EConnection 1;
   EMessage 1 (Some (hello_msg "driver" "bus-1" [])) 0;
   EMessage 1 (Some (telemetry_msg "bus-1" [])) 10].

Definition driver_state : state := (run driver_trace init).1.

(** index.js with one driver of ["bus-1"]. *)
Definition index_driver_state : Index.state :=
  (Index.on_first 1 (hello_msg "driver" "bus-1" [])
     (Index.on_connection 1 Index.init)).1.

(** A driver session of ["bus-1"] that announced a display name and a
    route and has disconnected, followed by a new connection. *)
Definition named_session_trace : list event :=
  [EConnection 1;
   EMessage 1 (Some (hello_msg "driver" "bus-1"
                       [("displayName", JStr "Bus A"); ("routeId", JStr "R1")])) 0;
   EClose 1;
   EConnection 2].

Definition named_session_state : state := (run named_session_trace init).1.

(** The driver of [driver_state] after four more messages in the same
    millisecond: its bucket is empty. *)
Definition drained_state : state :=
  (run (driver_trace
          ++ replicate 4 (EMessage 1 (Some (telemetry_msg "bus-1" [])) 10)) init).1.

(** The top-up of the rate limiter in the words of the specification: the
    elapsed seconds times five are added to the tokens, capped at five.  The
    numbers are doubles, as in the source. *)
Definition elapsed_seconds (now last : Z) : float :=
  (number_of_Z (now - last) / 1000)%float.

Definition spec_top_up (tokens secs : float) : float :=
  Math_min 5 (tokens + secs * 5)%float.

(** The driver of [driver_state] watched by a viewer that subscribed before
    the driver emptied its bucket with four more messages in the same
    millisecond. *)
Definition drained_watched_state : state :=
  (run (driver_trace
          ++ [EConnection 2; EMessage 2 (Some (hello_msg "viewer" "bus-1" [])) 10]
          ++ replicate 4 (EMessage 1 (Some (telemetry_msg "bus-1" [])) 10)) init).1.



(** One viewer of ["bus-1"]. *)
Definition viewer_state : state :=
  (run [EConnection 1; EMessage 1 (Some (hello_msg "viewer" "bus-1" [])) 0] init).1.

(** ** Predicates used in the statements *)

(** A string that does not start with white space. *)
Definition starts_clean (s : string) : Prop :=
  match s with
  | EmptyString => True
  | String c _ => is_ws c = false
  end.

(** A connection of which the detach cannot empty the room of [d]: it is
    bound to another device, or somebody else is in that room. *)
Definition not_last_in_room (s : state) (ws : nat) (d : string) : Prop :=
  (∀ sock, sockets s !! ws = Some sock → deviceId (meta sock) ≠ Some d)
  ∨ ∃ room, rooms s !! d = Some room
            ∧ ((∃ x, driver room = Some x ∧ x ≠ ws)
               ∨ ∃ v, v ∈ viewers room ∧ v ≠ ws).

(** A value fit for the device memory: non-empty and already trimmed. *)
Definition clean (v : string) : Prop := v ≠ "" ∧ trim v = v.

Definition mem_ok (s : state) : Prop :=
  (∀ d n, names s !! d = Some n → clean n)
  ∧ (∀ d m, routeMeta s !! d = Some m →
       (∀ r, routeId m = Some r → clean r)
       ∧ (∀ r, direction m = Some r → clean r)).

(** The merge both branches of the handler apply to the device memory
    (lines 141-152 and 195-210). *)
Definition remember (msg : json) (d : string) (s : state) : state :=
  merge_route d (trimmed (get msg "routeId")) (trimmed (get msg "direction"))
    (if nonempty (trimmed (get msg "displayName"))
     then set_names <[d := trimmed (get msg "displayName")]> s else s).

(** The role and the device of a connection that has not closed. *)
Definition conn (s : state) (w : nat) : option (option Role * option string) :=
  sock ← sockets s !! w;
  if bool_decide (readyState sock = CLOSED) then None
  else Some (role (meta sock), deviceId (meta sock)).

(** The invariant of the reachable states: a stored snapshot has its room
    and a connection bound to its device; whoever sits in a room is a
    connection that has not closed, bound to the room's device in the role
    of its seat; no connection is bound to the empty device id. *)
Record Inv (s : state) : Prop := {
  inv_snapshot : ∀ d snap, latestTelemetry s !! d = Some snap →
    is_Some (rooms s !! d) ∧ ∃ w r, conn s w = Some (r, Some d);
  inv_driver : ∀ d room x, rooms s !! d = Some room → driver room = Some x →
    conn s x = Some (Some Driver, Some d);
  inv_viewer : ∀ d room v, rooms s !! d = Some room → v ∈ viewers room →
    conn s v = Some (Some Viewer, Some d);
  inv_device : ∀ w r d, conn s w = Some (r, Some d) → d ≠ ""
}.

(** The seat the assignment writes into the room of [d]. *)
Definition seated (ws : nat) (r : Role) (room : room_t) : room_t :=
  match r with
  | Driver => {| driver := Some ws; viewers := viewers room |}
  | Viewer => {| driver := driver room; viewers := set_add ws (viewers room) |}
  end.

(** Whether the library can deliver the event in the state. *)
Definition enabledb (s : state) (e : event) : bool :=
  match e with
  | EConnection ws => bool_decide (sockets s !! ws = None)
  | EMessage ws _ _ | EError ws | EClose ws => bool_decide (is_Some (conn s ws))
  end.

Fixpoint run_enabled (es : list event) (s : state) : bool :=
  match es with
  | [] => true
  | e :: es' => enabledb s e && run_enabled es' (handle e s).1
  end.

(** The driver of [driver_state] has disconnected and a new connection has
    arrived. *)
Definition after_driver_trace : list event := driver_trace ++ [EClose 1; EConnection 2].

Definition after_driver_state : state := (run after_driver_trace init).1.

(** ** Definitions for the further properties *)

(** [ws.readyState === WebSocket.OPEN], the test of [sendJson]. *)
Definition is_open (s : state) (ws : nat) : bool :=
  match sockets s !! ws with
  | Some sock => bool_decide (readyState sock = OPEN)
  | None => false
  end.

(** A run of telemetry attempts of one connection at the given readings of
    the clock: how many pass [consumeRateToken], and the metadata after. *)
Fixpoint attempts (times : list Z) (m : meta_t) : nat * meta_t :=
  match times with
  | [] => (0%nat, m)
  | now :: rest =>
      let '(ok, m1) := consumeRateToken now m in
      let '(n, m2) := attempts rest m1 in
      (((if ok then 1 else 0) + n)%nat, m2)
  end.


(** A connection sits in a room: in its driver slot or among its viewers. *)
Definition member (w : nat) (room : room_t) : Prop :=
  driver room = Some w ∨ w ∈ viewers room.

(** Every room has a connection that has not closed bound to its device. *)
Definition rooms_bound (s : state) : Prop :=
  ∀ d room, rooms s !! d = Some room → ∃ w r, conn s w = Some (r, Some d).

(** No viewer set holds a connection twice. *)
Definition viewers_nodup (s : state) : Prop :=
  ∀ d room, rooms s !! d = Some room → NoDup (viewers room).

(** *** The heartbeat (server.js 244-253, index.js 163-172)

    [isAlive] maps a socket to its [ws.isAlive] flag (set to [true] by the
    ["connection"] handler); [clients] is [wss.clients] in iteration
    order.  The calls [ws.ping()] and [ws.terminate()] are recorded as
    effects. *)

Inductive hb_effect :=
| Ping (w : nat)
| Terminate (w : nat).

(** The body of the loop for one client. *)
Definition heartbeat_client (isAlive : gmap nat bool) (ws : nat)
  : gmap nat bool * list hb_effect :=
  if bool_decide (isAlive !! ws = Some false) then (isAlive, [Terminate ws])
  else (<[ws := false]> isAlive, [Ping ws]).

Fixpoint heartbeat (clients : list nat) (isAlive : gmap nat bool)
  : gmap nat bool * list hb_effect :=
  match clients with
  | [] => (isAlive, [])
  | ws :: rest =>
      let '(a1, o1) := heartbeat_client isAlive ws in
      let '(a2, o2) := heartbeat rest a1 in
      (a2, o1 ++ o2)
  end.

(** The ["pong"] handler. *)
Definition on_pong (ws : nat) (isAlive : gmap nat bool) : gmap nat bool :=
  <[ws := true]> isAlive.

(** index.js after a driver of ["bus-1"] has sent one telemetry message and
    has disconnected, and a new connection has arrived. *)
Definition index_snapshot_state : Index.state :=
  Index.on_connection 2
    (Index.unregister 1
       (Index.on_telemetry 1
          {| Index.role := Some Driver; Index.deviceId := Some "bus-1" |}
          (telemetry_msg "bus-1" []) index_driver_state).1).

(** A driver of ["bus-1"] that has sent one telemetry message, watched by
    one viewer. *)
Definition watched_trace : list event :=
  driver_trace ++ [EConnection 2; EMessage 2 (Some (hello_msg "viewer" "bus-1" [])) 20].

Definition watched_state : state := (run watched_trace init).1.

(** The same driver watched by two viewers, and a new connection. *)
Definition crowd_trace : list event :=
  watched_trace
    ++ [EConnection 3; EMessage 3 (Some (hello_msg "viewer" "bus-1" [])) 30;
        EConnection 4].

Definition crowd_state : state := (run crowd_trace init).1.

(** index.js after a second driver has taken ["bus-1"] over from the first,
    which has not closed yet, with two viewers. *)
Definition index_takeover_state : Index.state :=
  let hello ws r s :=
    (Index.on_first ws (hello_msg r "bus-1" []) (Index.on_connection ws s)).1 in
  hello 4 "viewer" (hello 3 "viewer" (hello 2 "driver" index_driver_state)).

(** * Properties *)

(** ** Strings *)

Lemma nonempty_true s : nonempty s = true ↔ s ≠ "".
Proof.
  unfold nonempty. rewrite negb_true_iff, bool_decide_eq_false. done.
Qed.

Lemma nonempty_false s : nonempty s = false ↔ s = "".
Proof.
  unfold nonempty. rewrite negb_false_iff, bool_decide_eq_true. done.
Qed.

Lemma trim_end_idem s : trim_end (trim_end s) = trim_end s.
Proof.
  induction s as [|c r IH]; [done|]. simpl.
  destruct (trim_end r) as [|c' r'] eqn:E.
  - destruct (is_ws c) eqn:W; [done|]. simpl. by rewrite W.
  - simpl. simpl in IH. by rewrite IH.
Qed.

Lemma trim_start_clean s : starts_clean (trim_start s).
Proof.
  induction s as [|c r IH]; [done|]. simpl.
  destruct (is_ws c) eqn:W; [done|]. done.
Qed.

Lemma trim_start_of_clean s : starts_clean s → trim_start s = s.
Proof. destruct s as [|c r]; [done|]. simpl. by intros ->. Qed.

Lemma trim_end_clean s : starts_clean s → starts_clean (trim_end s).
Proof.
  destruct s as [|c r]; [done|]. simpl. intros W.
  destruct (trim_end r); [by rewrite W|done].
Qed.

Lemma trim_idem s : trim (trim s) = trim s.
Proof.
  unfold trim.
  rewrite (trim_start_of_clean (trim_end (trim_start s))).
  - apply trim_end_idem.
  - apply trim_end_clean, trim_start_clean.
Qed.

(** ** Sending *)

Lemma sendJson_open s ws sock o :
  sockets s !! ws = Some sock → readyState sock = OPEN →
  sendJson ws o s = [Send ws o].
Proof. intros H1 H2. unfold sendJson. rewrite H1, H2. done. Qed.

Lemma sendJson_no_close s ws o w c r : Close w c r ∉ sendJson ws o s.
Proof.
  unfold sendJson. destruct (sockets s !! ws) as [sock|]; [|by apply not_elem_of_nil].
  destruct (bool_decide (readyState sock = OPEN)); [|by apply not_elem_of_nil].
  by intros ?%list_elem_of_singleton.
Qed.

Lemma str_is_true v s : str_is v s = true ↔ as_string v = Some s.
Proof.
  unfold str_is. destruct (as_string v); [|done].
  rewrite bool_decide_eq_true. naive_solver.
Qed.

Lemma str_is_object msg k s : str_is (get msg k) s = true → is_object msg = true.
Proof. destruct msg; done. Qed.

Lemma str_is_functional v a b : str_is v a = true → a ≠ b → str_is v b = false.
Proof.
  rewrite str_is_true. intros E Hne. unfold str_is. rewrite E.
  by apply bool_decide_eq_false.
Qed.

(** A telemetry message reaches the telemetry branch of the handler. *)
Lemma on_message_telemetry s ws msg now :
  str_is (get msg "type") "telemetry" = true →
  on_message ws (Some msg) now s = on_telemetry ws msg now s.
Proof.
  intros T. unfold on_message.
  rewrite (str_is_object _ _ _ T). simpl.
  rewrite (str_is_functional _ _ "hello" T); [|done]. by rewrite T.
Qed.

Lemma on_message_hello s ws msg now :
  str_is (get msg "type") "hello" = true →
  on_message ws (Some msg) now s = on_hello ws msg s.
Proof.
  intros T. unfold on_message.
  rewrite (str_is_object _ _ _ T). simpl. by rewrite T.
Qed.

Lemma validateTelemetry_deviceId msg :
  validateTelemetry msg = None → ∃ d, as_string (get msg "deviceId") = Some d.
Proof.
  unfold validateTelemetry.
  destruct (negb (is_object msg)); [done|].
  destruct (negb (str_is _ _)); [done|].
  unfold trimmed. destruct (as_string (get msg "deviceId")) as [d|]; [eauto|done].
Qed.

(** C8: an authorization violation is answered with an error frame and
    nothing else.  A connection that is not a driver and sends a telemetry
    message gets exactly the frame saying that only drivers may send
    telemetry; a driver whose telemetry names another device than the one
    of its handshake gets one error frame, which for an otherwise valid
    message says that a driver must send telemetry for its subscribed
    device.  In every case no close is requested and the relay state, the
    socket's ready state included, is unchanged. *)
Theorem authorization_violation_keeps_open s ws sock msg now :
  sockets s !! ws = Some sock →
  readyState sock = OPEN →
  str_is (get msg "type") "telemetry" = true →
  (role (meta sock) ≠ Some Driver →
   on_message ws (Some msg) now s
   = (s, [Send ws (error_frame "Only drivers may send telemetry")]))
  ∧ (role (meta sock) = Some Driver →
     as_string (get msg "deviceId") ≠ deviceId (meta sock) →
     (∃ e, on_message ws (Some msg) now s = (s, [Send ws (error_frame e)]))
     ∧ (validateTelemetry msg = None →
        on_message ws (Some msg) now s
        = (s, [Send ws (error_frame
                          "Driver must send telemetry for subscribed deviceId")]))).
Proof.
  intros Hs Ho T. rewrite (on_message_telemetry _ _ _ _ T).
  unfold on_telemetry. rewrite Hs. split.
  - intros Hr. rewrite bool_decide_eq_false_2 by done. simpl.
    by rewrite (sendJson_open _ _ _ _ Hs Ho).
  - intros Hr Hd. rewrite bool_decide_eq_true_2 by done. simpl.
    destruct (validateTelemetry msg) as [e|] eqn:V.
    + split; [|done]. exists e. by rewrite (sendJson_open _ _ _ _ Hs Ho).
    + destruct (validateTelemetry_deviceId _ V) as [d Ed]. rewrite Ed.
      rewrite bool_decide_eq_false_2 by (rewrite Ed in Hd; congruence). simpl.
      rewrite (sendJson_open _ _ _ _ Hs Ho). eauto.
Qed.

Lemma authorization_violation_keeps_open_witness :
  on_message 1 (Some (telemetry_msg "bus-1" [])) 5 viewer_state
  = (viewer_state, [Send 1 (error_frame "Only drivers may send telemetry")])
  ∧ on_message 1 (Some (telemetry_msg "bus-2" [])) 20 driver_state
    = (driver_state,
       [Send 1 (error_frame "Driver must send telemetry for subscribed deviceId")]).
Proof.
  split.
  - refine (proj1 (authorization_violation_keeps_open viewer_state 1
              {| meta := {| role := Some Viewer; deviceId := Some "bus-1"; rate := None |};
                 readyState := OPEN |}
              (telemetry_msg "bus-1" []) 5 _ _ _) _).
    + vm_compute. reflexivity.
    + reflexivity.
    + vm_compute. reflexivity.
    + simpl. discriminate.
  - refine (proj2 (proj2 (authorization_violation_keeps_open driver_state 1
              {| meta := {| role := Some Driver; deviceId := Some "bus-1";
                            rate := Some {| tokens := 4; last := 10 |} |};
                 readyState := OPEN |}
              (telemetry_msg "bus-2" []) 20 _ _ _) _ _) _).
    + vm_compute. reflexivity.
    + reflexivity.
    + vm_compute. reflexivity.
    + reflexivity.
    + vm_compute. discriminate.
    + vm_compute. reflexivity.
Defined.

(** ** Detaching a connection *)

Lemma removeSocketFromRoom_sockets ws s :
  sockets (removeSocketFromRoom ws s) = sockets s.
Proof.
  unfold removeSocketFromRoom.
  repeat (case_match; try done); by case_bool_decide.
Qed.

Lemma removeSocketFromRoom_names ws s :
  names (removeSocketFromRoom ws s) = names s
  ∧ routeMeta (removeSocketFromRoom ws s) = routeMeta s.
Proof.
  unfold removeSocketFromRoom.
  repeat (case_match; try done); by case_bool_decide.
Qed.

(** The room table after a detach, key by key. *)
Lemma removeSocketFromRoom_rooms ws s d :
  rooms (removeSocketFromRoom ws s) !! d =
  match sockets s !! ws with
  | Some sock =>
      if bool_decide (deviceId (meta sock) = Some d ∧ d ≠ "")
      then room ← rooms s !! d;
           let room' := room_without ws (role (meta sock)) room in
           if room_empty room' then None else Some room'
      else rooms s !! d
  | None => rooms s !! d
  end.
Proof.
  unfold removeSocketFromRoom.
  destruct (sockets s !! ws) as [sock|]; [|done].
  destruct (deviceId (meta sock)) as [d0|]; [|by rewrite bool_decide_eq_false_2 by naive_solver].
  case_bool_decide as E0.
  { subst d0. rewrite bool_decide_eq_false_2 by naive_solver. done. }
  destruct (decide (d0 = d)) as [->|Hne].
  - rewrite bool_decide_eq_true_2 by done.
    destruct (rooms s !! d) as [room|] eqn:R; simpl; [|by rewrite R].
    destruct (room_empty _); simpl.
    + by rewrite lookup_delete_eq.
    + by rewrite lookup_insert_eq.
  - rewrite bool_decide_eq_false_2 by naive_solver.
    destruct (rooms s !! d0) as [room|] eqn:R; [|done].
    destruct (room_empty _); simpl.
    + by rewrite lookup_delete_ne.
    + by rewrite lookup_insert_ne.
Qed.

(** The snapshot table after a detach, key by key. *)
Lemma removeSocketFromRoom_latest ws s d :
  latestTelemetry (removeSocketFromRoom ws s) !! d =
  match sockets s !! ws with
  | Some sock =>
      if bool_decide (deviceId (meta sock) = Some d ∧ d ≠ "")
      then match rooms s !! d with
           | Some room =>
               if room_empty (room_without ws (role (meta sock)) room)
               then None else latestTelemetry s !! d
           | None => latestTelemetry s !! d
           end
      else latestTelemetry s !! d
  | None => latestTelemetry s !! d
  end.
Proof.
  unfold removeSocketFromRoom.
  destruct (sockets s !! ws) as [sock|]; [|done].
  destruct (deviceId (meta sock)) as [d0|]; [|by rewrite bool_decide_eq_false_2 by naive_solver].
  case_bool_decide as E0.
  { subst d0. rewrite bool_decide_eq_false_2 by naive_solver. done. }
  destruct (decide (d0 = d)) as [->|Hne].
  - rewrite bool_decide_eq_true_2 by done.
    destruct (rooms s !! d) as [room|] eqn:R; simpl; [|done].
    destruct (room_empty _); simpl; [|done].
    by rewrite lookup_delete_eq.
  - rewrite bool_decide_eq_false_2 by naive_solver.
    destruct (rooms s !! d0) as [room|] eqn:R; [|done].
    destruct (room_empty _); simpl; [|done].
    by rewrite lookup_delete_ne.
Qed.

Lemma room_without_other_driver ws r room x :
  driver room = Some x → x ≠ ws →
  driver (room_without ws r room) = Some x
  ∧ room_empty (room_without ws r room) = false.
Proof.
  intros D Hne. unfold room_without.
  rewrite (bool_decide_eq_false_2 (driver room = Some ws)) by congruence.
  rewrite andb_false_r.
  destruct (bool_decide (r = Some Viewer)); unfold room_empty; simpl; rewrite D;
    by rewrite bool_decide_eq_false_2.
Qed.

(** Detaching [ws] leaves another connection in the driver slot. *)
Lemma removeSocketFromRoom_other_driver ws s d room x :
  rooms s !! d = Some room → driver room = Some x → x ≠ ws →
  (∃ room', rooms (removeSocketFromRoom ws s) !! d = Some room'
            ∧ driver room' = Some x)
  ∧ latestTelemetry (removeSocketFromRoom ws s) !! d = latestTelemetry s !! d.
Proof.
  intros R D Hne.
  rewrite removeSocketFromRoom_rooms, removeSocketFromRoom_latest, R.
  destruct (sockets s !! ws) as [sock|]; [|eauto].
  destruct (room_without_other_driver ws (role (meta sock)) room x D Hne) as [D' E'].
  case_bool_decide; simpl; rewrite ?E'; eauto.
Qed.

Lemma ensureRoom_lookup d s :
  rooms (ensureRoom d s) !! d = Some (room_at d s).
Proof.
  unfold ensureRoom, room_at.
  destruct (rooms s !! d) eqn:R; simpl; [by rewrite R|by rewrite lookup_insert_eq].
Qed.

Lemma room_at_ensureRoom d s : room_at d (ensureRoom d s) = room_at d s.
Proof. unfold room_at at 1. by rewrite ensureRoom_lookup. Qed.

Lemma ensureRoom_other d d' s :
  d ≠ d' → rooms (ensureRoom d s) !! d' = rooms s !! d'.
Proof.
  intros Hne. unfold ensureRoom.
  destruct (rooms s !! d); simpl; [done|by rewrite lookup_insert_ne].
Qed.

(** ** Assigning a driver *)

(** The result of a driver assignment, in terms of the room found after
    the detach. *)
Lemma assign_driver_unfold ws d s :
  let room := room_at d (removeSocketFromRoom ws s) in
  (∃ r', rooms (assignSocketToRoom ws d Driver s).1 !! d = Some r'
         ∧ driver r' = Some ws ∧ viewers r' = viewers room)
  ∧ (assignSocketToRoom ws d Driver s).2 =
    match driver room with
    | Some p => if bool_decide (p ≠ ws) then [Close p 1001 "driver replaced"] else []
    | None => []
    end
  ∧ latestTelemetry (assignSocketToRoom ws d Driver s).1
    = latestTelemetry (removeSocketFromRoom ws s)
  ∧ names (assignSocketToRoom ws d Driver s).1 = names s
  ∧ routeMeta (assignSocketToRoom ws d Driver s).1 = routeMeta s.
Proof.
  intros room. unfold assignSocketToRoom.
  rewrite room_at_ensureRoom. fold room.
  destruct (removeSocketFromRoom_names ws s) as [N1 N2].
  assert (L : latestTelemetry (ensureRoom d (removeSocketFromRoom ws s))
              = latestTelemetry (removeSocketFromRoom ws s)).
  { unfold ensureRoom. by destruct (rooms _ !! d). }
  assert (N : names (ensureRoom d (removeSocketFromRoom ws s)) = names s
              ∧ routeMeta (ensureRoom d (removeSocketFromRoom ws s)) = routeMeta s).
  { unfold ensureRoom. by destruct (rooms _ !! d). }
  destruct N as [N3 N4].
  destruct (driver room) as [p|]; [case_bool_decide|]; simpl;
    rewrite lookup_insert_eq; eauto 10.
Qed.

(** A driver assigned to a room held by another connection [p]: the one
    close, and the new holder of the slot. *)
Lemma assign_driver_replaces s ws d room p :
  rooms s !! d = Some room → driver room = Some p → p ≠ ws →
  (assignSocketToRoom ws d Driver s).2 = [Close p 1001 "driver replaced"]
  ∧ ∃ r', rooms (assignSocketToRoom ws d Driver s).1 !! d = Some r'
          ∧ driver r' = Some ws.
Proof.
  intros R D Hne.
  destruct (assign_driver_unfold ws d s) as ([r' (R' & D' & _)] & O & _).
  destruct (removeSocketFromRoom_other_driver ws s d room p R D Hne)
    as [[room1 [R1 D1]] _].
  split; [|eauto].
  rewrite O. unfold room_at. rewrite R1. simpl. rewrite D1.
  by rewrite bool_decide_eq_true_2.
Qed.

(** ** Re-sending the driver hello *)

Lemma room_without_driver ws r room p :
  driver (room_without ws r room) = Some p → driver room = Some p.
Proof.
  unfold room_without.
  destruct (_ && _); [done|]. by destruct (bool_decide (r = Some Viewer)).
Qed.

(** A driver found in a room after a detach was there before it. *)
Lemma removeSocketFromRoom_driver_before ws s d p :
  driver (room_at d (removeSocketFromRoom ws s)) = Some p →
  ∃ room, rooms s !! d = Some room ∧ driver room = Some p.
Proof.
  unfold room_at. rewrite removeSocketFromRoom_rooms.
  destruct (sockets s !! ws) as [sock|].
  - case_bool_decide.
    + destruct (rooms s !! d) as [room|]; simpl; [|done].
      destruct (room_empty _); simpl; [done|].
      intros D%room_without_driver. eauto.
    + destruct (rooms s !! d) as [room|]; simpl; [eauto|done].
  - destruct (rooms s !! d) as [room|]; simpl; [eauto|done].
Qed.

(** The close of line 43 names the previous driver of the room, which is
    not the connection being assigned. *)
Lemma assign_close_only_other ws d r s p c reason :
  Close p c reason ∈ (assignSocketToRoom ws d r s).2 →
  r = Driver ∧ p ≠ ws ∧ c = 1001%Z ∧ reason = "driver replaced"
  ∧ ∃ room, rooms s !! d = Some room ∧ driver room = Some p.
Proof.
  destruct r.
  - destruct (assign_driver_unfold ws d s) as (_ & -> & _).
    destruct (driver _) as [q|] eqn:D; [|by intros ?%not_elem_of_nil].
    case_bool_decide; [|by intros ?%not_elem_of_nil].
    intros E%list_elem_of_singleton. injection E as -> -> ->.
    repeat split; [done|]. by apply (removeSocketFromRoom_driver_before ws).
  - unfold assignSocketToRoom.
    destruct (latestTelemetry _ !! d); simpl.
    + intros ?. by edestruct sendJson_no_close.
    + by intros ?%not_elem_of_nil.
Qed.

(** C10 (as amended): a driver that re-sends its hello for the room it
    drives is not closed as replaced, and no close at all is requested: the
    close of line 43 is requested only for a previous driver that is a
    different connection.  The repeated assignment leaves the rooms, the
    connections and the device memory as they were.  The stored snapshot of
    the device is kept when the room has a viewer, and is deleted when it
    has none, because the detach at the start of the assignment empties the
    room. *)
Theorem driver_rehello_not_replaced s ws sock d room :
  sockets s !! ws = Some sock →
  role (meta sock) = Some Driver →
  deviceId (meta sock) = Some d →
  d ≠ "" →
  rooms s !! d = Some room →
  driver room = Some ws →
  let s' := (assignSocketToRoom ws d Driver s).1 in
  (assignSocketToRoom ws d Driver s).2 = []
  ∧ (∀ s0 w0 d0 r0 p c reason,
       Close p c reason ∈ (assignSocketToRoom w0 d0 r0 s0).2 →
       p ≠ w0 ∧ ∃ room0, rooms s0 !! d0 = Some room0 ∧ driver room0 = Some p)
  ∧ rooms s' = rooms s
  ∧ sockets s' = sockets s
  ∧ names s' = names s
  ∧ routeMeta s' = routeMeta s
  ∧ latestTelemetry s' =
    (if bool_decide (viewers room = []) then delete d (latestTelemetry s)
     else latestTelemetry s).
Proof.
  intros Hs Hr Hd Hne R D s'.
  assert (S1 : removeSocketFromRoom ws s =
               if bool_decide (viewers room = [])
               then set_latestTelemetry (delete d) (set_rooms (delete d) s)
               else set_rooms <[d := {| driver := None; viewers := viewers room |}]> s).
  { unfold removeSocketFromRoom. rewrite Hs, Hd, R.
    rewrite bool_decide_eq_false_2 by done.
    unfold room_without. rewrite Hr, D, !bool_decide_eq_true_2 by done. simpl.
    unfold room_empty. simpl. done. }
  assert (Hsock : alter (λ k : socket,
             {| meta := {| role := Some Driver; deviceId := Some d; rate := rate (meta k) |};
                readyState := readyState k |}) ws (sockets s) = sockets s).
  { apply alter_id. intros x Hx. rewrite Hs in Hx. injection Hx as <-.
    destruct sock as [[? ? ?] ?]. simpl in *. by subst. }
  assert (Hroom : room = {| driver := Some ws; viewers := viewers room |}).
  { destruct room. simpl in *. by subst. }
  subst s'. unfold assignSocketToRoom. rewrite S1.
  split; [|split].
  - case_bool_decide as E.
    + unfold ensureRoom, room_at. simpl. rewrite lookup_delete_eq. simpl.
      by rewrite lookup_insert_eq.
    + unfold ensureRoom, room_at. simpl. rewrite lookup_insert_eq. simpl.
      by rewrite lookup_insert_eq.
  - intros s0 w0 d0 r0 p c reason Hin.
    apply assign_close_only_other in Hin. naive_solver.
  - case_bool_decide as E.
    + unfold ensureRoom, room_at. simpl. rewrite lookup_delete_eq. simpl.
      rewrite lookup_insert_eq. simpl.
      rewrite insert_insert_eq, insert_delete_eq, Hsock.
      repeat split; try done.
      apply insert_id. rewrite R. f_equal. rewrite Hroom at 1. by rewrite E.
    + unfold ensureRoom, room_at. simpl. rewrite lookup_insert_eq. simpl.
      rewrite lookup_insert_eq. simpl.
      rewrite insert_insert_eq, Hsock.
      repeat split; try done.
      apply insert_id. rewrite R. f_equal. exact Hroom.
Qed.

Lemma driver_rehello_not_replaced_witness :
  (assignSocketToRoom 1 "bus-1" Driver driver_state).2 = [].
Proof.
  refine (proj1 (driver_rehello_not_replaced driver_state 1
            {| meta := {| role := Some Driver; deviceId := Some "bus-1";
                          rate := Some {| tokens := 4; last := 10 |} |};
               readyState := OPEN |}
            "bus-1" {| driver := Some 1; viewers := [] |} _ _ _ _ _ _)).
  - vm_compute. reflexivity.
  - reflexivity.
  - reflexivity.
  - discriminate.
  - vm_compute. reflexivity.
  - reflexivity.
Defined.

(** C10 (as stated) fails: repeating the assignment of a driver to the
    room it drives is not idempotent.  After connection 2 has taken over
    ["bus-1"] the snapshot is still stored; assigning connection 2 once
    more deletes it, so the second assignment changes the state the first
    one produced.  The same happens to the single driver of
    [driver_state]. *)
Lemma repeated_assign_not_idempotent :
  let f := λ s, (assignSocketToRoom 2 "bus-1" Driver s).1 in
  let s := on_connection 2 driver_state in
  (∃ room, rooms (f s) !! "bus-1" = Some room ∧ driver room = Some 2)
  ∧ is_Some (latestTelemetry (f s) !! "bus-1")
  ∧ latestTelemetry (f (f s)) !! "bus-1" = None
  ∧ f (f s) ≠ f s
  ∧ (assignSocketToRoom 1 "bus-1" Driver driver_state).1 ≠ driver_state.
Proof.
  assert (A : latestTelemetry
                (assignSocketToRoom 2 "bus-1" Driver
                   (assignSocketToRoom 2 "bus-1" Driver
                      (on_connection 2 driver_state)).1).1 !! "bus-1" = None)
    by (vm_compute; reflexivity).
  assert (B : is_Some (latestTelemetry
                (assignSocketToRoom 2 "bus-1" Driver
                   (on_connection 2 driver_state)).1 !! "bus-1"))
    by (vm_compute; eauto).
  lazy zeta beta. split; [|split; [|split; [|split]]].
  - eexists. split; vm_compute; reflexivity.
  - exact B.
  - exact A.
  - intros E. rewrite E in A. rewrite A in B. destruct B as [x Hx]. discriminate Hx.
  - intros E.
    assert (C : latestTelemetry (assignSocketToRoom 1 "bus-1" Driver driver_state).1
                  !! "bus-1" = None) by (vm_compute; reflexivity).
    rewrite E in C. vm_compute in C. discriminate.
Qed.

(** ** The hello handshake *)

Lemma sendJson_ext s s' ws o :
  readyState <$> sockets s !! ws = readyState <$> sockets s' !! ws →
  sendJson ws o s = sendJson ws o s'.
Proof.
  unfold sendJson.
  destruct (sockets s !! ws), (sockets s' !! ws); simpl; intros E; try done.
  by injection E as ->.
Qed.

Lemma broadcast_no_close vs o s w c r : Close w c r ∉ broadcast vs o s.
Proof.
  unfold broadcast. induction vs as [|v vs IH]; simpl; [by apply not_elem_of_nil|].
  rewrite elem_of_app. intros [H|H]; [by eapply sendJson_no_close|done].
Qed.

(** What an accepted hello carries. *)
Lemma validateHello_ok msg :
  validateHello msg = None ↔
  is_object msg = true ∧ str_is (get msg "type") "hello" = true
  ∧ (∃ r, role_of (get msg "role") = Some r)
  ∧ ∃ d, as_string (get msg "deviceId") = Some d ∧ trim d ≠ "".
Proof.
  unfold validateHello.
  destruct (is_object msg); simpl; [|naive_solver].
  destruct (str_is (get msg "type") "hello"); simpl; [|naive_solver].
  destruct (role_of (get msg "role")) as [r|]; simpl.
  - destruct (as_string (get msg "deviceId")) as [d|]; [|naive_solver].
    case_bool_decide; naive_solver.
  - naive_solver.
Qed.

(** The ready state of the assigned connection is not touched. *)
Lemma assign_readyState_self ws d r s :
  readyState <$> sockets (assignSocketToRoom ws d r s).1 !! ws
  = readyState <$> sockets s !! ws.
Proof.
  assert (B : readyState <$> sockets (bind_meta ws d r
                (ensureRoom d (removeSocketFromRoom ws s))) !! ws
              = readyState <$> sockets s !! ws).
  { simpl. rewrite lookup_alter_eq.
    replace (sockets (ensureRoom d (removeSocketFromRoom ws s))) with (sockets s).
    - by destruct (sockets s !! ws).
    - unfold ensureRoom. destruct (rooms _ !! d); simpl;
        by rewrite removeSocketFromRoom_sockets. }
  unfold assignSocketToRoom. destruct r.
  - destruct (driver _) as [p|]; [case_bool_decide|]; simpl; simpl in B; try done.
    by rewrite lookup_alter_ne.
  - destruct (latestTelemetry _ !! d); simpl; exact B.
Qed.

Lemma merge_route_sockets d a b s : sockets (merge_route d a b s) = sockets s.
Proof. unfold merge_route. by destruct (_ || _). Qed.

Lemma merge_route_rooms d a b s :
  rooms (merge_route d a b s) = rooms s
  ∧ latestTelemetry (merge_route d a b s) = latestTelemetry s
  ∧ names (merge_route d a b s) = names s.
Proof. unfold merge_route. by destruct (_ || _). Qed.

(** An accepted hello: the assignment, the memory merge, the ack. *)
Lemma on_hello_accepted ws msg s d r :
  validateHello msg = None →
  as_string (get msg "deviceId") = Some d →
  role_of (get msg "role") = Some r →
  ∃ s' ack,
    on_hello ws msg s
    = (s', (assignSocketToRoom ws d r s).2 ++ sendJson ws ack s)
    ∧ ack = hello_ack (JStr (role_name r)) (JStr d)
              (trimmed (get msg "displayName")) (routeMeta s' !! d)
    ∧ rooms s' = rooms (assignSocketToRoom ws d r s).1
    ∧ latestTelemetry s' = latestTelemetry (assignSocketToRoom ws d r s).1
    ∧ sockets s' = sockets (assignSocketToRoom ws d r s).1.
Proof.
  intros V Ed Er. unfold on_hello. rewrite V, Ed, Er.
  pose proof (assign_readyState_self ws d r s) as RS.
  destruct (assignSocketToRoom ws d r s) as [s1 out]. simpl in RS.
  eexists _, _. split; [|split; [reflexivity|]].
  - f_equal. f_equal. apply sendJson_ext.
    rewrite merge_route_sockets.
    destruct (nonempty (trimmed (get msg "displayName"))); simpl; exact RS.
  - simpl. destruct (merge_route_rooms d (trimmed (get msg "routeId"))
      (trimmed (get msg "direction"))
      (if nonempty (trimmed (get msg "displayName"))
       then set_names <[d:=trimmed (get msg "displayName")]> s1 else s1)) as (-> & -> & _).
    rewrite merge_route_sockets.
    by destruct (nonempty (trimmed (get msg "displayName"))).
Qed.

(** server.js never asks to close the connection whose message it is
    handling. *)
Lemma on_message_never_closes_sender ws raw now s c r :
  Close ws c r ∉ (on_message ws raw now s).2.
Proof.
  unfold on_message. destruct raw as [msg|]; [|apply sendJson_no_close].
  destruct (negb (is_object msg)); [apply sendJson_no_close|].
  destruct (str_is (get msg "type") "hello").
  { unfold on_hello. destruct (validateHello msg) as [e|] eqn:V;
      [apply sendJson_no_close|].
    destruct (as_string _) as [d|]; [|by apply not_elem_of_nil].
    destruct (role_of _) as [ro|]; [|by apply not_elem_of_nil].
    pose proof (assign_close_only_other ws d ro s ws c r) as A.
    destruct (assignSocketToRoom ws d ro s) as [s1 out]. simpl in *.
    rewrite elem_of_app. intros [H|H]; [|by eapply sendJson_no_close].
    destruct (A H) as (_ & Hne & _). by apply Hne. }
  destruct (str_is (get msg "type") "telemetry"); [|apply sendJson_no_close].
  unfold on_telemetry. destruct (sockets s !! ws) as [sock|]; [|by apply not_elem_of_nil].
  destruct (negb _); [apply sendJson_no_close|].
  destruct (validateTelemetry msg); [apply sendJson_no_close|].
  destruct (as_string _) as [d|]; [|by apply not_elem_of_nil].
  destruct (negb _); [apply sendJson_no_close|].
  destruct (consumeRateToken now (meta sock)) as [ok m'].
  destruct (negb ok); [by apply not_elem_of_nil|].
  apply broadcast_no_close.
Qed.

(** ** index.js *)

Lemma index_sendJson_open s ws sock o :
  Index.sockets s !! ws = Some sock → Index.readyState sock = OPEN →
  Index.sendJson ws o s = [Send ws o].
Proof. intros H1 H2. unfold Index.sendJson. rewrite H1, H2. done. Qed.

Lemma index_sendJson_no_close s ws o w c r : Close w c r ∉ Index.sendJson ws o s.
Proof.
  unfold Index.sendJson.
  destruct (Index.sockets s !! ws) as [sock|]; [|by apply not_elem_of_nil].
  destruct (bool_decide _); [|by apply not_elem_of_nil].
  by intros ?%list_elem_of_singleton.
Qed.

Lemma index_broadcast_no_close d o s w c r :
  Close w c r ∉ Index.broadcastTelemetry d o s.
Proof.
  unfold Index.broadcastTelemetry.
  destruct (Index.viewers s !! d) as [vs|]; [|by apply not_elem_of_nil].
  induction vs as [|v vs IH]; simpl; [by apply not_elem_of_nil|].
  rewrite elem_of_app. intros [H|H]; [by eapply index_sendJson_no_close|done].
Qed.

Lemma index_validateHello_ok msg :
  Index.validateHello msg = None →
  (∃ r, role_of (get msg "role") = Some r)
  ∧ ∃ d, as_string (get msg "deviceId") = Some d ∧ trim d ≠ "".
Proof.
  unfold Index.validateHello.
  destruct (is_object msg); simpl; [|done].
  destruct (str_is (get msg "type") "hello"); simpl; [|done].
  destruct (role_of (get msg "role")) as [r|]; simpl.
  - unfold trimmed. destruct (as_string (get msg "deviceId")) as [d|]; [|done].
    destruct (nonempty (trim d)) eqn:N; simpl; [|done].
    apply nonempty_true in N. eauto.
  - done.
Qed.

(** index.js closes the sender only on a first message that fails
    validation. *)
Lemma index_close_sender_only_bad_hello ws raw s s' out c r :
  Index.on_message ws raw s = Some (s', out) →
  Close ws c r ∈ out →
  ∃ sock msg e,
    raw = Some msg ∧ Index.sockets s !! ws = Some sock
    ∧ Index.role (Index.meta sock) = None
    ∧ Index.validateHello msg = Some e
    ∧ c = 1002%Z ∧ r = "protocol error".
Proof.
  unfold Index.on_message. destruct raw as [msg|].
  2:{ intros [= <- <-] H. by edestruct index_sendJson_no_close. }
  destruct (Index.sockets s !! ws) as [sock|] eqn:Hs.
  2:{ intros [= <- <-] H. by apply not_elem_of_nil in H. }
  destruct (Index.role (Index.meta sock)) as [ro|] eqn:Hr.
  - assert (T : (if str_is (get msg "type") "telemetry"
                 then Some (Index.on_telemetry ws (Index.meta sock) msg s)
                 else Some (s, Index.sendJson ws (error_frame "Unsupported message") s))
                = Some (s', out) → Close ws c r ∈ out → False).
    { destruct (str_is _ _).
      - unfold Index.on_telemetry. rewrite Hr.
        destruct (negb _); [intros [= <- <-] H; by edestruct index_sendJson_no_close|].
        destruct (Index.deviceId _) as [d|];
          [|intros [= <- <-] H; by apply not_elem_of_nil in H].
        destruct (Index.validateTelemetry msg d);
          intros [= <- <-] H;
          [by edestruct index_sendJson_no_close|by edestruct index_broadcast_no_close].
      - intros [= <- <-] H. by edestruct index_sendJson_no_close. }
    destruct msg; try done; intros E H; by destruct (T E H).
  - intros [= E] H. unfold Index.on_first in E.
    destruct (Index.validateHello msg) as [e|] eqn:V.
    + simpl in E. injection E as <- <-.
      apply elem_of_app in H as [H|H]; [by edestruct index_sendJson_no_close|].
      apply list_elem_of_singleton in H. injection H as -> ->.
      exists sock, msg, e. done.
    + exfalso.
      destruct (index_validateHello_ok _ V) as [[ro Ero] [d [Ed _]]].
      rewrite Ed, Ero in E. destruct ro.
      * destruct (Index.drivers _ !! d) as [p|]; [case_bool_decide as Hp|];
          simpl in E; injection E as <- <-;
          rewrite ?elem_of_app in H; destruct_or?;
          try (by edestruct index_sendJson_no_close);
          try (by apply not_elem_of_nil in H).
        apply list_elem_of_singleton in H. congruence.
      * simpl in E. destruct (Index.latestTelemetry s !! d); simpl in E;
          injection E as <- <-;
          rewrite ?elem_of_app in H; destruct_or?;
          try (by edestruct index_sendJson_no_close);
          try (by apply not_elem_of_nil in H).
Qed.


(** C2 (as stated) fails on server.js: a hello with an unknown role is
    answered with the error frame only; no close is requested and the
    socket stays open. *)
Lemma invalid_hello_leaves_socket_open :
  let s := on_connection 1 init in
  let bad := hello_msg "pilot" "bus-1" [] in
  validateHello bad = Some "Role must be driver or viewer"
  ∧ on_message 1 (Some bad) 0 s
    = (s, [Send 1 (error_frame "Role must be driver or viewer")])
  ∧ (Close 1 1002 "protocol error" ∉ (on_message 1 (Some bad) 0 s).2)
  ∧ (readyState <$> sockets (on_message 1 (Some bad) 0 s).1 !! 1) = Some OPEN.
Proof.
  lazy zeta. split; [by vm_compute|]. split; [by vm_compute|].
  split; [|by vm_compute].
  apply on_message_never_closes_sender.
Qed.

(** C2 (as amended): in server.js a hello that fails validation (role not
    driver or viewer, or deviceId not a string that is non-empty once
    trimmed) is answered with one error frame carrying the validator's
    reason; the socket is not closed and the state is unchanged, and no
    message at all makes server.js close the socket that sent it.  In
    index.js the first message of a connection, when it fails validation,
    is answered with the error frame followed by a close with code 1002,
    and that is the only case in which index.js closes the sender. *)
Theorem invalid_hello_error_frame s ws sock msg now e :
  sockets s !! ws = Some sock →
  readyState sock = OPEN →
  str_is (get msg "type") "hello" = true →
  validateHello msg = Some e →
  on_message ws (Some msg) now s = (s, [Send ws (error_frame e)])
  ∧ (role_of (get msg "role") = None
     ∨ ∀ d, as_string (get msg "deviceId") = Some d → trim d = "")
  ∧ (∀ s0 raw now0 c r, Close ws c r ∉ (on_message ws raw now0 s0).2)
  ∧ (∀ si isock m e',
       Index.sockets si !! ws = Some isock →
       Index.readyState isock = OPEN →
       Index.role (Index.meta isock) = None →
       Index.validateHello m = Some e' →
       ∃ si', Index.on_message ws (Some m) si
              = Some (si', [Send ws (error_frame e'); Close ws 1002 "protocol error"])
              ∧ (Index.readyState <$> Index.sockets si' !! ws) = Some CLOSING)
  ∧ (∀ si raw si' out c r,
       Index.on_message ws raw si = Some (si', out) →
       Close ws c r ∈ out →
       ∃ isock m e',
         raw = Some m ∧ Index.sockets si !! ws = Some isock
         ∧ Index.role (Index.meta isock) = None
         ∧ Index.validateHello m = Some e'
         ∧ c = 1002%Z ∧ r = "protocol error").
Proof.
  intros Hs Ho T V. split; [|split; [|split; [|split]]].
  - rewrite (on_message_hello _ _ _ _ T). unfold on_hello. rewrite V.
    by rewrite (sendJson_open _ _ _ _ Hs Ho).
  - destruct (role_of (get msg "role")) as [ro|] eqn:Er; [right|by left].
    intros d Ed. destruct (decide (trim d = "")) as [|Hne]; [done|].
    assert (validateHello msg = None); [|congruence].
    apply validateHello_ok. rewrite T, (str_is_object _ _ _ T). eauto 10.
  - intros. apply on_message_never_closes_sender.
  - intros si isock m e' His Hio Hir Vi.
    unfold Index.on_message, Index.on_first. rewrite His, Hir, Vi. simpl.
    rewrite (index_sendJson_open _ _ _ _ His Hio). simpl.
    eexists. split; [reflexivity|]. simpl.
    rewrite lookup_alter_eq, His. simpl. by rewrite Hio.
  - intros si raw si' out c r. apply index_close_sender_only_bad_hello.
Qed.

Lemma invalid_hello_error_frame_witness :
  on_message 1 (Some (hello_msg "pilot" "bus-1" [])) 0 (on_connection 1 init)
  = (on_connection 1 init, [Send 1 (error_frame "Role must be driver or viewer")])
  ∧ ∃ si', Index.on_message 1 (Some (hello_msg "pilot" "bus-1" []))
             (Index.on_connection 1 Index.init)
           = Some (si', [Send 1 (error_frame "Unknown role");
                         Close 1 1002 "protocol error"])
           ∧ (Index.readyState <$> Index.sockets si' !! 1) = Some CLOSING.
Proof.
  destruct (invalid_hello_error_frame (on_connection 1 init) 1
              {| meta := {| role := None; deviceId := None; rate := None |};
                 readyState := OPEN |}
              (hello_msg "pilot" "bus-1" []) 0 "Role must be driver or viewer")
    as (A & _ & _ & B & _).
  - vm_compute. reflexivity.
  - reflexivity.
  - vm_compute. reflexivity.
  - vm_compute. reflexivity.
  - split; [exact A|].
    apply (B (Index.on_connection 1 Index.init)
             {| Index.meta := {| Index.role := None; Index.deviceId := None |};
                Index.readyState := OPEN |}).
    + vm_compute. reflexivity.
    + reflexivity.
    + reflexivity.
    + vm_compute. reflexivity.
Defined.

(** C3 (as stated) fails on server.js: when connection 2 takes over
    ["bus-1"] from connection 1, whose socket is open, connection 1 is
    closed with code 1001 but is sent no frame at all. *)
Lemma replaced_driver_gets_no_info_frame :
  let s := on_connection 2 driver_state in
  readyState <$> sockets s !! 1 = Some OPEN
  ∧ (on_message 2 (Some (hello_msg "driver" "bus-1" [])) 20 s).2
    = [Close 1 1001 "driver replaced";
       Send 2 (hello_ack (JStr "driver") (JStr "bus-1") "" None)]
  ∧ (Send 1 (info_frame "Another driver connected")
     ∉ (on_message 2 (Some (hello_msg "driver" "bus-1" [])) 20 s).2).
Proof.
  lazy zeta. split; [by vm_compute|].
  assert (E : (on_message 2 (Some (hello_msg "driver" "bus-1" [])) 20
                 (on_connection 2 driver_state)).2
              = [Close 1 1001 "driver replaced";
                 Send 2 (hello_ack (JStr "driver") (JStr "bus-1") "" None)])
    by (by vm_compute).
  split; [exact E|]. rewrite E.
  intros H. apply elem_of_cons in H as [H|H]; [discriminate|].
  apply list_elem_of_singleton in H. discriminate.
Qed.

(** C3 (as amended): when a second driver sends hello for a device whose
    room is driven by another connection, server.js closes the first
    driver with code 1001 and reason ["driver replaced"] without sending it
    any frame, acknowledges the hello, and the second driver becomes the
    room's driver.  In index.js the first driver, when its socket is open,
    is sent the info frame ["Another driver connected"] before that close,
    and the second driver becomes the device's driver. *)
Theorem second_driver_takes_over s ws sock msg now d room p :
  sockets s !! ws = Some sock →
  readyState sock = OPEN →
  str_is (get msg "type") "hello" = true →
  validateHello msg = None →
  role_of (get msg "role") = Some Driver →
  as_string (get msg "deviceId") = Some d →
  rooms s !! d = Some room →
  driver room = Some p →
  p ≠ ws →
  (∃ s' ack,
     on_message ws (Some msg) now s
     = (s', [Close p 1001 "driver replaced"; Send ws ack])
     ∧ assoc "type" ack = Some (JStr "hello-ack")
     ∧ (∀ o, Send p o ∉ (on_message ws (Some msg) now s).2)
     ∧ ∃ room', rooms s' !! d = Some room' ∧ driver room' = Some ws)
  ∧ (∀ si isock psock m,
       Index.sockets si !! ws = Some isock →
       Index.readyState isock = OPEN →
       Index.role (Index.meta isock) = None →
       Index.validateHello m = None →
       role_of (get m "role") = Some Driver →
       as_string (get m "deviceId") = Some d →
       Index.drivers si !! d = Some p →
       Index.sockets si !! p = Some psock →
       Index.readyState psock = OPEN →
       ∃ si', Index.on_message ws (Some m) si
              = Some (si', [Send p (info_frame "Another driver connected");
                            Close p 1001 "driver replaced";
                            Send ws (Index.hello_ack Driver d)])
              ∧ Index.drivers si' !! d = Some ws).
Proof.
  intros Hs Ho T V Er Ed R D Hne. split.
  - rewrite (on_message_hello _ _ _ _ T).
    destruct (on_hello_accepted ws msg s d Driver V Ed Er)
      as (s' & ack & E & Eack & Rs & _).
    destruct (assign_driver_replaces s ws d room p R D Hne) as (O & r' & R' & D').
    rewrite E, O, (sendJson_open _ _ _ _ Hs Ho). simpl.
    exists s', ack. split; [done|]. split; [by rewrite Eack|]. split.
    + intros o H. apply elem_of_cons in H as [H|H]; [discriminate|].
      apply list_elem_of_singleton in H. congruence.
    + exists r'. by rewrite Rs.
  - intros si isock psock m His Hio Hir Vi Eri Edi Dr Hps Hpo.
    unfold Index.on_message, Index.on_first. rewrite His, Hir, Vi, Edi, Eri.
    simpl. rewrite Dr. rewrite bool_decide_eq_true_2 by done. simpl.
    unfold Index.sendJson at 1. simpl.
    rewrite lookup_alter_ne by done. rewrite Hps, Hpo. simpl.
    unfold Index.sendJson. simpl.
    rewrite lookup_alter_ne by done. rewrite lookup_alter_eq, His. simpl.
    rewrite Hio. simpl. eexists. split; [reflexivity|]. simpl.
    by rewrite lookup_insert_eq.
Qed.

Lemma second_driver_takes_over_witness :
  (∃ s' ack,
     on_message 2 (Some (hello_msg "driver" "bus-1" [])) 20 (on_connection 2 driver_state)
     = (s', [Close 1 1001 "driver replaced"; Send 2 ack]))
  ∧ ∃ si', Index.on_message 2 (Some (hello_msg "driver" "bus-1" []))
             (Index.on_connection 2 index_driver_state)
           = Some (si', [Send 1 (info_frame "Another driver connected");
                         Close 1 1001 "driver replaced";
                         Send 2 (Index.hello_ack Driver "bus-1")])
           ∧ Index.drivers si' !! "bus-1" = Some 2.
Proof.
  destruct (second_driver_takes_over (on_connection 2 driver_state) 2
              {| meta := {| role := None; deviceId := None; rate := None |};
                 readyState := OPEN |}
              (hello_msg "driver" "bus-1" []) 20 "bus-1"
              {| driver := Some 1; viewers := [] |} 1) as [(s' & ack & E & _) B].
  - vm_compute. reflexivity.
  - reflexivity.
  - vm_compute. reflexivity.
  - vm_compute. reflexivity.
  - vm_compute. reflexivity.
  - vm_compute. reflexivity.
  - vm_compute. reflexivity.
  - reflexivity.
  - lia.
  - split; [exists s', ack; exact E|].
    apply (B (Index.on_connection 2 index_driver_state)
             {| Index.meta := {| Index.role := None; Index.deviceId := None |};
                Index.readyState := OPEN |}
             {| Index.meta := {| Index.role := Some Driver;
                                 Index.deviceId := Some "bus-1" |};
                Index.readyState := OPEN |}).
    + vm_compute. reflexivity.
    + reflexivity.
    + reflexivity.
    + vm_compute. reflexivity.
    + vm_compute. reflexivity.
    + vm_compute. reflexivity.
    + vm_compute. reflexivity.
    + vm_compute. reflexivity.
    + reflexivity.
Defined.

(** C4: the hello-ack of a hello that omits displayName does not carry the
    display name remembered for the device.  A driver session announces
    ["Bus A"] and route ["R1"] for ["bus-1"] and disconnects; the next
    session's hello names neither.  The name is still in the device memory
    and the ack carries the remembered route, but it has no displayName
    property. *)
Theorem hello_ack_omits_remembered_name :
  let s := named_session_state in
  let r := on_message 2 (Some (hello_msg "driver" "bus-1" [])) 50 s in
  let ack := [("type", JStr "hello-ack"); ("role", JStr "driver");
              ("deviceId", JStr "bus-1"); ("routeId", JStr "R1")] in
  names s !! "bus-1" = Some "Bus A"
  ∧ (routeId <$> routeMeta s !! "bus-1") = Some (Some "R1")
  ∧ r.2 = [Send 2 ack]
  ∧ assoc "displayName" ack = None
  ∧ assoc "routeId" ack = Some (JStr "R1")
  ∧ names r.1 !! "bus-1" = Some "Bus A".
Proof.
  lazy zeta. repeat split; vm_compute; reflexivity.
Qed.

(** ** The rate limiter *)

(** Comparisons of doubles, from the specification of the kernel's
    operations. *)
Lemma SFcompare_antisym x y : SFcompare y x = CompOpp <$> SFcompare x y.
Proof.
  destruct x as [sx|sx| |sx mx ex], y as [sy|sy| |sy my ey]; simpl; try done;
    try (by destruct sx); try (by destruct sy); try (by destruct sx, sy).
  f_equal. rewrite (Z.compare_antisym ex ey).
  assert (P : Pos.compare_cont Eq my mx = CompOpp (Pos.compare_cont Eq mx my))
    by (by rewrite Pos.compare_cont_antisym).
  rewrite P.
  destruct sx, sy; simpl; try done; destruct (ex ?= ey)%Z; simpl; try done.
  all: by destruct (Pos.compare_cont _ mx my).
Qed.

Lemma float_ltb_asym x y : (x <? y)%float = true → (y <? x)%float = false.
Proof.
  rewrite !FloatAxioms.ltb_spec. unfold SFltb.
  rewrite (SFcompare_antisym (Prim2SF x) (Prim2SF y)).
  by destruct (SFcompare (Prim2SF x) (Prim2SF y)) as [[]|].
Qed.

Lemma float_leb_not_ltb x y : (x <=? y)%float = true → (y <? x)%float = false.
Proof.
  rewrite FloatAxioms.leb_spec, FloatAxioms.ltb_spec. unfold SFleb, SFltb.
  rewrite (SFcompare_antisym (Prim2SF x) (Prim2SF y)).
  by destruct (SFcompare (Prim2SF x) (Prim2SF y)) as [[]|].
Qed.

Lemma float_ltb_or_leb x y :
  is_nan x = false → is_nan y = false →
  (x <? y)%float = true ∨ (y <=? x)%float = true.
Proof.
  unfold is_nan.
  rewrite !FloatAxioms.eqb_spec, FloatAxioms.leb_spec, FloatAxioms.ltb_spec.
  unfold SFeqb, SFleb, SFltb.
  rewrite (SFcompare_antisym (Prim2SF x) (Prim2SF y)).
  destruct (Prim2SF x) as [sx|sx| |sx mx ex], (Prim2SF y) as [sy|sy| |sy my ey];
    simpl; try done; try (destruct sx, sy; simpl; by eauto);
    try (destruct sx; simpl; by eauto); try (destruct sy; simpl; by eauto); eauto.
  intros _ _.
  destruct sx, sy; simpl; eauto; destruct (ex ?= ey)%Z; simpl; eauto;
    destruct (Pos.compare_cont Eq mx my); simpl; eauto.
Qed.

Lemma float_ltb_irrefl a : (a <? a)%float = false.
Proof.
  rewrite FloatAxioms.ltb_spec. unfold SFltb.
  pose proof (SFcompare_antisym (Prim2SF a) (Prim2SF a)) as A.
  by destruct (SFcompare (Prim2SF a) (Prim2SF a)) as [[]|].
Qed.

(** [Math.min(a, b)] is never above [a]. *)
Lemma Math_min_cap a b : (a <? Math_min a b)%float = false.
Proof.
  unfold Math_min. destruct (is_nan a || is_nan b).
  - rewrite FloatAxioms.ltb_spec. unfold SFltb.
    replace (Prim2SF nan) with S754_nan by (vm_compute; reflexivity).
    by destruct (Prim2SF a).
  - destruct (b <? a)%float eqn:L1; [by apply float_ltb_asym|].
    destruct (a <? b)%float eqn:L2; [apply float_ltb_irrefl|].
    destruct (is_zero a && get_sign b); [exact L2|apply float_ltb_irrefl].
Qed.

(** [consumeRateToken] in the terms of the specification's top-up; the
    test is the source's [bucket.tokens < 1]. *)
Lemma consumeRateToken_spec now m :
  let b := default {| tokens := 5; last := now |} (rate m) in
  let t := spec_top_up (tokens b) (elapsed_seconds now (last b)) in
  consumeRateToken now m
  = (negb (t <? 1)%float,
     {| role := role m; deviceId := deviceId m;
        rate := Some {| tokens := if (t <? 1)%float then t else (t - 1)%float;
                        last := now |} |}).
Proof.
  unfold consumeRateToken, initRateLimiter.
  destruct (rate m) as [b|] eqn:R; simpl; rewrite ?R.
  - change (topped_up now b)
      with (spec_top_up (tokens b) (elapsed_seconds now (last b))).
    by destruct (_ <? 1)%float.
  - change (topped_up now {| tokens := TELEMETRY_LIMIT_PER_SEC; last := now |})
      with (spec_top_up 5 (elapsed_seconds now now)).
    by destruct (_ <? 1)%float.
Qed.

Lemma spec_top_up_cap tokens secs : (5 <? spec_top_up tokens secs)%float = false.
Proof. apply Math_min_cap. Qed.

(** A first use finds five tokens and takes one, whatever the clock says. *)
Lemma consumeRateToken_first now m :
  rate m = None →
  consumeRateToken now m
  = (true, {| role := role m; deviceId := deviceId m;
              rate := Some {| tokens := 4; last := now |} |}).
Proof.
  intros R. rewrite consumeRateToken_spec, R. simpl default. cbn [tokens last].
  unfold elapsed_seconds. rewrite Z.sub_diag. reflexivity.
Qed.

Lemma relay_telemetry_stores msg d s :
  ∃ payload,
    latestTelemetry (relay_telemetry msg d s).1 !! d = Some payload
    ∧ (relay_telemetry msg d s).2
      = broadcast (viewers (room_at d (relay_telemetry msg d s).1)) payload
          (relay_telemetry msg d s).1.
Proof.
  unfold relay_telemetry. eexists. simpl. split; [|reflexivity].
  unfold ensureRoom. destruct (rooms _ !! d); simpl; by rewrite lookup_insert_eq.
Qed.

(** C5: the limiter is a token bucket of capacity 5 per connection.  On
    each telemetry message of a driver that passed validation, the bucket
    (full, and dated now, when it is first used) is topped up by the
    seconds elapsed since it was last touched times 5, capped at 5, and
    dated now; the arithmetic is that of doubles.  With less than one token
    the message is dropped: no frame is sent to anybody and only the bucket
    changes.  Otherwise one token is taken and the message is stored and
    relayed.  The test is the source's [tokens < 1]: it fails when at least
    one token is there, and on a number only then. *)
Theorem rate_limiter_token_bucket s ws sock msg now d :
  sockets s !! ws = Some sock →
  role (meta sock) = Some Driver →
  str_is (get msg "type") "telemetry" = true →
  validateTelemetry msg = None →
  as_string (get msg "deviceId") = Some d →
  deviceId (meta sock) = Some d →
  let b := default {| tokens := 5; last := now |} (rate (meta sock)) in
  let t := spec_top_up (tokens b) (elapsed_seconds now (last b)) in
  let after t' :=
    set_sockets
      <[ws := {| meta := {| role := role (meta sock); deviceId := deviceId (meta sock);
                            rate := Some {| tokens := t'; last := now |} |};
                 readyState := readyState sock |}]> s in
  (5 <? t)%float = false
  ∧ ((t <? 1)%float = true → on_message ws (Some msg) now s = (after t, []))
  ∧ ((t <? 1)%float = false →
     on_message ws (Some msg) now s = relay_telemetry msg d (after (t - 1)%float)
     ∧ is_Some (latestTelemetry (on_message ws (Some msg) now s).1 !! d))
  ∧ ((1 <=? t)%float = true → (t <? 1)%float = false)
  ∧ (is_nan t = false → (t <? 1)%float = false → (1 <=? t)%float = true).
Proof.
  intros Hs Hr T V Ed Hd b t after.
  assert (E : on_message ws (Some msg) now s
              = let '(ok, m') := consumeRateToken now (meta sock) in
                let s1 := set_sockets
                            <[ws := {| meta := m'; readyState := readyState sock |}]> s in
                if negb ok then (s1, []) else relay_telemetry msg d s1).
  { rewrite (on_message_telemetry _ _ _ _ T). unfold on_telemetry.
    rewrite Hs, Hr, V, Ed, Hd. by rewrite !bool_decide_eq_true_2 by done. }
  rewrite consumeRateToken_spec in E. fold b t in E.
  split; [apply spec_top_up_cap|]. split; [|split; [|split]].
  - intros Hlt. rewrite E, Hlt. done.
  - intros Hge.
    assert (E' : on_message ws (Some msg) now s
                 = relay_telemetry msg d (after (t - 1)%float))
      by (by rewrite E, Hge).
    split; [exact E'|]. rewrite E'.
    destruct (relay_telemetry_stores msg d (after (t - 1)%float)) as (p & -> & _).
    eauto.
  - apply float_leb_not_ltb.
  - intros N L. destruct (float_ltb_or_leb t 1 N eq_refl) as [L'|L']; [congruence|done].
Qed.

Lemma rate_limiter_token_bucket_witness :
  (on_message 1 (Some (telemetry_msg "bus-1" [])) 10 drained_watched_state).2 = []
  ∧ (on_message 1 (Some (telemetry_msg "bus-1" [])) 210 drained_watched_state).2
    = [Send 2 [("type", JStr "telemetry"); ("deviceId", JStr "bus-1");
               ("lat", JNum 29.65); ("lng", JNum (-82.35)); ("ts", JNum 1000)]].
Proof.
  pose (sock := {| meta := {| role := Some Driver; deviceId := Some "bus-1";
                              rate := Some {| tokens := 0; last := 10 |} |};
                   readyState := OPEN |}).
  assert (Hs : sockets drained_watched_state !! 1 = Some sock)
    by (vm_compute; reflexivity).
  assert (T : str_is (get (telemetry_msg "bus-1" []) "type") "telemetry" = true)
    by (vm_compute; reflexivity).
  assert (V : validateTelemetry (telemetry_msg "bus-1" []) = None)
    by (vm_compute; reflexivity).
  assert (Ed : as_string (get (telemetry_msg "bus-1" []) "deviceId") = Some "bus-1")
    by (vm_compute; reflexivity).
  split.
  - destruct (rate_limiter_token_bucket drained_watched_state 1 sock
                (telemetry_msg "bus-1" []) 10 "bus-1" Hs eq_refl T V Ed eq_refl)
      as (_ & D & _).
    rewrite D; [reflexivity|vm_compute; reflexivity].
  - destruct (rate_limiter_token_bucket drained_watched_state 1 sock
                (telemetry_msg "bus-1" []) 210 "bus-1" Hs eq_refl T V Ed eq_refl)
      as (_ & _ & P & _).
    destruct P as [P _]; [vm_compute; reflexivity|].
    rewrite P. vm_compute. reflexivity.
Defined.

(** Six messages in one millisecond: five pass and empty the bucket, the
    sixth is dropped and leaves it empty; 200 ms later one token is back and
    is taken by the next message. *)
Example burst_then_refill :
  let bucket_of s := sock ← sockets s !! 1; rate (meta sock) in
  let msg := Some (telemetry_msg "bus-1" []) in
  bucket_of drained_state = Some {| tokens := 0; last := 10 |}
  ∧ (on_message 1 msg 10 drained_state).2 = []
  ∧ bucket_of (on_message 1 msg 10 drained_state).1
    = Some {| tokens := 0; last := 10 |}
  ∧ bucket_of (on_message 1 msg 210 drained_state).1
    = Some {| tokens := 0; last := 210 |}.
Proof.
  lazy zeta. repeat split; vm_compute; reflexivity.
Qed.

(** The threshold is decided on the rounded sum.  From the empty bucket an
    attempt 20 ms later is dropped and leaves a tenth of a token, as a
    double; the attempt 180 ms after that adds [0.18 * 5], which as a
    double is just below nine tenths, and is dropped with a bucket just
    below one token, although 200 ms have passed since the bucket was
    emptied. *)
Example drop_below_rounded_threshold :
  let bucket_of s := sock ← sockets s !! 1; rate (meta sock) in
  let msg := Some (telemetry_msg "bus-1" []) in
  let s30 := (on_message 1 msg 30 drained_state).1 in
  bucket_of s30 = Some {| tokens := 0x1.999999999999ap-4; last := 30 |}
  ∧ (on_message 1 msg 210 s30).2 = []
  ∧ bucket_of (on_message 1 msg 210 s30).1
    = Some {| tokens := 0x1.fffffffffffffp-1; last := 210 |}
  ∧ (0x1.fffffffffffffp-1 <? 1)%float = true.
Proof.
  lazy zeta. repeat split; vm_compute; reflexivity.
Qed.

(** ** Catch-up on subscribe *)

Lemma ensureRoom_frame d s :
  sockets (ensureRoom d s) = sockets s
  ∧ latestTelemetry (ensureRoom d s) = latestTelemetry s
  ∧ names (ensureRoom d s) = names s
  ∧ routeMeta (ensureRoom d s) = routeMeta s.
Proof. unfold ensureRoom. by destruct (rooms s !! d). Qed.

(** The result of a viewer assignment, in terms of the state after the
    detach. *)
Lemma assign_viewer_unfold ws d s :
  let room := room_at d (removeSocketFromRoom ws s) in
  rooms (assignSocketToRoom ws d Viewer s).1 !! d
  = Some {| driver := driver room; viewers := set_add ws (viewers room) |}
  ∧ (assignSocketToRoom ws d Viewer s).2 =
    match latestTelemetry (removeSocketFromRoom ws s) !! d with
    | Some snapshot => sendJson ws snapshot s
    | None => []
    end
  ∧ latestTelemetry (assignSocketToRoom ws d Viewer s).1
    = latestTelemetry (removeSocketFromRoom ws s).
Proof.
  intros room.
  pose proof (assign_readyState_self ws d Viewer s) as RS.
  destruct (ensureRoom_frame d (removeSocketFromRoom ws s)) as (_ & L & _).
  unfold assignSocketToRoom in *. rewrite room_at_ensureRoom. fold room.
  simpl in *. rewrite L in *.
  destruct (latestTelemetry (removeSocketFromRoom ws s) !! d) as [snap|]; simpl in *;
    rewrite lookup_insert_eq; repeat split; try done.
  apply sendJson_ext. exact RS.
Qed.

Lemma room_without_other_viewer ws r room v :
  v ∈ viewers room → v ≠ ws → room_empty (room_without ws r room) = false.
Proof.
  intros Hin Hne. unfold room_empty.
  apply andb_false_iff. right. apply bool_decide_eq_false.
  unfold room_without.
  destruct (_ && _); simpl.
  - intros E. rewrite E in Hin. by apply not_elem_of_nil in Hin.
  - destruct (bool_decide (r = Some Viewer)); simpl.
    + intros E. assert (H : v ∈ set_delete ws (viewers room))
        by (by apply list_elem_of_filter).
      rewrite E in H. by apply not_elem_of_nil in H.
    + intros E. rewrite E in Hin. by apply not_elem_of_nil in Hin.
Qed.

Lemma removeSocketFromRoom_keeps_snapshot ws s d :
  not_last_in_room s ws d →
  latestTelemetry (removeSocketFromRoom ws s) !! d = latestTelemetry s !! d.
Proof.
  intros H. rewrite removeSocketFromRoom_latest.
  destruct (sockets s !! ws) as [sock|] eqn:Hs; [|done].
  case_bool_decide as B; [|done]. destruct B as [B _].
  destruct H as [H|(room & R & H)]; [by destruct (H sock Hs B)|].
  rewrite R. destruct H as [(x & D & Hne)|(v & Hin & Hne)].
  - by destruct (room_without_other_driver ws (role (meta sock)) room x D Hne)
      as [_ ->].
  - by rewrite (room_without_other_viewer ws _ room v Hin Hne).
Qed.

Lemma broadcast_elem vs o s e :
  e ∈ broadcast vs o s → ∃ v, e = Send v o ∧ v ∈ vs.
Proof.
  unfold broadcast. induction vs as [|v vs IH]; simpl.
  - by intros ?%not_elem_of_nil.
  - rewrite elem_of_app. intros [H|H].
    + exists v. split; [|by left]. unfold sendJson in H.
      destruct (sockets s !! v) as [sock|]; [|by apply not_elem_of_nil in H].
      destruct (bool_decide _); [|by apply not_elem_of_nil in H].
      by apply list_elem_of_singleton in H.
    + destruct (IH H) as (v' & -> & Hin). exists v'. split; [done|by right].
Qed.

(** C6 (as stated) fails: the snapshot of ["bus-1"] is stored, yet the
    driver that switches to the viewer role on the same connection gets
    the hello-ack only.  It was alone in the room, so the detach that
    starts the assignment deleted the room and the snapshot with it. *)
Lemma sole_occupant_gets_no_catch_up :
  let msg := hello_msg "viewer" "bus-1" [] in
  is_Some (latestTelemetry driver_state !! "bus-1")
  ∧ (readyState <$> sockets driver_state !! 1) = Some OPEN
  ∧ validateHello msg = None
  ∧ (on_message 1 (Some msg) 20 driver_state).2
    = [Send 1 (hello_ack (JStr "viewer") (JStr "bus-1") "" None)]
  ∧ latestTelemetry (on_message 1 (Some msg) 20 driver_state).1 !! "bus-1" = None.
Proof.
  lazy zeta. split; [vm_compute; eauto|].
  repeat split; vm_compute; reflexivity.
Qed.

(** C6 (as amended): a viewer hello for a device that has a stored
    snapshot, sent on an open connection that the detach does not make the
    last one to leave that device's room, is answered with the snapshot
    first and the hello-ack after it, and the snapshot stays stored.  The
    snapshot is the payload of the last relayed telemetry: every frame a
    relayed telemetry message broadcasts is the payload it stores. *)
Theorem viewer_catch_up s ws sock msg now d snapshot :
  sockets s !! ws = Some sock →
  readyState sock = OPEN →
  str_is (get msg "type") "hello" = true →
  validateHello msg = None →
  role_of (get msg "role") = Some Viewer →
  as_string (get msg "deviceId") = Some d →
  latestTelemetry s !! d = Some snapshot →
  not_last_in_room s ws d →
  (∃ s' ack,
     on_message ws (Some msg) now s = (s', [Send ws snapshot; Send ws ack])
     ∧ assoc "type" ack = Some (JStr "hello-ack")
     ∧ latestTelemetry s' !! d = Some snapshot)
  ∧ (∀ s0 m0 d0, ∃ payload,
       latestTelemetry (relay_telemetry m0 d0 s0).1 !! d0 = Some payload
       ∧ ∀ e, e ∈ (relay_telemetry m0 d0 s0).2 → ∃ v, e = Send v payload).
Proof.
  intros Hs Ho T V Er Ed L N. split.
  - rewrite (on_message_hello _ _ _ _ T).
    destruct (on_hello_accepted ws msg s d Viewer V Ed Er)
      as (s' & ack & E & Eack & _ & Ls & _).
    destruct (assign_viewer_unfold ws d s) as (_ & O & L').
    rewrite (removeSocketFromRoom_keeps_snapshot _ _ _ N), L in O.
    rewrite E, O, !(sendJson_open _ _ _ _ Hs Ho). simpl.
    exists s', ack. split; [done|]. split; [by rewrite Eack|].
    by rewrite Ls, L', (removeSocketFromRoom_keeps_snapshot _ _ _ N).
  - intros s0 m0 d0.
    destruct (relay_telemetry_stores m0 d0 s0) as (payload & St & B).
    exists payload. split; [done|]. intros e He. rewrite B in He.
    destruct (broadcast_elem _ _ _ _ He) as (v & -> & _). eauto.
Qed.

Lemma viewer_catch_up_witness :
  ∃ s' ack,
    on_message 2 (Some (hello_msg "viewer" "bus-1" [])) 20 (on_connection 2 driver_state)
    = (s', [Send 2 (telemetry_payload (telemetry_msg "bus-1" []) "bus-1" None None None);
            Send 2 ack]).
Proof.
  destruct (viewer_catch_up (on_connection 2 driver_state) 2
              {| meta := {| role := None; deviceId := None; rate := None |};
                 readyState := OPEN |}
              (hello_msg "viewer" "bus-1" []) 20 "bus-1"
              (telemetry_payload (telemetry_msg "bus-1" []) "bus-1" None None None))
    as [(s' & ack & E & _) _].
  - vm_compute. reflexivity.
  - reflexivity.
  - vm_compute. reflexivity.
  - vm_compute. reflexivity.
  - vm_compute. reflexivity.
  - vm_compute. reflexivity.
  - vm_compute. reflexivity.
  - left. intros sock Hs. vm_compute in Hs. injection Hs as <-. discriminate.
  - exists s', ack. exact E.
Defined.

(** ** Device memory *)

Lemma trimmed_clean v : nonempty (trimmed v) = true → clean (trimmed v).
Proof.
  intros N%nonempty_true. split; [done|].
  unfold trimmed in *. destruct (as_string v); [apply trim_idem|done].
Qed.

Lemma or_else_clean a b r :
  (nonempty a = true → clean a) → (∀ x, b = Some x → clean x) →
  or_else a b = Some r → clean r.
Proof.
  unfold or_else. intros Ha Hb. destruct (nonempty a) eqn:N.
  - intros [= <-]. by apply Ha.
  - apply Hb.
Qed.

Lemma remember_names msg d s :
  names (remember msg d s)
  = if nonempty (trimmed (get msg "displayName"))
    then <[d := trimmed (get msg "displayName")]> (names s) else names s.
Proof.
  unfold remember.
  destruct (merge_route_rooms d (trimmed (get msg "routeId"))
              (trimmed (get msg "direction"))
              (if nonempty (trimmed (get msg "displayName"))
               then set_names <[d := trimmed (get msg "displayName")]> s else s))
    as (_ & _ & ->).
  by destruct (nonempty _).
Qed.

Lemma remember_routeMeta msg d s :
  let route := trimmed (get msg "routeId") in
  let dir := trimmed (get msg "direction") in
  routeMeta (remember msg d s)
  = if nonempty route || nonempty dir
    then <[d := {| routeId := or_else route (routeMeta s !! d ≫= routeId);
                   direction := or_else dir (routeMeta s !! d ≫= direction) |}]>
           (routeMeta s)
    else routeMeta s.
Proof.
  unfold remember, merge_route.
  destruct (nonempty (trimmed (get msg "displayName")));
    by destruct (_ || _).
Qed.

Lemma remember_mem_ok msg d s : mem_ok s → mem_ok (remember msg d s).
Proof.
  intros [Hn Hr]. split.
  - intros d' n. rewrite remember_names.
    destruct (nonempty _) eqn:N; [|apply Hn].
    destruct (decide (d = d')) as [->|Hne].
    + rewrite lookup_insert_eq. intros [= <-]. by apply trimmed_clean.
    + rewrite lookup_insert_ne by done. apply Hn.
  - intros d' m. rewrite remember_routeMeta. lazy zeta.
    destruct (_ || _); [|apply Hr].
    destruct (decide (d = d')) as [->|Hne]; [|rewrite lookup_insert_ne by done; apply Hr].
    rewrite lookup_insert_eq. intros [= <-]. simpl.
    split; intros r; apply or_else_clean; try apply trimmed_clean;
      intros x; destruct (routeMeta s !! d') as [m|] eqn:M; simpl; try done;
      intros Hx; destruct (Hr d' m M) as [H1 H2]; eauto.
Qed.

Lemma relay_telemetry_memory msg d s :
  names (relay_telemetry msg d s).1 = names (remember msg d s)
  ∧ routeMeta (relay_telemetry msg d s).1 = routeMeta (remember msg d s).
Proof.
  unfold relay_telemetry. lazy zeta. cbn [fst].
  match goal with
  | |- context [ensureRoom d ?x] =>
      destruct (ensureRoom_frame d x) as (_ & _ & -> & ->)
  end.
  split; reflexivity.
Qed.

(** What a message does to the device memory: nothing, or the merge. *)
Lemma on_message_memory ws raw now s :
  (names (on_message ws raw now s).1 = names s
   ∧ routeMeta (on_message ws raw now s).1 = routeMeta s)
  ∨ ∃ msg d, raw = Some msg
     ∧ names (on_message ws raw now s).1 = names (remember msg d s)
     ∧ routeMeta (on_message ws raw now s).1 = routeMeta (remember msg d s).
Proof.
  unfold on_message. destruct raw as [msg|]; [|by left].
  destruct (negb (is_object msg)); [by left|].
  destruct (str_is (get msg "type") "hello").
  { unfold on_hello. destruct (validateHello msg); [by left|].
    destruct (as_string _) as [d|]; [|by left].
    destruct (role_of _) as [ro|]; [|by left].
    right. exists msg, d. split; [done|].
    assert (A : names (assignSocketToRoom ws d ro s).1 = names s
                ∧ routeMeta (assignSocketToRoom ws d ro s).1 = routeMeta s).
    { destruct ro.
      - by destruct (assign_driver_unfold ws d s) as (_ & _ & _ & -> & ->).
      - unfold assignSocketToRoom.
        destruct (ensureRoom_frame d (removeSocketFromRoom ws s)) as (_ & _ & N1 & N2).
        destruct (removeSocketFromRoom_names ws s) as [N3 N4].
        destruct (latestTelemetry _ !! d); simpl; by rewrite N1, N2, N3, N4. }
    destruct (assignSocketToRoom ws d ro s) as [s1 out]. simpl in A.
    destruct A as [A1 A2].
    change (names (remember msg d s1) = names (remember msg d s)
            ∧ routeMeta (remember msg d s1) = routeMeta (remember msg d s)).
    rewrite !remember_names, !remember_routeMeta. lazy zeta.
    by rewrite A1, A2. }
  destruct (str_is (get msg "type") "telemetry"); [|by left].
  unfold on_telemetry. destruct (sockets s !! ws) as [sock|]; [|by left].
  destruct (negb _); [by left|].
  destruct (validateTelemetry msg); [by left|].
  destruct (as_string _) as [d|]; [|by left].
  destruct (negb _); [by left|].
  destruct (consumeRateToken now (meta sock)) as [ok m'].
  destruct (negb ok); [by left|].
  right. exists msg, d. split; [done|].
  destruct (relay_telemetry_memory msg d
              (set_sockets <[ws := {| meta := m'; readyState := readyState sock |}]> s))
    as [-> ->].
  by rewrite !remember_names, !remember_routeMeta.
Qed.

Lemma mem_ok_ext s s' :
  names s' = names s → routeMeta s' = routeMeta s → mem_ok s → mem_ok s'.
Proof. unfold mem_ok. by intros -> ->. Qed.

Lemma on_message_mem_ok ws raw now s :
  mem_ok s → mem_ok (on_message ws raw now s).1.
Proof.
  intros H.
  destruct (on_message_memory ws raw now s) as [[N R]|(msg & d & _ & N & R)].
  - by apply (mem_ok_ext s).
  - apply (mem_ok_ext (remember msg d s)); [done|done|]. by apply remember_mem_ok.
Qed.

Lemma handle_mem_ok e s : mem_ok s → mem_ok (handle e s).1.
Proof.
  intros H. destruct e as [ws|ws raw now|ws|ws]; simpl.
  - exact H.
  - by apply on_message_mem_ok.
  - destruct (removeSocketFromRoom_names ws s) as [N R].
    by apply (mem_ok_ext s).
  - destruct (removeSocketFromRoom_names ws s) as [N R].
    by apply (mem_ok_ext s).
Qed.

Lemma reachable_mem_ok s : reachable s → mem_ok s.
Proof.
  induction 1 as [|s e _ IH _].
  - split; [intros d n|intros d m]; simpl; by rewrite lookup_empty.
  - by apply handle_mem_ok.
Qed.

Lemma remember_keeps_route msg d0 s d m r :
  trimmed (get msg "routeId") = "" →
  routeMeta s !! d = Some m → routeId m = Some r →
  ∃ m', routeMeta (remember msg d0 s) !! d = Some m' ∧ routeId m' = Some r.
Proof.
  intros B M Rm. rewrite remember_routeMeta. lazy zeta. rewrite B.
  destruct (_ || _); [|eauto].
  destruct (decide (d0 = d)) as [->|Hne].
  - rewrite lookup_insert_eq. eexists. split; [done|]. simpl.
    rewrite M. simpl. done.
  - rewrite lookup_insert_ne by done. eauto.
Qed.

Lemma remember_keeps_direction msg d0 s d m r :
  trimmed (get msg "direction") = "" →
  routeMeta s !! d = Some m → direction m = Some r →
  ∃ m', routeMeta (remember msg d0 s) !! d = Some m' ∧ direction m' = Some r.
Proof.
  intros B M Rm. rewrite remember_routeMeta. lazy zeta. rewrite B.
  destruct (_ || _); [|eauto].
  destruct (decide (d0 = d)) as [->|Hne].
  - rewrite lookup_insert_eq. eexists. split; [done|]. simpl.
    rewrite M. simpl. done.
  - rewrite lookup_insert_ne by done. eauto.
Qed.

(** C9: optional metadata that is blank once trimmed, or is not a string,
    counts as absent.  Every display name, route id and direction held in
    the device memory of a reachable state is a non-empty trimmed string,
    and every message keeps it so.  A message whose displayName is blank
    leaves the names map as it was; a message whose routeId (direction) is
    blank keeps the route id (direction) known for every device. *)
Theorem device_memory_nonblank s ws raw now :
  mem_ok s →
  let s' := (on_message ws raw now s).1 in
  mem_ok s'
  ∧ (∀ msg, raw = Some msg → trimmed (get msg "displayName") = "" →
       names s' = names s)
  ∧ (∀ msg d m r, raw = Some msg → trimmed (get msg "routeId") = "" →
       routeMeta s !! d = Some m → routeId m = Some r →
       ∃ m', routeMeta s' !! d = Some m' ∧ routeId m' = Some r)
  ∧ (∀ msg d m r, raw = Some msg → trimmed (get msg "direction") = "" →
       routeMeta s !! d = Some m → direction m = Some r →
       ∃ m', routeMeta s' !! d = Some m' ∧ direction m' = Some r)
  ∧ (∀ s0, reachable s0 → mem_ok s0).
Proof.
  intros H s'. subst s'.
  split; [by apply on_message_mem_ok|].
  destruct (on_message_memory ws raw now s) as [[N R]|(msg0 & d0 & E & N & R)].
  - rewrite N, R. split; [done|]. split; [by eauto|]. split; [by eauto|].
    apply reachable_mem_ok.
  - rewrite N, R. split; [|split; [|split]].
    + intros msg -> B. injection E as <-.
      rewrite remember_names, B. done.
    + intros msg d m r -> B. injection E as <-.
      by apply remember_keeps_route.
    + intros msg d m r -> B. injection E as <-.
      by apply remember_keeps_direction.
    + apply reachable_mem_ok.
Qed.

Lemma device_memory_nonblank_witness :
  names (on_message 2 (Some (hello_msg "driver" "bus-1" [("displayName", JStr "   ")]))
           50 named_session_state).1
  = names named_session_state.
Proof.
  destruct (device_memory_nonblank named_session_state 2
              (Some (hello_msg "driver" "bus-1" [("displayName", JStr "   ")])) 50)
    as (_ & K & _).
  - apply reachable_mem_ok.
    change named_session_state with
      (handle (EConnection 2) (handle (EClose 1)
         (handle (EMessage 1 (Some (hello_msg "driver" "bus-1"
                    [("displayName", JStr "Bus A"); ("routeId", JStr "R1")])) 0)
            (handle (EConnection 1) init).1).1).1).1.
    repeat (apply reach_step; [|try (vm_compute; reflexivity);
                                 try (eexists; split; [vm_compute; reflexivity|discriminate])]).
    apply reach_init.
  - apply (K _ eq_refl). vm_compute. reflexivity.
Defined.

(** ** Room lifecycle *)

Lemma conn_Some s w r od :
  conn s w = Some (r, od) ↔
  ∃ sock, sockets s !! w = Some sock ∧ readyState sock ≠ CLOSED
          ∧ role (meta sock) = r ∧ deviceId (meta sock) = od.
Proof.
  unfold conn. destruct (sockets s !! w) as [sock|]; simpl.
  - case_bool_decide; split.
    + done.
    + intros (? & [= <-] & ? & _). done.
    + intros [= <- <-]. eauto.
    + by intros (? & [= <-] & _ & <- & <-).
  - split; [done|]. by intros (? & ? & _).
Qed.

Lemma live_conn s w : live s w ↔ is_Some (conn s w).
Proof.
  unfold live, conn. destruct (sockets s !! w) as [sock|]; simpl.
  - case_bool_decide; split.
    + intros (? & [= <-] & ?). done.
    + by intros [? ?].
    + eauto.
    + eauto.
  - split; [by intros (? & ? & _)|by intros [? ?]].
Qed.

Lemma conn_sockets s s' : sockets s' = sockets s → ∀ w, conn s' w = conn s w.
Proof. unfold conn. by intros ->. Qed.

Lemma Inv_ext s s' :
  rooms s' = rooms s → latestTelemetry s' = latestTelemetry s →
  (∀ w, conn s' w = conn s w) → Inv s → Inv s'.
Proof.
  intros R L C [I1 I2 I3 I4]. split.
  - intros d snap. rewrite R, L. intros H. destruct (I1 d snap H) as (? & w & r & ?).
    split; [done|]. exists w, r. by rewrite C.
  - intros d room x. rewrite R, C. apply I2.
  - intros d room v. rewrite R, C. apply I3.
  - intros w r d. rewrite C. apply I4.
Qed.

Lemma room_without_viewers ws r room v :
  v ∈ viewers (room_without ws r room) → v ∈ viewers room.
Proof.
  unfold room_without. destruct (_ && _); [done|].
  destruct (bool_decide (r = Some Viewer)); [|done]. simpl.
  unfold set_delete. rewrite list_elem_of_filter. naive_solver.
Qed.

(** The detach of a connection that has not closed. *)
Lemma removeSocketFromRoom_live s w r od d :
  Inv s → conn s w = Some (r, od) →
  rooms (removeSocketFromRoom w s) !! d =
    (if bool_decide (od = Some d)
     then room ← rooms s !! d;
          let room' := room_without w r room in
          if room_empty room' then None else Some room'
     else rooms s !! d)
  ∧ latestTelemetry (removeSocketFromRoom w s) !! d =
    (if bool_decide (od = Some d)
     then match rooms s !! d with
          | Some room =>
              if room_empty (room_without w r room) then None
              else latestTelemetry s !! d
          | None => latestTelemetry s !! d
          end
     else latestTelemetry s !! d).
Proof.
  intros I C. pose proof C as C'.
  apply conn_Some in C' as (sock & Hs & _ & <- & <-).
  rewrite removeSocketFromRoom_rooms, removeSocketFromRoom_latest, Hs.
  destruct (decide (deviceId (meta sock) = Some d)) as [E|E].
  - rewrite E in C. pose proof (inv_device s I w _ d C).
    rewrite E. by rewrite !bool_decide_eq_true_2 by done.
  - rewrite (bool_decide_eq_false_2 (deviceId (meta sock) = Some d)) by done.
    by rewrite bool_decide_eq_false_2 by naive_solver.
Qed.

(** After the detach the connection sits in no room. *)
Lemma removeSocketFromRoom_not_member s w r od d room :
  Inv s → conn s w = Some (r, od) →
  rooms (removeSocketFromRoom w s) !! d = Some room →
  driver room ≠ Some w ∧ w ∉ viewers room.
Proof.
  intros I C.
  destruct (removeSocketFromRoom_live s w r od d I C) as [-> _].
  case_bool_decide as E.
  - destruct (rooms s !! d) as [room0|] eqn:R0; simpl; [|done].
    destruct (room_empty _); [done|]. intros [= <-].
    assert (Hd : driver room0 = Some w → r = Some Driver).
    { intros D. pose proof (inv_driver s I d room0 w R0 D). congruence. }
    assert (Hv : w ∈ viewers room0 → r = Some Viewer).
    { intros V. pose proof (inv_viewer s I d room0 w R0 V). congruence. }
    unfold room_without.
    destruct (decide (r = Some Driver)) as [->|Hr].
    + rewrite (bool_decide_eq_true_2 (Some Driver = Some Driver)) by done. simpl.
      case_bool_decide as D; simpl.
      * split; [done|]. intros V. by apply Hv in V.
      * split; [done|]. intros V. by apply Hv in V.
    + rewrite (bool_decide_eq_false_2 (r = Some Driver)) by done. simpl.
      case_bool_decide as Hr'; simpl.
      * split; [naive_solver|]. unfold set_delete.
        rewrite list_elem_of_filter. naive_solver.
      * split; [naive_solver|]. intros V. by apply Hv in V.
  - intros R0. split.
    + intros D. pose proof (inv_driver s I d room w R0 D). congruence.
    + intros V. pose proof (inv_viewer s I d room w R0 V). congruence.
Qed.

Lemma removeSocketFromRoom_Inv s w r od :
  Inv s → conn s w = Some (r, od) → Inv (removeSocketFromRoom w s).
Proof.
  intros I C.
  assert (Cs : ∀ x, conn (removeSocketFromRoom w s) x = conn s x)
    by (apply conn_sockets, removeSocketFromRoom_sockets).
  split.
  - intros d snap H.
    destruct (removeSocketFromRoom_live s w r od d I C) as [Rd Ld].
    rewrite Rd. rewrite Ld in H. clear Rd Ld.
    assert (H0 : latestTelemetry s !! d = Some snap).
    { destruct (bool_decide (od = Some d)); [|done].
      destruct (rooms s !! d) as [room|]; [|done].
      by destruct (room_empty _). }
    destruct (inv_snapshot s I d snap H0) as ([room R] & w' & r' & C').
    split; [|exists w', r'; by rewrite Cs].
    rewrite R in *. simpl.
    destruct (bool_decide (od = Some d)); [|eauto].
    destruct (room_empty _); [done|eauto].
  - intros d room x R D. rewrite Cs.
    destruct (removeSocketFromRoom_live s w r od d I C) as [Rd _].
    rewrite Rd in R. clear Rd.
    destruct (bool_decide (od = Some d)); [|by apply (inv_driver s I d room)].
    destruct (rooms s !! d) as [room0|] eqn:R0; simpl in R; [|done].
    destruct (room_empty _); [done|]. injection R as <-.
    apply room_without_driver in D. by apply (inv_driver s I d room0).
  - intros d room v R V. rewrite Cs.
    destruct (removeSocketFromRoom_live s w r od d I C) as [Rd _].
    rewrite Rd in R. clear Rd.
    destruct (bool_decide (od = Some d)); [|by apply (inv_viewer s I d room)].
    destruct (rooms s !! d) as [room0|] eqn:R0; simpl in R; [|done].
    destruct (room_empty _); [done|]. injection R as <-.
    apply room_without_viewers in V. by apply (inv_viewer s I d room0).
  - intros x r' d. rewrite Cs. apply (inv_device s I).
Qed.

(** A snapshot that survives the detach has a connection other than the
    detached one bound to its device. *)
Lemma removeSocketFromRoom_snapshot_other s w r od d snap :
  Inv s → conn s w = Some (r, od) →
  latestTelemetry (removeSocketFromRoom w s) !! d = Some snap →
  ∃ w' r', w' ≠ w ∧ conn s w' = Some (r', Some d).
Proof.
  intros I C H.
  pose proof (removeSocketFromRoom_Inv s w r od I C) as I'.
  destruct (inv_snapshot _ I' d snap H) as ([room R] & w' & r' & C').
  rewrite (conn_sockets s) in C' by apply removeSocketFromRoom_sockets.
  destruct (decide (od = Some d)) as [->|E].
  - destruct (removeSocketFromRoom_not_member s w r _ d room I C R) as [Nd Nv].
    destruct (removeSocketFromRoom_live s w r (Some d) d I C) as [Rd Ld].
    rewrite Rd in R. rewrite Ld in H. clear Rd Ld.
    rewrite bool_decide_eq_true_2 in R, H by done.
    destruct (rooms s !! d) as [room0|] eqn:R0; simpl in R; [|done].
    destruct (room_empty (room_without w r room0)) eqn:Em; [done|].
    injection R as <-.
    unfold room_empty in Em. apply andb_false_iff in Em as [Em|Em];
      apply bool_decide_eq_false in Em.
    + destruct (driver (room_without w r room0)) as [x|] eqn:D; [|done].
      exists x, (Some Driver). split; [congruence|].
      apply room_without_driver in D. by apply (inv_driver s I d room0).
    + destruct (viewers (room_without w r room0)) as [|v vs] eqn:V; [done|].
      assert (Hin : v ∈ viewers (room_without w r room0)) by (rewrite V; by left).
      exists v, (Some Viewer). split.
      * intros ->. apply Nv. by rewrite V in Hin.
      * apply room_without_viewers in Hin. by apply (inv_viewer s I d room0).
  - exists w', r'. split; [|done]. intros ->. congruence.
Qed.

Lemma assign_rooms ws d r s d' :
  rooms (assignSocketToRoom ws d r s).1 !! d' =
  if decide (d' = d)
  then Some (seated ws r (room_at d (removeSocketFromRoom ws s)))
  else rooms (removeSocketFromRoom ws s) !! d'.
Proof.
  assert (E : rooms (assignSocketToRoom ws d r s).1
              = <[d := seated ws r (room_at d (removeSocketFromRoom ws s))]>
                  (rooms (ensureRoom d (removeSocketFromRoom ws s)))).
  { unfold assignSocketToRoom. rewrite room_at_ensureRoom. destruct r; simpl.
    - destruct (driver _) as [p|]; [case_bool_decide|]; done.
    - by destruct (latestTelemetry _ !! d). }
  rewrite E. destruct (decide (d' = d)) as [->|Hne].
  - by rewrite lookup_insert_eq.
  - rewrite lookup_insert_ne by done. by apply ensureRoom_other.
Qed.

Lemma assign_latest ws d r s :
  latestTelemetry (assignSocketToRoom ws d r s).1
  = latestTelemetry (removeSocketFromRoom ws s).
Proof.
  destruct r.
  - by destruct (assign_driver_unfold ws d s) as (_ & _ & -> & _).
  - by destruct (assign_viewer_unfold ws d s) as (_ & _ & ->).
Qed.

Lemma conn_alter_readyState s p f w :
  (∀ sock, meta (f sock) = meta sock) →
  (∀ sock, readyState (f sock) = CLOSED ↔ readyState sock = CLOSED) →
  conn (set_sockets (alter f p) s) w = conn s w.
Proof.
  intros Hm Hr. unfold conn. simpl.
  destruct (decide (p = w)) as [->|Hne].
  - rewrite lookup_alter_eq. destruct (sockets s !! w) as [sock|]; simpl; [|done].
    rewrite Hm. by rewrite (bool_decide_ext _ _ (Hr sock)).
  - by rewrite lookup_alter_ne.
Qed.

Lemma conn_bind_meta s ws d r w :
  conn (bind_meta ws d r s) w =
  if decide (w = ws) then (λ _, (Some r, Some d)) <$> conn s ws else conn s w.
Proof.
  unfold conn, bind_meta. simpl. destruct (decide (w = ws)) as [->|Hne].
  - rewrite lookup_alter_eq. destruct (sockets s !! ws) as [sock|]; simpl; [|done].
    by destruct (bool_decide _).
  - by rewrite lookup_alter_ne.
Qed.

Lemma assign_conn ws d r s w :
  conn (assignSocketToRoom ws d r s).1 w =
  if decide (w = ws) then (λ _, (Some r, Some d)) <$> conn s ws else conn s w.
Proof.
  assert (B : conn (bind_meta ws d r (ensureRoom d (removeSocketFromRoom ws s))) w
              = if decide (w = ws) then (λ _, (Some r, Some d)) <$> conn s ws
                else conn s w).
  { rewrite conn_bind_meta.
    assert (S : sockets (ensureRoom d (removeSocketFromRoom ws s)) = sockets s).
    { destruct (ensureRoom_frame d (removeSocketFromRoom ws s)) as (-> & _).
      apply removeSocketFromRoom_sockets. }
    by rewrite !(conn_sockets _ _ S). }
  rewrite <- B. unfold assignSocketToRoom. destruct r.
  - destruct (driver _) as [p|]; [case_bool_decide|]; simpl; try done.
    apply (conn_alter_readyState
             (bind_meta ws d Driver (ensureRoom d (removeSocketFromRoom ws s)))).
    + done.
    + intros sock. simpl. case_bool_decide as O; [|done].
      split; [done|]. rewrite O. done.
  - destruct (latestTelemetry _ !! d); done.
Qed.

Lemma set_add_elem w v l : v ∈ set_add w l ↔ v = w ∨ v ∈ l.
Proof.
  unfold set_add. case_bool_decide.
  - split; [by right|]. by intros [->|?].
  - rewrite elem_of_app, list_elem_of_singleton. naive_solver.
Qed.

Lemma room_at_member s d x :
  (driver (room_at d s) = Some x → ∃ room, rooms s !! d = Some room ∧ driver room = Some x)
  ∧ (x ∈ viewers (room_at d s) → ∃ room, rooms s !! d = Some room ∧ x ∈ viewers room).
Proof.
  unfold room_at. destruct (rooms s !! d) as [room|]; simpl.
  - split; intros H; exists room; by split.
  - split; [done|]. by intros ?%not_elem_of_nil.
Qed.

(** The assignment of a connection that has not closed keeps the
    invariant. *)
Lemma assign_Inv s ws r0 od d r :
  Inv s → conn s ws = Some (r0, od) → d ≠ "" →
  Inv (assignSocketToRoom ws d r s).1.
Proof.
  intros I C Hd.
  pose proof (removeSocketFromRoom_Inv s ws r0 od I C) as I1.
  assert (C1 : ∀ x, conn (removeSocketFromRoom ws s) x = conn s x)
    by (apply conn_sockets, removeSocketFromRoom_sockets).
  assert (Cw : conn (assignSocketToRoom ws d r s).1 ws = Some (Some r, Some d)).
  { rewrite assign_conn. rewrite decide_True by done. by rewrite C. }
  assert (Co : ∀ x, x ≠ ws → conn (assignSocketToRoom ws d r s).1 x = conn s x).
  { intros x Hx. rewrite assign_conn. by rewrite decide_False. }
  assert (Old : ∀ x d' room, rooms (removeSocketFromRoom ws s) !! d' = Some room →
                  (driver room = Some x →
                   conn (assignSocketToRoom ws d r s).1 x = Some (Some Driver, Some d'))
                  ∧ (x ∈ viewers room →
                     conn (assignSocketToRoom ws d r s).1 x = Some (Some Viewer, Some d'))).
  { intros x d' room R.
    destruct (removeSocketFromRoom_not_member s ws r0 od d' room I C R) as [Nd Nv].
    split; intros M.
    - rewrite Co by congruence. rewrite <- C1. by apply (inv_driver _ I1 d' room).
    - rewrite Co by (intros ->; done). rewrite <- C1.
      by apply (inv_viewer _ I1 d' room). }
  split.
  - intros d' snap. rewrite assign_latest, assign_rooms. intros H.
    destruct (removeSocketFromRoom_snapshot_other s ws r0 od d' snap I C H)
      as (w' & r' & Hne & C').
    split.
    + destruct (decide (d' = d)); [eauto|]. by apply (inv_snapshot _ I1 d' snap).
    + exists w', r'. by rewrite Co.
  - intros d' room x. rewrite assign_rooms.
    destruct (decide (d' = d)) as [->|Hne]; [|intros R; by apply (Old x d' room)].
    intros [= <-]. destruct r; simpl.
    + by intros [= <-].
    + intros D. apply room_at_member in D as (room & R & D).
      by apply (Old x d room).
  - intros d' room v. rewrite assign_rooms.
    destruct (decide (d' = d)) as [->|Hne]; [|intros R; by apply (Old v d' room)].
    intros [= <-]. destruct r; simpl.
    + intros V. apply room_at_member in V as (room & R & V).
      by apply (Old v d room).
    + rewrite set_add_elem. intros [->|V]; [done|].
      apply room_at_member in V as (room & R & V). by apply (Old v d room).
  - intros x r' d'. destruct (decide (x = ws)) as [->|Hne].
    + rewrite Cw. by intros [= <- <-].
    + rewrite Co by done. apply (inv_device s I).
Qed.

Lemma trim_nonempty d : trim d ≠ "" → d ≠ "".
Proof. by intros H ->. Qed.

Lemma on_hello_Inv s ws msg :
  Inv s → live s ws → Inv (on_hello ws msg s).1.
Proof.
  intros I [c C]%live_conn. destruct c as [r0 od].
  destruct (validateHello msg) as [e|] eqn:V.
  { unfold on_hello. by rewrite V. }
  pose proof V as V'. apply validateHello_ok in V' as (_ & _ & [r Er] & d & Ed & Hd).
  destruct (on_hello_accepted ws msg s d r V Ed Er) as (s' & ack & E & _ & R & L & S).
  rewrite E. simpl.
  apply (Inv_ext (assignSocketToRoom ws d r s).1); [done|done|by apply conn_sockets|].
  apply (assign_Inv s ws r0 od); [done|done|by apply trim_nonempty].
Qed.

Lemma consumeRateToken_meta now m :
  role (consumeRateToken now m).2 = role m
  ∧ deviceId (consumeRateToken now m).2 = deviceId m.
Proof. by rewrite consumeRateToken_spec. Qed.

Lemma conn_insert_same s ws sock m' w :
  sockets s !! ws = Some sock →
  role m' = role (meta sock) → deviceId m' = deviceId (meta sock) →
  conn (set_sockets <[ws := {| meta := m'; readyState := readyState sock |}]> s) w
  = conn s w.
Proof.
  intros Hs Hr Hd. unfold conn. simpl. destruct (decide (ws = w)) as [->|Hne].
  - rewrite lookup_insert_eq, Hs. simpl. by rewrite Hr, Hd.
  - by rewrite lookup_insert_ne.
Qed.

Lemma relay_telemetry_frame msg d s :
  rooms (relay_telemetry msg d s).1 = rooms (ensureRoom d s)
  ∧ (∃ payload, latestTelemetry (relay_telemetry msg d s).1
                = <[d := payload]> (latestTelemetry s))
  ∧ sockets (relay_telemetry msg d s).1 = sockets s.
Proof.
  unfold relay_telemetry. lazy zeta. cbn [fst].
  set (s1 := if nonempty (trimmed (get msg "displayName"))
             then set_names <[d := trimmed (get msg "displayName")]> s else s).
  set (s2 := merge_route d _ _ s1).
  set (p := telemetry_payload _ _ _ _ _).
  assert (F1 : rooms s1 = rooms s ∧ latestTelemetry s1 = latestTelemetry s
               ∧ sockets s1 = sockets s)
    by (subst s1; by destruct (nonempty _)).
  assert (F2 : rooms s2 = rooms s ∧ latestTelemetry s2 = latestTelemetry s
               ∧ sockets s2 = sockets s).
  { subst s2. destruct F1 as (<- & <- & <-).
    rewrite merge_route_sockets.
    by destruct (merge_route_rooms d (trimmed (get msg "routeId"))
                   (trimmed (get msg "direction")) s1) as (-> & -> & _). }
  clearbody s1 s2 p. destruct F2 as (R & L & S).
  unfold ensureRoom. simpl. rewrite R.
  destruct (rooms s !! d); simpl; rewrite ?R, ?L, ?S; eauto.
Qed.

Lemma relay_telemetry_Inv msg d s ws :
  Inv s → conn s ws = Some (Some Driver, Some d) →
  Inv (relay_telemetry msg d s).1.
Proof.
  intros I C.
  destruct (relay_telemetry_frame msg d s) as (R & [payload L] & S).
  pose proof (conn_sockets _ _ S) as Cs.
  split.
  - intros d' snap. rewrite R, L.
    destruct (decide (d' = d)) as [->|Hne].
    + intros _. rewrite ensureRoom_lookup. split; [eauto|].
      exists ws, (Some Driver). by rewrite Cs.
    + rewrite lookup_insert_ne by done. rewrite ensureRoom_other by done.
      intros H. destruct (inv_snapshot s I d' snap H) as (? & w' & r' & ?).
      split; [done|]. exists w', r'. by rewrite Cs.
  - intros d' room x. rewrite R, Cs.
    destruct (decide (d' = d)) as [->|Hne].
    + rewrite ensureRoom_lookup. intros [= <-] D.
      apply room_at_member in D as (room & R0 & D). by apply (inv_driver s I d room).
    + rewrite ensureRoom_other by done. apply (inv_driver s I).
  - intros d' room v. rewrite R, Cs.
    destruct (decide (d' = d)) as [->|Hne].
    + rewrite ensureRoom_lookup. intros [= <-] V.
      apply room_at_member in V as (room & R0 & V). by apply (inv_viewer s I d room).
    + rewrite ensureRoom_other by done. apply (inv_viewer s I).
  - intros x r' d'. rewrite Cs. apply (inv_device s I).
Qed.

Lemma on_telemetry_Inv s ws msg now :
  Inv s → live s ws → Inv (on_telemetry ws msg now s).1.
Proof.
  intros I Lv. unfold on_telemetry.
  destruct (sockets s !! ws) as [sock|] eqn:Hs; [|done].
  case_bool_decide as Hr; simpl; [|done].
  destruct (validateTelemetry msg); [done|].
  destruct (as_string _) as [d|]; [|done].
  case_bool_decide as Hd; simpl; [|done].
  destruct (consumeRateToken_meta now (meta sock)) as [Mr Md].
  destruct (consumeRateToken now (meta sock)) as [ok m']. simpl in Mr, Md.
  assert (Cs : ∀ w, conn (set_sockets
                 <[ws := {| meta := m'; readyState := readyState sock |}]> s) w
               = conn s w)
    by (intros w; by apply conn_insert_same).
  assert (I1 : Inv (set_sockets
                      <[ws := {| meta := m'; readyState := readyState sock |}]> s))
    by (by apply (Inv_ext s)).
  destruct ok; [|exact I1].
  apply (relay_telemetry_Inv msg d
           (set_sockets <[ws := {| meta := m'; readyState := readyState sock |}]> s)
           ws); [exact I1|].
  rewrite Cs. apply conn_Some. exists sock.
  destruct Lv as (sock' & Hs' & Hl). rewrite Hs in Hs'. injection Hs' as <-. done.
Qed.

Lemma on_message_Inv s ws raw now :
  Inv s → live s ws → Inv (on_message ws raw now s).1.
Proof.
  intros I Lv. unfold on_message. destruct raw as [msg|]; [|done].
  destruct (negb (is_object msg)); [done|].
  destruct (str_is (get msg "type") "hello"); [by apply on_hello_Inv|].
  destruct (str_is (get msg "type") "telemetry"); [by apply on_telemetry_Inv|done].
Qed.

Lemma on_connection_Inv s ws :
  Inv s → sockets s !! ws = None → Inv (on_connection ws s).
Proof.
  intros I Hs.
  assert (C : ∀ w, w ≠ ws → conn (on_connection ws s) w = conn s w).
  { intros w Hne. unfold conn. simpl. by rewrite lookup_insert_ne. }
  assert (N : conn s ws = None) by (unfold conn; by rewrite Hs).
  assert (Cw : conn (on_connection ws s) ws = Some (None, None)).
  { unfold conn. simpl. by rewrite lookup_insert_eq. }
  assert (K : ∀ w c, conn s w = Some c → conn (on_connection ws s) w = Some c).
  { intros w c H. rewrite C; [done|]. intros ->. congruence. }
  split.
  - intros d snap H. destruct (inv_snapshot s I d snap H) as (? & w' & r' & ?).
    split; [done|]. exists w', r'. by apply K.
  - intros d room x R D. apply K. by apply (inv_driver s I d room).
  - intros d room v R V. apply K. by apply (inv_viewer s I d room).
  - intros w r d. destruct (decide (w = ws)) as [->|Hne].
    + by rewrite Cw.
    + rewrite C by done. apply (inv_device s I).
Qed.

Lemma on_close_Inv s ws : Inv s → live s ws → Inv (on_close ws s).
Proof.
  intros I [c C]%live_conn. destruct c as [r0 od].
  pose proof (removeSocketFromRoom_Inv s ws r0 od I C) as I1.
  assert (C1 : ∀ x, conn (removeSocketFromRoom ws s) x = conn s x)
    by (apply conn_sockets, removeSocketFromRoom_sockets).
  assert (Co : ∀ x, x ≠ ws → conn (on_close ws s) x = conn s x).
  { intros x Hx. unfold on_close, conn. simpl. rewrite lookup_alter_ne by done.
    by rewrite removeSocketFromRoom_sockets. }
  assert (Cw : conn (on_close ws s) ws = None).
  { unfold on_close, conn. simpl. rewrite lookup_alter_eq.
    by destruct (sockets _ !! ws). }
  split.
  - intros d snap H. change (latestTelemetry (removeSocketFromRoom ws s) !! d = Some snap) in H.
    destruct (removeSocketFromRoom_snapshot_other s ws r0 od d snap I C H)
      as (w' & r' & Hne & C').
    split; [by apply (inv_snapshot _ I1 d snap)|].
    exists w', r'. by rewrite Co.
  - intros d room x R D. change (rooms (removeSocketFromRoom ws s) !! d = Some room) in R.
    destruct (removeSocketFromRoom_not_member s ws r0 od d room I C R) as [Nd Nv].
    rewrite Co by congruence. rewrite <- C1. by apply (inv_driver _ I1 d room).
  - intros d room v R V. change (rooms (removeSocketFromRoom ws s) !! d = Some room) in R.
    destruct (removeSocketFromRoom_not_member s ws r0 od d room I C R) as [Nd Nv].
    rewrite Co by (intros ->; done). rewrite <- C1. by apply (inv_viewer _ I1 d room).
  - intros x r' d. destruct (decide (x = ws)) as [->|Hne].
    + by rewrite Cw.
    + rewrite Co by done. apply (inv_device s I).
Qed.

Lemma Inv_init : Inv init.
Proof.
  split; simpl.
  - intros d snap. by rewrite lookup_empty.
  - intros d room x. by rewrite lookup_empty.
  - intros d room v. by rewrite lookup_empty.
  - intros w r d. unfold conn. simpl. by rewrite lookup_empty.
Qed.

Lemma reachable_Inv s : reachable s → Inv s.
Proof.
  induction 1 as [|s e _ IH En]; [apply Inv_init|].
  destruct e as [ws|ws raw now|ws|ws]; simpl in *.
  - by apply on_connection_Inv.
  - by apply on_message_Inv.
  - apply live_conn in En as [[r0 od] C].
    by apply (removeSocketFromRoom_Inv s ws r0 od).
  - by apply on_close_Inv.
Qed.

Lemma enabledb_enabled s e : enabledb s e = true → enabled s e.
Proof.
  destruct e; simpl; rewrite bool_decide_eq_true; try done; by rewrite live_conn.
Qed.

Lemma reachable_run es s :
  reachable s → run_enabled es s = true → reachable (run es s).1.
Proof.
  revert s. induction es as [|e es IH]; intros s Hs; simpl; [done|].
  intros [He Hes]%andb_true_iff.
  pose proof (IH (handle e s).1 (reach_step s e Hs (enabledb_enabled _ _ He)) Hes) as H.
  destruct (handle e s) as [s1 o1]. simpl in *.
  by destruct (run es s1) as [s2 o2].
Qed.

Lemma removeSocketFromRoom_latest_None ws s d :
  latestTelemetry s !! d = None →
  latestTelemetry (removeSocketFromRoom ws s) !! d = None.
Proof.
  intros H. rewrite removeSocketFromRoom_latest.
  destruct (sockets s !! ws) as [sock|]; [|done].
  destruct (bool_decide _); [|done].
  destruct (rooms s !! d) as [room|]; [|done].
  by destruct (room_empty _).
Qed.

(** C7: when a detach leaves the room of the connection with no driver
    and no viewer, the room and the snapshot of its device are both
    deleted, by [removeSocketFromRoom] and so by the ["close"] handler.
    Consequently, in every reachable state in which no connection that has
    not closed is bound to a device, no snapshot is stored for that device,
    and a viewer hello for it is answered with the hello-ack alone. *)
Theorem room_and_snapshot_purged s d :
  reachable s →
  (∀ w sock, sockets s !! w = Some sock → readyState sock ≠ CLOSED →
             deviceId (meta sock) ≠ Some d) →
  latestTelemetry s !! d = None
  ∧ (∀ ws sock msg now,
       sockets s !! ws = Some sock →
       readyState sock = OPEN →
       str_is (get msg "type") "hello" = true →
       validateHello msg = None →
       role_of (get msg "role") = Some Viewer →
       as_string (get msg "deviceId") = Some d →
       ∃ s' ack, on_message ws (Some msg) now s = (s', [Send ws ack])
                 ∧ assoc "type" ack = Some (JStr "hello-ack"))
  ∧ (∀ s0 ws sock room,
       sockets s0 !! ws = Some sock →
       deviceId (meta sock) = Some d →
       d ≠ "" →
       rooms s0 !! d = Some room →
       room_empty (room_without ws (role (meta sock)) room) = true →
       rooms (removeSocketFromRoom ws s0) !! d = None
       ∧ latestTelemetry (removeSocketFromRoom ws s0) !! d = None
       ∧ rooms (on_close ws s0) !! d = None
       ∧ latestTelemetry (on_close ws s0) !! d = None).
Proof.
  intros Hr Hn.
  assert (L : latestTelemetry s !! d = None).
  { destruct (latestTelemetry s !! d) as [snap|] eqn:E; [exfalso|done].
    destruct (inv_snapshot s (reachable_Inv s Hr) d snap E) as (_ & w & r & C).
    apply conn_Some in C as (sock & Hs & Hl & _ & Hd). by apply (Hn w sock). }
  split; [exact L|]. split.
  - intros ws sock msg now Hs Ho T V Er Ed.
    rewrite (on_message_hello _ _ _ _ T).
    destruct (on_hello_accepted ws msg s d Viewer V Ed Er)
      as (s' & ack & E & Eack & _).
    destruct (assign_viewer_unfold ws d s) as (_ & O & _).
    rewrite (removeSocketFromRoom_latest_None _ _ _ L) in O.
    rewrite E, O, (sendJson_open _ _ _ _ Hs Ho). simpl.
    exists s', ack. split; [done|]. by rewrite Eack.
  - intros s0 ws sock room Hs Hd Hne R Em.
    assert (A : rooms (removeSocketFromRoom ws s0) !! d = None
                ∧ latestTelemetry (removeSocketFromRoom ws s0) !! d = None).
    { rewrite removeSocketFromRoom_rooms, removeSocketFromRoom_latest, Hs, R.
      rewrite !bool_decide_eq_true_2 by done. simpl. by rewrite Em. }
    destruct A as [A1 A2]. repeat split; done.
Qed.

Lemma room_and_snapshot_purged_witness :
  is_Some (latestTelemetry driver_state !! "bus-1")
  ∧ latestTelemetry after_driver_state !! "bus-1" = None
  ∧ ∃ s' ack,
      on_message 2 (Some (hello_msg "viewer" "bus-1" [])) 30 after_driver_state
      = (s', [Send 2 ack]).
Proof.
  destruct (room_and_snapshot_purged after_driver_state "bus-1") as (A & B & _).
  - apply (reachable_run after_driver_trace init reach_init).
    vm_compute. reflexivity.
  - intros w sock Hs Hl Hd. apply elem_of_map_to_list in Hs.
    remember (map_to_list (sockets after_driver_state)) as l eqn:El.
    vm_compute in El. subst l.
    apply elem_of_cons in Hs as [Hs|Hs];
      [|apply list_elem_of_singleton in Hs];
      injection Hs as -> ->; simpl in *; congruence.
  - split; [vm_compute; eauto|]. split; [exact A|].
    destruct (B 2 {| meta := {| role := None; deviceId := None; rate := None |};
                     readyState := OPEN |}
                (hello_msg "viewer" "bus-1" []) 30%Z) as (s' & ack & E & _).
    + vm_compute. reflexivity.
    + reflexivity.
    + vm_compute. reflexivity.
    + vm_compute. reflexivity.
    + vm_compute. reflexivity.
    + vm_compute. reflexivity.
    + exists s', ack. exact E.
Defined.

(** ** The driver slot *)

(** The connection whose slot is taken stays in the store with the
    metadata it had; its socket, if it was open, is closing. *)
Lemma assign_driver_socket_other ws d s room p :
  rooms s !! d = Some room → driver room = Some p → p ≠ ws →
  sockets (assignSocketToRoom ws d Driver s).1 !! p
  = (λ sock, {| meta := meta sock;
                readyState := if bool_decide (readyState sock = OPEN) then CLOSING
                              else readyState sock |}) <$> sockets s !! p.
Proof.
  intros R D Hne.
  destruct (removeSocketFromRoom_other_driver ws s d room p R D Hne)
    as [[room1 [R1 D1]] _].
  assert (S : sockets (ensureRoom d (removeSocketFromRoom ws s)) = sockets s).
  { destruct (ensureRoom_frame d (removeSocketFromRoom ws s)) as (-> & _).
    apply removeSocketFromRoom_sockets. }
  unfold assignSocketToRoom. rewrite room_at_ensureRoom.
  unfold room_at. rewrite R1. simpl. rewrite D1.
  rewrite bool_decide_eq_true_2 by done. simpl.
  rewrite lookup_alter_eq, lookup_alter_ne by done. by rewrite S.
Qed.




(** * Further properties of the relay *)

(** ** The validators *)

Lemma not_number_false v : not_number v = false ↔ ∃ q, v = Some (JNum q).
Proof.
  destruct v as [[]|]; simpl; split; try done; try (by intros [? ?]); eauto.
Qed.

Lemma optional_number v :
  bool_decide (is_Some v) && not_number v = false ↔
  v = None ∨ ∃ q, v = Some (JNum q).
Proof.
  destruct v as [j|].
  - rewrite bool_decide_eq_true_2 by eauto. rewrite andb_true_l, not_number_false.
    naive_solver.
  - simpl. naive_solver.
Qed.

(** X1: [validateTelemetry] accepts exactly the objects whose type is
    ["telemetry"], whose deviceId is a string that is not blank, whose lat,
    lng and ts are numbers and whose speed and heading are absent or
    numbers.  A rejection carries one of eight reasons. *)
Theorem validateTelemetry_accepts_iff msg :
  (validateTelemetry msg = None ↔
   as_string (get msg "type") = Some "telemetry"
   ∧ (∃ d, as_string (get msg "deviceId") = Some d ∧ trim d ≠ "")
   ∧ (∃ lat lng ts, get msg "lat" = Some (JNum lat)
                    ∧ get msg "lng" = Some (JNum lng)
                    ∧ get msg "ts" = Some (JNum ts))
   ∧ (get msg "speed" = None ∨ ∃ q, get msg "speed" = Some (JNum q))
   ∧ (get msg "heading" = None ∨ ∃ q, get msg "heading" = Some (JNum q)))
  ∧ (∀ e, validateTelemetry msg = Some e →
       e ∈ ["Payload must be object";
            "Expected type " +:+ dquote +:+ "telemetry" +:+ dquote;
            "deviceId required"; "lat must be number"; "lng must be number";
            "ts must be number"; "speed must be number"; "heading must be number"]).
Proof.
  split.
  - unfold validateTelemetry.
    destruct (is_object msg) eqn:O; simpl.
    2:{ split; [done|]. intros (T & _). destruct msg; done. }
    destruct (str_is (get msg "type") "telemetry") eqn:T; simpl.
    2:{ split; [done|]. intros (T' & _). apply str_is_true in T'. congruence. }
    apply str_is_true in T.
    destruct (nonempty (trimmed (get msg "deviceId"))) eqn:D; simpl.
    2:{ split; [done|]. intros (_ & (d & Ed & Hd) & _).
        unfold trimmed in D. rewrite Ed in D. by apply nonempty_false in D. }
    assert (D' : ∃ d, as_string (get msg "deviceId") = Some d ∧ trim d ≠ "").
    { unfold trimmed in D. destruct (as_string (get msg "deviceId")) as [d|]; [|done].
      apply nonempty_true in D. eauto. }
    destruct (not_number (get msg "lat")) eqn:N1.
    { split; [done|]. intros (_ & _ & (a & b & c & E & _) & _).
      rewrite E in N1. done. }
    destruct (not_number (get msg "lng")) eqn:N2.
    { split; [done|]. intros (_ & _ & (a & b & c & _ & E & _) & _).
      rewrite E in N2. done. }
    destruct (not_number (get msg "ts")) eqn:N3.
    { split; [done|]. intros (_ & _ & (a & b & c & _ & _ & E) & _).
      rewrite E in N3. done. }
    apply not_number_false in N1 as [lat N1], N2 as [lng N2], N3 as [ts N3].
    destruct (bool_decide (is_Some (get msg "speed")) && not_number (get msg "speed"))
      eqn:S1.
    { split; [done|]. intros (_ & _ & _ & S' & _).
      apply optional_number in S'. congruence. }
    destruct (bool_decide (is_Some (get msg "heading")) && not_number (get msg "heading"))
      eqn:S2.
    { split; [done|]. intros (_ & _ & _ & _ & S').
      apply optional_number in S'. congruence. }
    apply optional_number in S1, S2.
    split; [|done]. intros _. eauto 15.
  - intros e. unfold validateTelemetry.
    repeat (match goal with
            | |- context [if ?b then _ else _] => destruct b
            end; [intros [= <-]; set_solver|]).
    done.
Qed.

(** X2: [validateHello] accepts exactly the objects whose type is
    ["hello"], whose role is ["driver"] or ["viewer"] and whose deviceId is
    a string that is not blank; the reason of a rejection is that of the
    first of these checks that fails. *)
Theorem validateHello_accepts_iff msg :
  (validateHello msg = None ↔
   as_string (get msg "type") = Some "hello"
   ∧ (as_string (get msg "role") = Some "driver"
      ∨ as_string (get msg "role") = Some "viewer")
   ∧ ∃ d, as_string (get msg "deviceId") = Some d ∧ trim d ≠ "")
  ∧ (is_object msg = false → validateHello msg = Some "Payload must be object")
  ∧ (is_object msg = true → as_string (get msg "type") ≠ Some "hello" →
     validateHello msg = Some ("Expected type " +:+ dquote +:+ "hello" +:+ dquote))
  ∧ (as_string (get msg "type") = Some "hello" → role_of (get msg "role") = None →
     validateHello msg = Some "Role must be driver or viewer")
  ∧ (as_string (get msg "type") = Some "hello" → is_Some (role_of (get msg "role")) →
     (∀ d, as_string (get msg "deviceId") = Some d → trim d = "") →
     validateHello msg = Some "deviceId required").
Proof.
  assert (R : ∀ v, is_Some (role_of v) ↔
                as_string v = Some "driver" ∨ as_string v = Some "viewer").
  { intros v. unfold role_of. destruct (as_string v) as [r|].
    - repeat case_decide; subst; split; try (by eauto); try (by intros [? ?]);
        naive_solver.
    - split; [by intros [? ?]|naive_solver]. }
  split; [|split; [|split; [|split]]].
  - rewrite validateHello_ok, <- R, str_is_true. split.
    + naive_solver.
    + intros (T & Ro & D). split; [|naive_solver].
      destruct msg; done.
  - unfold validateHello. by intros ->.
  - unfold validateHello. intros -> T. simpl.
    destruct (str_is (get msg "type") "hello") eqn:E; [|done].
    by apply str_is_true in E.
  - unfold validateHello. intros T Ro.
    rewrite (str_is_object msg "type" "hello") by (by apply str_is_true).
    apply str_is_true in T. rewrite T, Ro. done.
  - unfold validateHello. intros T Ro D.
    rewrite (str_is_object msg "type" "hello") by (by apply str_is_true).
    apply str_is_true in T. rewrite T. simpl.
    rewrite bool_decide_eq_true_2 by done. simpl.
    destruct (as_string (get msg "deviceId")) as [d|]; [|done].
    by rewrite bool_decide_eq_true_2 by (by apply D).
Qed.

(** ** Rejected messages *)

(** X3: on an open socket, a frame that is not JSON, a payload that is not
    an object, a message of an unknown type and a driver's malformed
    telemetry are each answered with exactly one error frame naming the
    fault, and leave the relay state as it was. *)
Theorem rejected_message_single_error s ws sock now :
  sockets s !! ws = Some sock →
  readyState sock = OPEN →
  on_message ws None now s = (s, [Send ws (error_frame "Invalid JSON")])
  ∧ (∀ msg, is_object msg = false →
       on_message ws (Some msg) now s
       = (s, [Send ws (error_frame "Payload must be object")]))
  ∧ (∀ msg, is_object msg = true →
       as_string (get msg "type") ≠ Some "hello" →
       as_string (get msg "type") ≠ Some "telemetry" →
       on_message ws (Some msg) now s
       = (s, [Send ws (error_frame "Unsupported message type")]))
  ∧ (∀ msg e, as_string (get msg "type") = Some "telemetry" →
       role (meta sock) = Some Driver →
       validateTelemetry msg = Some e →
       on_message ws (Some msg) now s = (s, [Send ws (error_frame e)])).
Proof.
  intros Hs Ho. split; [|split; [|split]].
  - simpl. by rewrite (sendJson_open _ _ _ _ Hs Ho).
  - intros msg O. unfold on_message. rewrite O. simpl.
    by rewrite (sendJson_open _ _ _ _ Hs Ho).
  - intros msg O H T. unfold on_message. rewrite O. simpl.
    destruct (str_is (get msg "type") "hello") eqn:E1;
      [by apply str_is_true in E1|].
    destruct (str_is (get msg "type") "telemetry") eqn:E2;
      [by apply str_is_true in E2|].
    by rewrite (sendJson_open _ _ _ _ Hs Ho).
  - intros msg e T Hr V. apply str_is_true in T.
    rewrite (on_message_telemetry _ _ _ _ T). unfold on_telemetry.
    rewrite Hs, Hr, V. rewrite bool_decide_eq_true_2 by done. simpl.
    by rewrite (sendJson_open _ _ _ _ Hs Ho).
Qed.

Lemma rejected_message_single_error_witness :
  on_message 1 None 5 driver_state
  = (driver_state, [Send 1 (error_frame "Invalid JSON")])
  ∧ on_message 1 (Some (JObj [("type", JStr "telemetry"); ("deviceId", JStr "bus-1");
                              ("lat", JStr "north")])) 5 driver_state
    = (driver_state, [Send 1 (error_frame "lat must be number")]).
Proof.
  destruct (rejected_message_single_error driver_state 1
              {| meta := {| role := Some Driver; deviceId := Some "bus-1";
                            rate := Some {| tokens := 4; last := 10 |} |};
                 readyState := OPEN |} 5) as (A & _ & _ & B).
  - vm_compute. reflexivity.
  - reflexivity.
  - split; [exact A|]. apply B.
    + vm_compute. reflexivity.
    + reflexivity.
    + vm_compute. reflexivity.
Defined.

(** X4: the handler changes the relay state only for an accepted hello or
    for valid telemetry sent by the driver bound to the device the message
    names; every other message leaves the state as it was. *)
Theorem state_changes_only_when_accepted s ws raw now :
  (on_message ws raw now s).1 ≠ s →
  ∃ msg, raw = Some msg
    ∧ ((as_string (get msg "type") = Some "hello" ∧ validateHello msg = None)
       ∨ (as_string (get msg "type") = Some "telemetry"
          ∧ validateTelemetry msg = None
          ∧ ∃ sock d, sockets s !! ws = Some sock
                      ∧ role (meta sock) = Some Driver
                      ∧ deviceId (meta sock) = Some d
                      ∧ as_string (get msg "deviceId") = Some d)).
Proof.
  unfold on_message. destruct raw as [msg|]; [|done].
  destruct (negb (is_object msg)); [done|].
  destruct (str_is (get msg "type") "hello") eqn:E1.
  { apply str_is_true in E1. unfold on_hello.
    destruct (validateHello msg) eqn:V; [done|]. intros _. eauto. }
  destruct (str_is (get msg "type") "telemetry") eqn:E2; [|done].
  apply str_is_true in E2. unfold on_telemetry.
  destruct (sockets s !! ws) as [sock|] eqn:Hs; [|done].
  case_bool_decide as Hr; simpl; [|done].
  destruct (validateTelemetry msg) eqn:V; [done|].
  destruct (as_string (get msg "deviceId")) as [d|] eqn:Ed; [|done].
  case_bool_decide as Hd; simpl; [|done].
  intros _. exists msg. split; [done|]. right. eauto 10.
Qed.

Lemma state_changes_only_when_accepted_witness :
  ∃ msg, Some (hello_msg "viewer" "bus-1" []) = Some msg
    ∧ ((as_string (get msg "type") = Some "hello" ∧ validateHello msg = None)
       ∨ (as_string (get msg "type") = Some "telemetry"
          ∧ validateTelemetry msg = None
          ∧ ∃ sock d, sockets (on_connection 1 init) !! 1 = Some sock
                      ∧ role (meta sock) = Some Driver
                      ∧ deviceId (meta sock) = Some d
                      ∧ as_string (get msg "deviceId") = Some d)).
Proof.
  apply (state_changes_only_when_accepted (on_connection 1 init) 1 _ 0).
  intros E.
  assert (R : rooms (on_message 1 (Some (hello_msg "viewer" "bus-1" [])) 0
                       (on_connection 1 init)).1 !! "bus-1" = None)
    by (rewrite E; vm_compute; reflexivity).
  vm_compute in R. discriminate R.
Defined.

(** ** The relayed payload *)

Lemma assoc_app k (l1 l2 : obj) :
  assoc k (l1 ++ l2) = match assoc k l1 with Some v => Some v | None => assoc k l2 end.
Proof.
  induction l1 as [|[k' v] l1 IH]; simpl; [done|]. by case_decide.
Qed.

Lemma assoc_opt_json k k' v :
  assoc k (opt_json k' v) = if decide (k = k') then v else None.
Proof. destruct v; simpl; by case_decide. Qed.

Lemma assoc_opt_field k k' v :
  assoc k (opt_field k' v)
  = if decide (k = k') then (if truthy v then JStr <$> v else None) else None.
Proof.
  unfold opt_field. destruct (truthy v) eqn:T; simpl; [|by case_decide].
  destruct v; [|done]. simpl. by case_decide.
Qed.

(** The value of each property of the payload built at lines 186-215. *)
Lemma assoc_telemetry_payload k msg d name route dir :
  assoc k (telemetry_payload msg d name route dir) =
  if decide (k = "type") then Some (JStr "telemetry")
  else if decide (k = "deviceId") then Some (JStr d)
  else if decide (k = "lat") then get msg "lat"
  else if decide (k = "lng") then get msg "lng"
  else if decide (k = "ts") then get msg "ts"
  else if decide (k = "speed") then get msg "speed"
  else if decide (k = "heading") then get msg "heading"
  else if decide (k = "displayName") then (if truthy name then JStr <$> name else None)
  else if decide (k = "routeId") then (if truthy route then JStr <$> route else None)
  else if decide (k = "direction") then (if truthy dir then JStr <$> dir else None)
  else None.
Proof.
  unfold telemetry_payload. simpl.
  rewrite !assoc_app, !assoc_opt_json, !assoc_opt_field.
  repeat (case_decide; [subst; repeat (rewrite decide_False by done);
                        by repeat case_match|]).
  done.
Qed.

Lemma or_else_idem a b : or_else a (or_else a b) = or_else a b.
Proof. unfold or_else. by destruct (nonempty a). Qed.

(** The payload a relayed message stores, with its resolved metadata. *)
Lemma relay_telemetry_payload msg d s :
  latestTelemetry (relay_telemetry msg d s).1 !! d
  = Some (telemetry_payload msg d
            (or_else (trimmed (get msg "displayName")) (names s !! d))
            (or_else (trimmed (get msg "routeId")) (routeMeta s !! d ≫= routeId))
            (or_else (trimmed (get msg "direction")) (routeMeta s !! d ≫= direction))).
Proof.
  assert (Rm : ∀ f : route_t → option string,
            routeMeta (remember msg d s) !! d ≫= f
            = if nonempty (trimmed (get msg "routeId"))
                 || nonempty (trimmed (get msg "direction"))
              then f {| routeId := or_else (trimmed (get msg "routeId"))
                                     (routeMeta s !! d ≫= routeId);
                        direction := or_else (trimmed (get msg "direction"))
                                       (routeMeta s !! d ≫= direction) |}
              else routeMeta s !! d ≫= f).
  { intros f. rewrite remember_routeMeta. lazy zeta.
    destruct (_ || _); [|done]. by rewrite lookup_insert_eq. }
  assert (R1 : or_else (trimmed (get msg "routeId"))
                 (routeMeta (remember msg d s) !! d ≫= routeId)
               = or_else (trimmed (get msg "routeId")) (routeMeta s !! d ≫= routeId)).
  { rewrite Rm. destruct (_ || _); [apply or_else_idem|done]. }
  assert (R2 : or_else (trimmed (get msg "direction"))
                 (routeMeta (remember msg d s) !! d ≫= direction)
               = or_else (trimmed (get msg "direction"))
                   (routeMeta s !! d ≫= direction)).
  { rewrite Rm. destruct (_ || _); [apply or_else_idem|done]. }
  rewrite <- R1, <- R2.
  unfold relay_telemetry. lazy zeta. cbn [fst].
  unfold ensureRoom. destruct (rooms _ !! d); simpl; by rewrite lookup_insert_eq.
Qed.

(** X5: the payload stored and broadcast for an accepted telemetry message
    carries type ["telemetry"], the device id, and the message's own lat,
    lng, ts, speed and heading; besides these and displayName, routeId and
    direction it has no property, so nothing else a driver puts in the
    message is forwarded. *)
Theorem relayed_payload_fields msg d s :
  ∃ payload,
    latestTelemetry (relay_telemetry msg d s).1 !! d = Some payload
    ∧ (∀ e, e ∈ (relay_telemetry msg d s).2 → ∃ v, e = Send v payload)
    ∧ assoc "type" payload = Some (JStr "telemetry")
    ∧ assoc "deviceId" payload = Some (JStr d)
    ∧ (∀ k, k ∈ ["lat"; "lng"; "ts"; "speed"; "heading"] →
         assoc k payload = get msg k)
    ∧ (∀ k, k ∉ ["type"; "deviceId"; "lat"; "lng"; "ts"; "speed"; "heading";
                 "displayName"; "routeId"; "direction"] →
         assoc k payload = None).
Proof.
  destruct (relay_telemetry_stores msg d s) as (payload & St & B).
  exists payload. split; [done|]. split.
  { intros e He. rewrite B in He. destruct (broadcast_elem _ _ _ _ He) as (v & -> & _).
    eauto. }
  rewrite relay_telemetry_payload in St. injection St as <-.
  split; [by rewrite assoc_telemetry_payload|].
  split; [by rewrite assoc_telemetry_payload|]. split.
  - intros k Hk. rewrite assoc_telemetry_payload.
    repeat (apply elem_of_cons in Hk as [->|Hk]; [done|]).
    by apply not_elem_of_nil in Hk.
  - intros k Hk. rewrite assoc_telemetry_payload.
    rewrite !not_elem_of_cons in Hk.
    destruct Hk as (? & ? & ? & ? & ? & ? & ? & ? & ? & ? & _).
    by rewrite !decide_False by done.
Qed.

(** X6: in a state whose device memory holds only non-blank values, the
    displayName, routeId and direction of a relayed payload are the
    message's own trimmed values where it gives them and the remembered
    ones where it does not, and they are exactly what the device memory
    holds for the device after the message. *)
Theorem relayed_payload_matches_memory msg d s :
  mem_ok s →
  let s' := (relay_telemetry msg d s).1 in
  ∃ payload,
    latestTelemetry s' !! d = Some payload
    ∧ assoc "displayName" payload
      = JStr <$> or_else (trimmed (get msg "displayName")) (names s !! d)
    ∧ assoc "routeId" payload
      = JStr <$> or_else (trimmed (get msg "routeId")) (routeMeta s !! d ≫= routeId)
    ∧ assoc "direction" payload
      = JStr <$> or_else (trimmed (get msg "direction"))
                   (routeMeta s !! d ≫= direction)
    ∧ assoc "displayName" payload = JStr <$> names s' !! d
    ∧ assoc "routeId" payload = JStr <$> (routeMeta s' !! d ≫= routeId)
    ∧ assoc "direction" payload = JStr <$> (routeMeta s' !! d ≫= direction).
Proof.
  intros [Hn Hr] s'. subst s'.
  assert (T : ∀ a b, (∀ x, b = Some x → x ≠ "") →
                (if truthy (or_else a b) then JStr <$> or_else a b else None)
                = JStr <$> or_else a b).
  { intros a b Hb. unfold or_else. destruct (nonempty a) eqn:N; simpl; [by rewrite N|].
    destruct b as [x|]; simpl; [|done].
    by rewrite (proj2 (nonempty_true x)) by (by apply Hb). }
  assert (Cn : ∀ x, names s !! d = Some x → x ≠ "").
  { intros x Hx. by destruct (Hn d x Hx). }
  assert (Cr : ∀ x, routeMeta s !! d ≫= routeId = Some x → x ≠ "").
  { intros x Hx. destruct (routeMeta s !! d) as [m|] eqn:M; [|done].
    destruct (Hr d m M) as [H1 _]. by destruct (H1 x Hx). }
  assert (Cd : ∀ x, routeMeta s !! d ≫= direction = Some x → x ≠ "").
  { intros x Hx. destruct (routeMeta s !! d) as [m|] eqn:M; [|done].
    destruct (Hr d m M) as [_ H2]. by destruct (H2 x Hx). }
  eexists. split; [apply relay_telemetry_payload|].
  rewrite !assoc_telemetry_payload.
  repeat (rewrite decide_False by done). rewrite !decide_True by done.
  rewrite !T by done.
  destruct (relay_telemetry_memory msg d s) as [-> ->].
  rewrite remember_names, remember_routeMeta. lazy zeta.
  repeat split.
  - unfold or_else. destruct (nonempty _); [by rewrite lookup_insert_eq|done].
  - destruct (_ || _) eqn:E; [by rewrite lookup_insert_eq|].
    apply orb_false_iff in E as [E _]. unfold or_else. by rewrite E.
  - destruct (_ || _) eqn:E; [by rewrite lookup_insert_eq|].
    apply orb_false_iff in E as [_ E]. unfold or_else. by rewrite E.
Qed.

Lemma relayed_payload_matches_memory_witness :
  ∃ payload,
    latestTelemetry
      (relay_telemetry (telemetry_msg "bus-1" []) "bus-1" named_session_state).1
      !! "bus-1" = Some payload
    ∧ assoc "displayName" payload = Some (JStr "Bus A")
    ∧ assoc "routeId" payload = Some (JStr "R1").
Proof.
  destruct (relayed_payload_matches_memory (telemetry_msg "bus-1" []) "bus-1"
              named_session_state) as (payload & L & A & B & _).
  - apply reachable_mem_ok.
    apply (reachable_run named_session_trace init reach_init).
    vm_compute. reflexivity.
  - exists payload. split; [exact L|]. split.
    + rewrite A. vm_compute. reflexivity.
    + rewrite B. vm_compute. reflexivity.
Defined.

(** ** Fan-out *)

Lemma sendJson_is_open ws o s :
  sendJson ws o s = if is_open s ws then [Send ws o] else [].
Proof. unfold sendJson, is_open. by destruct (sockets s !! ws). Qed.

Lemma broadcast_filter vs o s :
  broadcast vs o s = (λ v, Send v o) <$> filter (λ v, is_open s v) vs.
Proof.
  unfold broadcast. induction vs as [|v vs IH]; [done|].
  simpl. rewrite sendJson_is_open, IH, filter_cons.
  destruct (is_open s v) eqn:E; case_decide as H; try done.
Qed.

Lemma is_open_sockets s s' : sockets s' = sockets s → is_open s' = is_open s.
Proof. unfold is_open. by intros ->. Qed.

(** The frames of a relayed message: one per open viewer of the room. *)
Lemma relay_telemetry_recipients msg d s :
  ∃ payload,
    latestTelemetry (relay_telemetry msg d s).1 !! d = Some payload
    ∧ (relay_telemetry msg d s).2
      = (λ v, Send v payload) <$> filter (λ v, is_open s v) (viewers (room_at d s)).
Proof.
  destruct (relay_telemetry_stores msg d s) as (payload & St & B).
  destruct (relay_telemetry_frame msg d s) as (R & _ & S).
  exists payload. split; [done|].
  rewrite B, broadcast_filter, (is_open_sockets _ _ S).
  unfold room_at at 1. rewrite R, ensureRoom_lookup. done.
Qed.

(** X7: an accepted telemetry message is sent, as the payload it stores,
    to exactly the viewers of the device's room whose socket is open, once
    each in the order they subscribed; a viewer whose socket is not open is
    skipped.  In a reachable state every frame a telemetry message causes
    is either an error frame to its sender or that payload to a viewer
    subscribed to the sender's own device: the sender never gets its
    telemetry back and viewers of other devices never see it. *)
Theorem telemetry_fan_out s ws msg now :
  reachable s →
  live s ws →
  as_string (get msg "type") = Some "telemetry" →
  (∀ v o, Send v o ∈ (on_message ws (Some msg) now s).2 →
     (v = ws ∧ ∃ e, o = error_frame e)
     ∨ (v ≠ ws ∧ is_open s v = true
        ∧ ∃ d, conn s ws = Some (Some Driver, Some d)
               ∧ conn s v = Some (Some Viewer, Some d)
               ∧ latestTelemetry (on_message ws (Some msg) now s).1 !! d = Some o))
  ∧ (∀ m0 d0 s0, ∃ payload,
       latestTelemetry (relay_telemetry m0 d0 s0).1 !! d0 = Some payload
       ∧ (relay_telemetry m0 d0 s0).2
         = (λ v, Send v payload)
             <$> filter (λ v, is_open s0 v) (viewers (room_at d0 s0))).
Proof.
  intros Hr Lv T. split; [|intros; apply relay_telemetry_recipients].
  apply str_is_true in T. rewrite (on_message_telemetry _ _ _ _ T).
  pose proof (reachable_Inv s Hr) as I.
  intros v o. unfold on_telemetry.
  destruct (sockets s !! ws) as [sock|] eqn:Hs; [|by intros ?%not_elem_of_nil].
  assert (Err : ∀ e, Send v o ∈ sendJson ws (error_frame e) s →
                  (v = ws ∧ ∃ e, o = error_frame e)
                  ∨ (v ≠ ws ∧ is_open s v = true
                     ∧ ∃ d, conn s ws = Some (Some Driver, Some d)
                            ∧ conn s v = Some (Some Viewer, Some d)
                            ∧ latestTelemetry s !! d = Some o)).
  { intros e. rewrite sendJson_is_open. destruct (is_open s ws).
    - intros [= -> ->]%list_elem_of_singleton. left. eauto.
    - by intros ?%not_elem_of_nil. }
  case_bool_decide as Hro; simpl; [|apply Err].
  destruct (validateTelemetry msg); [apply Err|].
  destruct (as_string (get msg "deviceId")) as [d|]; [|by intros ?%not_elem_of_nil].
  case_bool_decide as Hd; simpl; [|apply Err].
  destruct (consumeRateToken_meta now (meta sock)) as [Mr Md].
  destruct (consumeRateToken now (meta sock)) as [ok m']. simpl in Mr, Md.
  destruct ok; [|by intros ?%not_elem_of_nil]. cbn [negb].
  set (s1 := set_sockets <[ws := {| meta := m'; readyState := readyState sock |}]> s).
  assert (Cs : ∀ w, conn s1 w = conn s w) by (intros w; by apply conn_insert_same).
  assert (Os : ∀ w, is_open s1 w = is_open s w).
  { intros w. unfold is_open, s1. simpl. destruct (decide (ws = w)) as [->|Hne].
    - by rewrite lookup_insert_eq, Hs.
    - by rewrite lookup_insert_ne. }
  assert (Cw : conn s ws = Some (Some Driver, Some d)).
  { apply conn_Some. exists sock. destruct Lv as (sock' & Hs' & Hl).
    rewrite Hs in Hs'. injection Hs' as <-. done. }
  destruct (relay_telemetry_recipients msg d s1) as (payload & St & ->).
  intros Hin. apply list_elem_of_fmap in Hin as (v' & E & Hin).
  injection E as -> ->.
  apply list_elem_of_filter in Hin as [Ho Hin]. rewrite Os in Ho.
  apply room_at_member in Hin as (room & R & Hin).
  assert (R' : rooms s !! d = Some room) by exact R.
  pose proof (inv_viewer s I d room v' R' Hin) as Cv.
  right. split; [intros ->; congruence|].
  split; [by destruct (is_open s v')|].
  exists d. split; [done|]. split; [done|]. exact St.
Qed.

Lemma telemetry_fan_out_witness :
  ∃ payload,
    latestTelemetry
      (relay_telemetry (telemetry_msg "bus-1" []) "bus-1" watched_state).1 !! "bus-1"
    = Some payload
    ∧ (relay_telemetry (telemetry_msg "bus-1" []) "bus-1" watched_state).2
      = [Send 2 payload].
Proof.
  assert (R : reachable watched_state).
  { apply (reachable_run watched_trace init reach_init). vm_compute. reflexivity. }
  assert (L : live watched_state 1).
  { eexists. split; [vm_compute; reflexivity|discriminate]. }
  assert (T : as_string (get (telemetry_msg "bus-1" []) "type") = Some "telemetry").
  { vm_compute. reflexivity. }
  destruct (proj2 (telemetry_fan_out watched_state 1 (telemetry_msg "bus-1" []) 500
                     R L T)
              (telemetry_msg "bus-1" []) "bus-1" watched_state) as (payload & St & O).
  exists payload. split; [exact St|]. rewrite O. vm_compute. reflexivity.
Defined.

(** ** The rate limiter over a run of attempts *)

Lemma attempts_cons now rest m :
  attempts (now :: rest) m
  = (((if (consumeRateToken now m).1 then 1 else 0)
      + (attempts rest (consumeRateToken now m).2).1)%nat,
     (attempts rest (consumeRateToken now m).2).2).
Proof.
  simpl. destruct (consumeRateToken now m) as [ok m1]. simpl.
  by destruct (attempts rest m1).
Qed.

(** An attempt in the millisecond the bucket was last touched adds
    nothing: with a whole number of tokens it takes one if there is one. *)
Lemma consume_same_ms k t0 m :
  k ≤ 5 →
  rate m = Some {| tokens := number_of_Z (Z.of_nat k); last := t0 |} →
  consumeRateToken t0 m
  = (bool_decide (0 < k),
     {| role := role m; deviceId := deviceId m;
        rate := Some {| tokens := number_of_Z (Z.of_nat (pred k)); last := t0 |} |}).
Proof.
  intros Hk R. rewrite consumeRateToken_spec, R. simpl default. cbn [tokens last].
  unfold elapsed_seconds. rewrite Z.sub_diag.
  destruct k as [|[|[|[|[|[|k]]]]]]; [reflexivity..|lia].
Qed.


Lemma attempts_same_ms n t0 : ∀ k m,
  k ≤ 5 →
  rate m = Some {| tokens := number_of_Z (Z.of_nat k); last := t0 |} →
  (attempts (replicate n t0) m).1 = n `min` k
  ∧ rate (attempts (replicate n t0) m).2
    = Some {| tokens := number_of_Z (Z.of_nat (k - n)); last := t0 |}.
Proof.
  induction n as [|n IH]; intros k m Hk R.
  - simpl. by rewrite Nat.sub_0_r.
  - change (replicate (S n) t0) with (t0 :: replicate n t0).
    rewrite attempts_cons, (consume_same_ms k t0 m Hk R). cbn [fst snd].
    destruct (IH (pred k) {| role := role m; deviceId := deviceId m;
                             rate := Some {| tokens := number_of_Z (Z.of_nat (pred k));
                                             last := t0 |} |}) as [C B];
      [lia|done|].
    rewrite C, B. split.
    + case_bool_decide; lia.
    + do 3 f_equal. lia.
Qed.


(** X8: a burst in one millisecond is cut at the tokens in the bucket.  Of
    any number of attempts of a connection made in the millisecond of its
    first attempt, the first five pass and every further one is dropped,
    leaving the bucket empty; from a bucket holding a whole number of
    tokens, of attempts made in the millisecond it was last touched, as
    many pass as it holds tokens. *)
Theorem rate_limiter_burst_capacity m t0 n :
  rate m = None →
  (attempts (replicate n t0) m).1 = n `min` 5
  ∧ (0 < n →
     rate (attempts (replicate n t0) m).2
     = Some {| tokens := number_of_Z (Z.of_nat (5 - n)); last := t0 |})
  ∧ (∀ k m', k ≤ 5 →
       rate m' = Some {| tokens := number_of_Z (Z.of_nat k); last := t0 |} →
       (attempts (replicate n t0) m').1 = n `min` k).
Proof.
  intros R. split; [|split].
  - destruct n as [|n]; [done|].
    change (replicate (S n) t0) with (t0 :: replicate n t0).
    rewrite attempts_cons, (consumeRateToken_first t0 m R). cbn [fst snd].
    destruct (attempts_same_ms n t0 4
                {| role := role m; deviceId := deviceId m;
                   rate := Some {| tokens := 4; last := t0 |} |}) as [C _];
      [lia|done|].
    rewrite C. lia.
  - intros Hn. destruct n as [|n]; [lia|].
    change (replicate (S n) t0) with (t0 :: replicate n t0).
    rewrite attempts_cons, (consumeRateToken_first t0 m R). cbn [fst snd].
    destruct (attempts_same_ms n t0 4
                {| role := role m; deviceId := deviceId m;
                   rate := Some {| tokens := 4; last := t0 |} |}) as [_ B];
      [lia|done|].
    rewrite B. do 3 f_equal.
  - intros k m' Hk R'. by destruct (attempts_same_ms n t0 k m' Hk R').
Qed.

Lemma rate_limiter_burst_capacity_witness :
  (attempts [10; 10; 10; 10; 10; 10; 10]%Z
     {| role := Some Driver; deviceId := Some "bus-1"; rate := None |}).1 = 5.
Proof.
  apply (proj1 (rate_limiter_burst_capacity
                  {| role := Some Driver; deviceId := Some "bus-1"; rate := None |}
                  10 7 eq_refl)).
Defined.



(** ** Detaching twice, and what a message leaves alone *)

Lemma state_eq (s s' : state) :
  sockets s = sockets s' → rooms s = rooms s' →
  latestTelemetry s = latestTelemetry s' → names s = names s' →
  routeMeta s = routeMeta s' → s = s'.
Proof. destruct s, s'. simpl. by intros -> -> -> -> ->. Qed.

Lemma set_delete_idem w l : set_delete w (set_delete w l) = set_delete w l.
Proof.
  unfold set_delete. induction l as [|x l IH]; [done|].
  rewrite filter_cons. case_decide as H; [|done].
  rewrite filter_cons. rewrite decide_True by done. by rewrite IH.
Qed.

Lemma room_without_idem ws r room :
  room_without ws r (room_without ws r room) = room_without ws r room.
Proof.
  unfold room_without.
  destruct (bool_decide (r = Some Driver)) eqn:E1; simpl.
  - apply bool_decide_eq_true in E1 as ->.
    rewrite (bool_decide_eq_false_2 (Some Driver = Some Viewer)) by done.
    destruct (bool_decide (driver room = Some ws)) eqn:E2; simpl; [done|].
    by rewrite E2.
  - destruct (bool_decide (r = Some Viewer)); simpl; [|done].
    by rewrite set_delete_idem.
Qed.

(** X10: detaching a connection a second time changes nothing, so the
    ["error"] handler followed by the ["close"] handler removes the
    connection from its room exactly as one of them does. *)
Theorem removeSocketFromRoom_idempotent ws s :
  removeSocketFromRoom ws (removeSocketFromRoom ws s) = removeSocketFromRoom ws s
  ∧ on_close ws (on_error ws s) = on_close ws s.
Proof.
  assert (E : removeSocketFromRoom ws (removeSocketFromRoom ws s)
              = removeSocketFromRoom ws s).
  { apply state_eq.
    - by rewrite !removeSocketFromRoom_sockets.
    - apply map_eq. intros d.
      rewrite (removeSocketFromRoom_rooms ws (removeSocketFromRoom ws s)).
      rewrite removeSocketFromRoom_sockets, !removeSocketFromRoom_rooms.
      destruct (sockets s !! ws) as [sock|]; [|done].
      case_bool_decide; [|done].
      destruct (rooms s !! d) as [room|]; [|done]. simpl.
      destruct (room_empty (room_without ws (role (meta sock)) room)) eqn:Em; [done|].
      simpl. by rewrite room_without_idem, Em.
    - apply map_eq. intros d.
      rewrite (removeSocketFromRoom_latest ws (removeSocketFromRoom ws s)).
      rewrite removeSocketFromRoom_sockets, removeSocketFromRoom_rooms,
        !removeSocketFromRoom_latest.
      destruct (sockets s !! ws) as [sock|]; [|done].
      case_bool_decide; [|done].
      destruct (rooms s !! d) as [room|]; [|done]. simpl.
      destruct (room_empty (room_without ws (role (meta sock)) room)) eqn:Em; [done|].
      simpl. by rewrite room_without_idem, Em.
    - by destruct (removeSocketFromRoom_names ws (removeSocketFromRoom ws s)) as [-> _].
    - by destruct (removeSocketFromRoom_names ws (removeSocketFromRoom ws s)) as [_ ->]. }
  split; [exact E|]. unfold on_close, on_error. by rewrite E.
Qed.

Lemma remember_frame msg d s :
  sockets (remember msg d s) = sockets s
  ∧ rooms (remember msg d s) = rooms s
  ∧ latestTelemetry (remember msg d s) = latestTelemetry s.
Proof.
  unfold remember. rewrite merge_route_sockets.
  match goal with
  | |- context [merge_route d ?a ?b ?x] =>
      destruct (merge_route_rooms d a b x) as (-> & -> & _)
  end.
  by destruct (nonempty _).
Qed.

(** The state after an accepted hello: the assignment, then the merge. *)
Lemma on_hello_state ws msg s d r :
  validateHello msg = None →
  as_string (get msg "deviceId") = Some d →
  role_of (get msg "role") = Some r →
  (on_hello ws msg s).1 = remember msg d (assignSocketToRoom ws d r s).1.
Proof.
  intros V Ed Er. unfold on_hello. rewrite V, Ed, Er.
  by destruct (assignSocketToRoom ws d r s) as [s1 out].
Qed.

Lemma remember_other msg d s d' :
  d ≠ d' →
  names (remember msg d s) !! d' = names s !! d'
  ∧ routeMeta (remember msg d s) !! d' = routeMeta s !! d'.
Proof.
  intros Hne. rewrite remember_names, remember_routeMeta. lazy zeta. split.
  - destruct (nonempty _); [by rewrite lookup_insert_ne|done].
  - destruct (_ || _); [by rewrite lookup_insert_ne|done].
Qed.

Lemma assign_memory ws d r s :
  names (assignSocketToRoom ws d r s).1 = names s
  ∧ routeMeta (assignSocketToRoom ws d r s).1 = routeMeta s.
Proof.
  destruct r.
  - by destruct (assign_driver_unfold ws d s) as (_ & _ & _ & -> & ->).
  - unfold assignSocketToRoom.
    destruct (ensureRoom_frame d (removeSocketFromRoom ws s)) as (_ & _ & N1 & N2).
    destruct (removeSocketFromRoom_names ws s) as [N3 N4].
    destruct (latestTelemetry _ !! d); simpl; by rewrite N1, N2, N3, N4.
Qed.

(** X11: a message touches only the device it names and the device its
    connection was bound to: the room, the snapshot and the device memory
    of every other device are as they were. *)
Theorem message_leaves_other_devices s ws raw now d' :
  (∀ sock, sockets s !! ws = Some sock → deviceId (meta sock) ≠ Some d') →
  (∀ msg, raw = Some msg → as_string (get msg "deviceId") ≠ Some d') →
  let s' := (on_message ws raw now s).1 in
  rooms s' !! d' = rooms s !! d'
  ∧ latestTelemetry s' !! d' = latestTelemetry s !! d'
  ∧ names s' !! d' = names s !! d'
  ∧ routeMeta s' !! d' = routeMeta s !! d'.
Proof.
  intros Hb Hm s'. subst s'.
  unfold on_message. destruct raw as [msg|]; [|done].
  specialize (Hm msg eq_refl).
  destruct (negb (is_object msg)); [done|].
  destruct (str_is (get msg "type") "hello").
  { destruct (validateHello msg) as [e|] eqn:V.
    { unfold on_hello. by rewrite V. }
    pose proof V as V'. apply validateHello_ok in V' as (_ & _ & [r Er] & d & Ed & _).
    assert (Hne : d ≠ d') by congruence.
    rewrite (on_hello_state ws msg s d r V Ed Er).
    destruct (remember_frame msg d (assignSocketToRoom ws d r s).1) as (_ & -> & ->).
    destruct (remember_other msg d (assignSocketToRoom ws d r s).1 d' Hne) as [-> ->].
    destruct (assign_memory ws d r s) as [-> ->].
    rewrite assign_rooms, assign_latest. rewrite decide_False by done.
    rewrite removeSocketFromRoom_rooms, removeSocketFromRoom_latest.
    destruct (sockets s !! ws) as [sock|] eqn:Hs; [|done].
    rewrite bool_decide_eq_false_2; [done|]. intros [E _]. by apply (Hb sock). }
  destruct (str_is (get msg "type") "telemetry"); [|done].
  unfold on_telemetry. destruct (sockets s !! ws) as [sock|] eqn:Hs; [|done].
  destruct (negb _); [done|].
  destruct (validateTelemetry msg); [done|].
  destruct (as_string (get msg "deviceId")) as [d|] eqn:Ed; [|done].
  destruct (negb _); [done|].
  destruct (consumeRateToken now (meta sock)) as [ok m'].
  destruct ok; [|done]. cbn [negb].
  assert (Hne : d ≠ d') by congruence.
  set (s1 := set_sockets <[ws := {| meta := m'; readyState := readyState sock |}]> s).
  destruct (relay_telemetry_frame msg d s1) as (-> & [payload ->] & _).
  destruct (relay_telemetry_memory msg d s1) as [-> ->].
  destruct (remember_other msg d s1 d' Hne) as [-> ->].
  rewrite ensureRoom_other by done. by rewrite lookup_insert_ne.
Qed.

Lemma message_leaves_other_devices_witness :
  latestTelemetry
    (on_message 2 (Some (hello_msg "driver" "bus-2" [])) 30
       (on_connection 2 driver_state)).1 !! "bus-1"
  = latestTelemetry (on_connection 2 driver_state) !! "bus-1".
Proof.
  destruct (message_leaves_other_devices (on_connection 2 driver_state) 2
              (Some (hello_msg "driver" "bus-2" [])) 30 "bus-1") as (_ & L & _).
  - intros sock Hs. vm_compute in Hs. injection Hs as <-. discriminate.
  - intros msg [= <-]. vm_compute. discriminate.
  - exact L.
Defined.

(** X12: assigning a driver to a room does not disturb its viewers: every
    other connection is a viewer of the room afterwards exactly when it was
    one before, whether or not a previous driver was replaced. *)
Theorem driver_assign_keeps_viewers s ws d room :
  rooms s !! d = Some room →
  ∃ room',
    rooms (assignSocketToRoom ws d Driver s).1 !! d = Some room'
    ∧ driver room' = Some ws
    ∧ ∀ v, v ≠ ws → (v ∈ viewers room' ↔ v ∈ viewers room).
Proof.
  intros R.
  destruct (assign_driver_unfold ws d s) as ([r' (R' & D' & V')] & _).
  exists r'. split; [done|]. split; [done|]. intros v Hne. rewrite V'.
  unfold room_at. rewrite removeSocketFromRoom_rooms, R.
  assert (W : ∀ r, v ∈ viewers (room_without ws r room) ↔ v ∈ viewers room).
  { intros r. unfold room_without. destruct (_ && _); [done|].
    destruct (bool_decide (r = Some Viewer)); [|done]. simpl.
    unfold set_delete. rewrite list_elem_of_filter. naive_solver. }
  destruct (sockets s !! ws) as [sock|]; [|done].
  case_bool_decide; [|done]. simpl.
  destruct (room_empty _) eqn:Em; simpl; [|apply W].
  rewrite <- (W (role (meta sock))).
  unfold room_empty in Em. apply andb_true_iff in Em as [_ Em].
  apply bool_decide_eq_true in Em. rewrite Em. done.
Qed.

Lemma driver_assign_keeps_viewers_witness :
  ∃ room',
    rooms (assignSocketToRoom 4 "bus-1" Driver crowd_state).1 !! "bus-1" = Some room'
    ∧ driver room' = Some 4
    ∧ 2 ∈ viewers room' ∧ 3 ∈ viewers room'.
Proof.
  destruct (driver_assign_keeps_viewers crowd_state 4 "bus-1"
              {| driver := Some 1; viewers := [2; 3] |}) as (room' & R & D & V).
  - vm_compute. reflexivity.
  - exists room'. split; [exact R|]. split; [exact D|].
    split; (apply V; [lia|]); simpl; rewrite !elem_of_cons; auto.
Defined.

(** ** Seats *)

(** X13: in every reachable state a connection sits in at most one room
    and in one seat of it: if it is the driver or a viewer of the rooms of
    two devices these are the same device, it is not both the driver and a
    viewer, it has not closed, and its seat is that of the role and device
    of its last accepted hello. *)
Theorem one_room_one_seat s d1 d2 room1 room2 w :
  reachable s →
  rooms s !! d1 = Some room1 → member w room1 →
  rooms s !! d2 = Some room2 → member w room2 →
  d1 = d2
  ∧ ¬ (driver room1 = Some w ∧ w ∈ viewers room1)
  ∧ live s w
  ∧ (driver room1 = Some w → conn s w = Some (Some Driver, Some d1))
  ∧ (w ∈ viewers room1 → conn s w = Some (Some Viewer, Some d1)).
Proof.
  intros Hr R1 M1 R2 M2. pose proof (reachable_Inv s Hr) as I.
  assert (C : ∀ d room, rooms s !! d = Some room → member w room →
                ∃ r, conn s w = Some (Some r, Some d)).
  { intros d room R [D|V].
    - exists Driver. by apply (inv_driver s I d room).
    - exists Viewer. by apply (inv_viewer s I d room). }
  destruct (C d1 room1 R1 M1) as [r1 C1]. destruct (C d2 room2 R2 M2) as [r2 C2].
  split; [congruence|]. split; [|split; [|split]].
  - intros [D V].
    pose proof (inv_driver s I d1 room1 w R1 D).
    pose proof (inv_viewer s I d1 room1 w R1 V). congruence.
  - apply live_conn. eauto.
  - by apply (inv_driver s I d1 room1).
  - by apply (inv_viewer s I d1 room1).
Qed.

Lemma one_room_one_seat_witness : live driver_state 1.
Proof.
  refine (proj1 (proj2 (proj2 (one_room_one_seat driver_state "bus-1" "bus-1"
            {| driver := Some 1; viewers := [] |} {| driver := Some 1; viewers := [] |}
            1 _ _ _ _ _)))).
  - apply (reachable_run driver_trace init reach_init). vm_compute. reflexivity.
  - vm_compute. reflexivity.
  - by left.
  - vm_compute. reflexivity.
  - by left.
Defined.

(** X14: after the ["close"] event of a connection in a reachable state
    the connection sits in no room, neither as driver nor as viewer, and
    the library delivers no further event for it; the ["error"] handler
    leaves it in no room either. *)
Theorem closed_connection_leaves_rooms s ws :
  reachable s →
  live s ws →
  (∀ d room, rooms (on_close ws s) !! d = Some room → ¬ member ws room)
  ∧ (∀ d room, rooms (on_error ws s) !! d = Some room → ¬ member ws room)
  ∧ ¬ live (on_close ws s) ws
  ∧ (∀ e, enabled (on_close ws s) e →
       e ≠ EClose ws ∧ e ≠ EError ws ∧ ∀ raw now, e ≠ EMessage ws raw now).
Proof.
  intros Hr Lv. pose proof (reachable_Inv s Hr) as I.
  pose proof Lv as Lv'. apply live_conn in Lv' as [[r0 od] C].
  assert (N : ∀ d room, rooms (removeSocketFromRoom ws s) !! d = Some room →
                ¬ member ws room).
  { intros d room R [D|V];
      destruct (removeSocketFromRoom_not_member s ws r0 od d room I C R); done. }
  assert (Nl : ¬ live (on_close ws s) ws).
  { intros (sock & Hs & Hl). unfold on_close in Hs. simpl in Hs.
    rewrite lookup_alter_eq in Hs.
    destruct (sockets (removeSocketFromRoom ws s) !! ws) as [sock0|]; [|done].
    simpl in Hs. injection Hs as <-. done. }
  split; [exact N|]. split; [exact N|]. split; [exact Nl|].
  intros e En. repeat split; intros; intros ->; simpl in En; done.
Qed.

Lemma closed_connection_leaves_rooms_witness :
  rooms (on_close 1 watched_state) !! "bus-1"
  = Some {| driver := None; viewers := [2] |}
  ∧ ¬ member 1 {| driver := None; viewers := [2] |}.
Proof.
  split; [vm_compute; reflexivity|].
  refine (proj1 (closed_connection_leaves_rooms watched_state 1 _ _) "bus-1" _ _).
  - apply (reachable_run watched_trace init reach_init). vm_compute. reflexivity.
  - eexists. split; [vm_compute; reflexivity|discriminate].
  - vm_compute. reflexivity.
Defined.

(** ** Rooms and the connections bound to them *)

(** A room that survives the detach has a connection other than the
    detached one bound to its device. *)
Lemma removeSocketFromRoom_room_other s w r od d room :
  Inv s → rooms_bound s → conn s w = Some (r, od) →
  rooms (removeSocketFromRoom w s) !! d = Some room →
  ∃ w' r', w' ≠ w ∧ conn s w' = Some (r', Some d).
Proof.
  intros I B C R.
  pose proof (removeSocketFromRoom_Inv s w r od I C) as I'.
  assert (Cs : ∀ x, conn (removeSocketFromRoom w s) x = conn s x)
    by (apply conn_sockets, removeSocketFromRoom_sockets).
  destruct (removeSocketFromRoom_not_member s w r od d room I C R) as [Nd Nv].
  destruct (removeSocketFromRoom_live s w r od d I C) as [Rd _].
  destruct (decide (od = Some d)) as [->|E].
  - rewrite R, bool_decide_eq_true_2 in Rd by done.
    destruct (rooms s !! d) as [room0|] eqn:R0; simpl in Rd; [|done].
    destruct (room_empty (room_without w r room0)) eqn:Em; [done|].
    injection Rd as ->.
    unfold room_empty in Em. apply andb_false_iff in Em as [Em|Em];
      apply bool_decide_eq_false in Em.
    + destruct (driver (room_without w r room0)) as [x|] eqn:D; [|done].
      exists x, (Some Driver). split; [congruence|].
      rewrite <- Cs. by apply (inv_driver _ I' d (room_without w r room0)).
    + destruct (viewers (room_without w r room0)) as [|v vs] eqn:V; [done|].
      assert (Hin : v ∈ viewers (room_without w r room0)) by (rewrite V; by left).
      exists v, (Some Viewer). split; [intros ->; apply Nv; by left|].
      rewrite <- Cs. by apply (inv_viewer _ I' d (room_without w r room0)).
  - rewrite R, bool_decide_eq_false_2 in Rd by done.
    destruct (B d room (eq_sym Rd)) as (w' & r' & C').
    exists w', r'. split; [|done]. intros ->. congruence.
Qed.

Lemma handle_rooms_bound s e :
  Inv s → rooms_bound s → enabled s e → rooms_bound (handle e s).1.
Proof.
  intros I B En. destruct e as [ws|ws raw now|ws|ws]; simpl in *.
  - intros d room R. destruct (B d room R) as (w & r & C).
    exists w, r. unfold conn in *. simpl.
    destruct (decide (ws = w)) as [->|Hne]; [by rewrite En in C|].
    by rewrite lookup_insert_ne.
  - apply live_conn in En as [[r0 od] C].
    unfold on_message. destruct raw as [msg|]; [|done].
    destruct (negb (is_object msg)); [done|].
    destruct (str_is (get msg "type") "hello").
    { destruct (validateHello msg) as [e|] eqn:V.
      { unfold on_hello. by rewrite V. }
      pose proof V as V'. apply validateHello_ok in V' as (_ & _ & [r Er] & d & Ed & _).
      rewrite (on_hello_state ws msg s d r V Ed Er).
      destruct (remember_frame msg d (assignSocketToRoom ws d r s).1) as (S & R & _).
      intros d' room. rewrite R, assign_rooms.
      assert (Cx : ∀ x, conn (remember msg d (assignSocketToRoom ws d r s).1) x
                        = if decide (x = ws)
                          then (λ _, (Some r, Some d)) <$> conn s ws else conn s x).
      { intros x. rewrite (conn_sockets _ _ S). apply assign_conn. }
      destruct (decide (d' = d)) as [->|Hne].
      - intros _. exists ws, (Some r). rewrite Cx, decide_True by done. by rewrite C.
      - intros R'.
        destruct (removeSocketFromRoom_room_other s ws r0 od d' room I B C R')
          as (w' & r' & Hw & C').
        exists w', r'. by rewrite Cx, decide_False. }
    destruct (str_is (get msg "type") "telemetry"); [|done].
    unfold on_telemetry. destruct (sockets s !! ws) as [sock|] eqn:Hs; [|done].
    case_bool_decide as Hro; simpl; [|done].
    destruct (validateTelemetry msg); [done|].
    destruct (as_string (get msg "deviceId")) as [d|]; [|done].
    case_bool_decide as Hd; simpl; [|done].
    destruct (consumeRateToken_meta now (meta sock)) as [Mr Md].
    destruct (consumeRateToken now (meta sock)) as [ok m']. simpl in Mr, Md.
    set (s1 := set_sockets <[ws := {| meta := m'; readyState := readyState sock |}]> s).
    assert (Cs : ∀ w, conn s1 w = conn s w) by (intros w; by apply conn_insert_same).
    assert (B1 : rooms_bound s1).
    { intros d' room R. destruct (B d' room R) as (w & r & Cw).
      exists w, r. by rewrite Cs. }
    destruct ok; [|exact B1]. cbn [negb].
    destruct (relay_telemetry_frame msg d s1) as (R & _ & S).
    intros d' room. rewrite R.
    assert (Cx : ∀ x, conn (relay_telemetry msg d s1).1 x = conn s x).
    { intros x. rewrite (conn_sockets _ _ S). apply Cs. }
    destruct (decide (d' = d)) as [->|Hne].
    + intros _. exists ws, (Some Driver). rewrite Cx. apply conn_Some.
      apply conn_Some in C as (sock' & Hs' & Hl & _).
      rewrite Hs in Hs'. injection Hs' as <-. eauto.
    + rewrite ensureRoom_other by done. intros R'.
      destruct (B d' room R') as (w & r & Cw). exists w, r. by rewrite Cx.
  - apply live_conn in En as [[r0 od] C].
    intros d room R.
    destruct (removeSocketFromRoom_room_other s ws r0 od d room I B C R)
      as (w' & r' & _ & C').
    exists w', r'.
    by rewrite (conn_sockets s) by apply removeSocketFromRoom_sockets.
  - apply live_conn in En as [[r0 od] C].
    intros d room R. change (rooms (removeSocketFromRoom ws s) !! d = Some room) in R.
    destruct (removeSocketFromRoom_room_other s ws r0 od d room I B C R)
      as (w' & r' & Hne & C').
    exists w', r'. unfold on_close, conn. simpl.
    rewrite lookup_alter_ne by done. rewrite removeSocketFromRoom_sockets.
    exact C'.
Qed.

Lemma reachable_rooms_bound s : reachable s → rooms_bound s.
Proof.
  induction 1 as [|s e Hr IH En].
  - intros d room. simpl. by rewrite lookup_empty.
  - apply handle_rooms_bound; [by apply reachable_Inv|done|done].
Qed.

(** X15: rooms do not outlive their connections.  In every reachable
    state each room has a connection that has not closed bound to its
    device, so once the last connection bound to a device has closed or
    moved to another device, the room of the device is gone. *)
Theorem rooms_do_not_outlive_connections s d :
  reachable s →
  (∀ w sock, sockets s !! w = Some sock → readyState sock ≠ CLOSED →
             deviceId (meta sock) ≠ Some d) →
  rooms s !! d = None ∧ latestTelemetry s !! d = None.
Proof.
  intros Hr Hn.
  assert (N : ∀ w r, conn s w ≠ Some (r, Some d)).
  { intros w r C. apply conn_Some in C as (sock & Hs & Hl & _ & Hd).
    by apply (Hn w sock). }
  split.
  - destruct (rooms s !! d) as [room|] eqn:R; [exfalso|done].
    destruct (reachable_rooms_bound s Hr d room R) as (w & r & C). by apply (N w r).
  - destruct (latestTelemetry s !! d) as [snap|] eqn:L; [exfalso|done].
    destruct (inv_snapshot s (reachable_Inv s Hr) d snap L) as (_ & w & r & C).
    by apply (N w r).
Qed.

Lemma rooms_do_not_outlive_connections_witness :
  rooms after_driver_state !! "bus-1" = None
  ∧ latestTelemetry after_driver_state !! "bus-1" = None.
Proof.
  apply rooms_do_not_outlive_connections.
  - apply (reachable_run after_driver_trace init reach_init). vm_compute. reflexivity.
  - intros w sock Hs Hl Hd. apply elem_of_map_to_list in Hs.
    remember (map_to_list (sockets after_driver_state)) as l eqn:El.
    vm_compute in El. subst l.
    apply elem_of_cons in Hs as [Hs|Hs];
      [|apply list_elem_of_singleton in Hs];
      injection Hs as -> ->; simpl in *; congruence.
Defined.

(** ** Viewer sets *)

Lemma room_without_nodup ws r room :
  NoDup (viewers room) → NoDup (viewers (room_without ws r room)).
Proof.
  intros H. unfold room_without. destruct (_ && _); [done|].
  destruct (bool_decide (r = Some Viewer)); [|done]. simpl.
  by apply NoDup_filter.
Qed.

Lemma set_add_nodup w l : NoDup l → NoDup (set_add w l).
Proof.
  intros H. unfold set_add. case_bool_decide as E; [done|].
  apply NoDup_app. split; [done|]. split.
  - intros x Hx ->%list_elem_of_singleton. done.
  - apply NoDup_singleton.
Qed.

Lemma removeSocketFromRoom_nodup ws s :
  viewers_nodup s → viewers_nodup (removeSocketFromRoom ws s).
Proof.
  intros N d room. rewrite removeSocketFromRoom_rooms.
  destruct (sockets s !! ws) as [sock|]; [|apply N].
  case_bool_decide; [|apply N].
  destruct (rooms s !! d) as [room0|] eqn:R; simpl; [|done].
  destruct (room_empty _); [done|]. intros [= <-].
  apply room_without_nodup. by apply (N d room0).
Qed.

Lemma room_at_nodup d s : viewers_nodup s → NoDup (viewers (room_at d s)).
Proof.
  intros N. unfold room_at. destruct (rooms s !! d) as [room|] eqn:R; simpl.
  - by apply (N d room).
  - apply NoDup_nil_2.
Qed.

Lemma on_message_nodup ws raw now s :
  viewers_nodup s → viewers_nodup (on_message ws raw now s).1.
Proof.
  intros N. unfold on_message. destruct raw as [msg|]; [|done].
  destruct (negb (is_object msg)); [done|].
  destruct (str_is (get msg "type") "hello").
  { destruct (validateHello msg) as [e|] eqn:V.
    { unfold on_hello. by rewrite V. }
    pose proof V as V'. apply validateHello_ok in V' as (_ & _ & [r Er] & d & Ed & _).
    rewrite (on_hello_state ws msg s d r V Ed Er).
    destruct (remember_frame msg d (assignSocketToRoom ws d r s).1) as (_ & R & _).
    intros d' room. rewrite R, assign_rooms.
    pose proof (removeSocketFromRoom_nodup ws s N) as N1.
    destruct (decide (d' = d)) as [->|Hne]; [|apply N1].
    intros [= <-]. pose proof (room_at_nodup d _ N1) as Nr.
    destruct r; simpl; [done|by apply set_add_nodup]. }
  destruct (str_is (get msg "type") "telemetry"); [|done].
  unfold on_telemetry. destruct (sockets s !! ws) as [sock|]; [|done].
  destruct (negb _); [done|].
  destruct (validateTelemetry msg); [done|].
  destruct (as_string (get msg "deviceId")) as [d|]; [|done].
  destruct (negb _); [done|].
  destruct (consumeRateToken now (meta sock)) as [ok m'].
  destruct ok; [|done]. cbn [negb].
  set (s1 := set_sockets <[ws := {| meta := m'; readyState := readyState sock |}]> s).
  destruct (relay_telemetry_frame msg d s1) as (R & _ & _).
  intros d' room. rewrite R.
  destruct (decide (d' = d)) as [->|Hne].
  - rewrite ensureRoom_lookup. intros [= <-]. by apply room_at_nodup.
  - rewrite ensureRoom_other by done. apply N.
Qed.

Lemma reachable_viewers_nodup s : reachable s → viewers_nodup s.
Proof.
  induction 1 as [|s e Hr IH En].
  - intros d room. simpl. by rewrite lookup_empty.
  - destruct e as [ws|ws raw now|ws|ws]; simpl.
    + exact IH.
    + by apply on_message_nodup.
    + by apply removeSocketFromRoom_nodup.
    + intros d room R. by apply (removeSocketFromRoom_nodup ws s IH d room).
Qed.

(** X16: the viewer set of a room never holds a connection twice, so a
    relayed telemetry message is sent at most once to each viewer: the
    frames it produces are pairwise distinct, one per recipient. *)
Theorem no_duplicate_delivery s msg d :
  reachable s →
  viewers_nodup s
  ∧ NoDup (relay_telemetry msg d s).2
  ∧ ∃ payload recipients,
      (relay_telemetry msg d s).2 = (λ v, Send v payload) <$> recipients
      ∧ NoDup recipients.
Proof.
  intros Hr. pose proof (reachable_viewers_nodup s Hr) as N.
  destruct (relay_telemetry_recipients msg d s) as (payload & _ & E).
  assert (Nf : NoDup (filter (λ v, is_open s v) (viewers (room_at d s))))
    by (by apply NoDup_filter, room_at_nodup).
  split; [exact N|]. split; [|eauto].
  rewrite E. apply NoDup_fmap_2; [|done]. by intros x y [= ->].
Qed.

Lemma no_duplicate_delivery_witness :
  length (relay_telemetry (telemetry_msg "bus-1" []) "bus-1" crowd_state).2 = 2
  ∧ NoDup (relay_telemetry (telemetry_msg "bus-1" []) "bus-1" crowd_state).2.
Proof.
  split; [vm_compute; reflexivity|].
  refine (proj1 (proj2 (no_duplicate_delivery crowd_state
                          (telemetry_msg "bus-1" []) "bus-1" _))).
  apply (reachable_run crowd_trace init reach_init). vm_compute. reflexivity.
Defined.

(** ** What an accepted hello does *)

Lemma assign_socket_self ws d r s :
  sockets (assignSocketToRoom ws d r s).1 !! ws
  = (λ sock, {| meta := {| role := Some r; deviceId := Some d;
                           rate := rate (meta sock) |};
                readyState := readyState sock |}) <$> sockets s !! ws.
Proof.
  assert (S : sockets (ensureRoom d (removeSocketFromRoom ws s)) = sockets s).
  { destruct (ensureRoom_frame d (removeSocketFromRoom ws s)) as (-> & _).
    apply removeSocketFromRoom_sockets. }
  unfold assignSocketToRoom. destruct r.
  - destruct (driver _) as [p|]; [case_bool_decide|]; simpl;
      rewrite ?lookup_alter_ne by done; by rewrite lookup_alter_eq, S.
  - destruct (latestTelemetry _ !! d); simpl; by rewrite lookup_alter_eq, S.
Qed.

Lemma assoc_hello_ack k r d name m :
  assoc k (hello_ack r d name m) =
  if decide (k = "type") then Some (JStr "hello-ack")
  else if decide (k = "role") then Some r
  else if decide (k = "deviceId") then Some d
  else if decide (k = "displayName")
       then (if nonempty name then Some (JStr name) else None)
  else if decide (k = "routeId")
       then (if truthy (m ≫= routeId) then JStr <$> (m ≫= routeId) else None)
  else if decide (k = "direction")
       then (if truthy (m ≫= direction) then JStr <$> (m ≫= direction) else None)
  else None.
Proof.
  unfold hello_ack. simpl. rewrite !assoc_app, !assoc_opt_field.
  change (truthy (Some name)) with (nonempty name).
  change (JStr <$> Some name) with (Some (JStr name)).
  repeat (case_decide; [subst; repeat (rewrite decide_False by done);
                        by repeat case_match|]).
  done.
Qed.

Lemma role_of_Some v r : role_of v = Some r → v = Some (JStr (role_name r)).
Proof.
  unfold role_of. destruct v as [[]|]; simpl; try done.
  repeat case_decide; subst; by intros [= <-].
Qed.

Lemma as_string_Some v x : as_string v = Some x → v = Some (JStr x).
Proof. destruct v as [[]|]; simpl; try done. by intros [= ->]. Qed.

(** X17: the hello-ack is the last frame an accepted hello sends to its
    connection.  It echoes the role and the deviceId of the hello, carries
    the announced displayName when it is not blank, and carries as routeId
    and direction the announced value or else the one remembered for the
    device, which is what the device memory holds after the hello; it has
    no other property. *)
Theorem hello_ack_contents s ws sock msg now :
  sockets s !! ws = Some sock →
  readyState sock = OPEN →
  as_string (get msg "type") = Some "hello" →
  validateHello msg = None →
  mem_ok s →
  ∃ s' out ack d,
    on_message ws (Some msg) now s = (s', out ++ [Send ws ack])
    ∧ as_string (get msg "deviceId") = Some d
    ∧ assoc "type" ack = Some (JStr "hello-ack")
    ∧ assoc "role" ack = get msg "role"
    ∧ assoc "deviceId" ack = get msg "deviceId"
    ∧ assoc "displayName" ack
      = (if nonempty (trimmed (get msg "displayName"))
         then Some (JStr (trimmed (get msg "displayName"))) else None)
    ∧ assoc "routeId" ack
      = JStr <$> or_else (trimmed (get msg "routeId")) (routeMeta s !! d ≫= routeId)
    ∧ assoc "direction" ack
      = JStr <$> or_else (trimmed (get msg "direction"))
                   (routeMeta s !! d ≫= direction)
    ∧ assoc "routeId" ack = JStr <$> (routeMeta s' !! d ≫= routeId)
    ∧ assoc "direction" ack = JStr <$> (routeMeta s' !! d ≫= direction)
    ∧ (∀ k, k ∉ ["type"; "role"; "deviceId"; "displayName"; "routeId"; "direction"] →
         assoc k ack = None).
Proof.
  intros Hs Ho T V M. apply str_is_true in T.
  pose proof V as V'. apply validateHello_ok in V' as (_ & _ & [r Er] & d & Ed & _).
  rewrite (on_message_hello _ _ _ _ T).
  destruct (on_hello_accepted ws msg s d r V Ed Er) as (s' & ack & E & Eack & _).
  pose proof (on_hello_state ws msg s d r V Ed Er) as St.
  rewrite E in St. simpl in St.
  exists s', (assignSocketToRoom ws d r s).2, ack, d.
  rewrite E, (sendJson_open _ _ _ _ Hs Ho).
  split; [done|]. split; [done|].
  assert (Rm : routeMeta s' = routeMeta (remember msg d s)).
  { rewrite St, !remember_routeMeta. lazy zeta.
    by destruct (assign_memory ws d r s) as [_ ->]. }
  assert (Mo : mem_ok (remember msg d s)) by (by apply remember_mem_ok).
  assert (Tr : ∀ f : route_t → option string,
            (∀ m x, routeMeta (remember msg d s) !! d = Some m → f m = Some x → x ≠ "") →
            (if truthy (routeMeta s' !! d ≫= f)
             then JStr <$> (routeMeta s' !! d ≫= f) else None)
            = JStr <$> (routeMeta s' !! d ≫= f)).
  { intros f Hf. rewrite Rm.
    destruct (routeMeta (remember msg d s) !! d) as [m|] eqn:Em; simpl; [|done].
    destruct (f m) as [x|] eqn:Ef; simpl; [|done].
    by rewrite (proj2 (nonempty_true x)) by (by apply (Hf m)). }
  assert (Rv : ∀ f : route_t → option string,
            routeMeta (remember msg d s) !! d ≫= f
            = if nonempty (trimmed (get msg "routeId"))
                 || nonempty (trimmed (get msg "direction"))
              then f {| routeId := or_else (trimmed (get msg "routeId"))
                                     (routeMeta s !! d ≫= routeId);
                        direction := or_else (trimmed (get msg "direction"))
                                       (routeMeta s !! d ≫= direction) |}
              else routeMeta s !! d ≫= f).
  { intros f. rewrite remember_routeMeta. lazy zeta.
    destruct (_ || _); [|done]. by rewrite lookup_insert_eq. }
  subst ack. rewrite !assoc_hello_ack.
  repeat (rewrite decide_False by done). rewrite !decide_True by done.
  rewrite (Tr routeId), (Tr direction).
  2:{ intros m x Em Ex. destruct Mo as [_ Mo].
      destruct (Mo d m Em) as [_ H2]. by destruct (H2 x Ex). }
  2:{ intros m x Em Ex. destruct Mo as [_ Mo].
      destruct (Mo d m Em) as [H1 _]. by destruct (H1 x Ex). }
  split; [done|].
  split; [by rewrite (role_of_Some _ _ Er)|].
  split; [by rewrite (as_string_Some _ _ Ed)|].
  split; [done|].
  rewrite Rm, !Rv.
  repeat split.
  - destruct (_ || _) eqn:O; [done|].
    apply orb_false_iff in O as [O _]. unfold or_else. by rewrite O.
  - destruct (_ || _) eqn:O; [done|].
    apply orb_false_iff in O as [_ O]. unfold or_else. by rewrite O.
  - intros k Hk. rewrite assoc_hello_ack. rewrite !not_elem_of_cons in Hk.
    destruct Hk as (? & ? & ? & ? & ? & ? & _).
    by rewrite !decide_False by done.
Qed.

Lemma hello_ack_contents_witness :
  ∃ s' out ack,
    on_message 2 (Some (hello_msg "viewer" "bus-1" [])) 50 named_session_state
    = (s', out ++ [Send 2 ack])
    ∧ assoc "routeId" ack = Some (JStr "R1").
Proof.
  destruct (hello_ack_contents named_session_state 2
              {| meta := {| role := None; deviceId := None; rate := None |};
                 readyState := OPEN |}
              (hello_msg "viewer" "bus-1" []) 50)
    as (s' & out & ack & d & E & Ed & _ & _ & _ & _ & R & _).
  - vm_compute. reflexivity.
  - reflexivity.
  - vm_compute. reflexivity.
  - vm_compute. reflexivity.
  - apply reachable_mem_ok.
    apply (reachable_run named_session_trace init reach_init).
    vm_compute. reflexivity.
  - exists s', out, ack. split; [exact E|].
    vm_compute in Ed. injection Ed as <-. rewrite R. vm_compute. reflexivity.
Defined.

(** X18: an accepted hello binds the connection to the role and the device
    it declares, seats it in that device's room in the seat of that role,
    and keeps the connection's rate-limit bucket and ready state: a driver
    cannot refill its bucket by sending hello again. *)
Theorem hello_binds_and_keeps_bucket s ws sock msg now d r :
  sockets s !! ws = Some sock →
  as_string (get msg "type") = Some "hello" →
  validateHello msg = None →
  as_string (get msg "deviceId") = Some d →
  role_of (get msg "role") = Some r →
  let s' := (on_message ws (Some msg) now s).1 in
  sockets s' !! ws
  = Some {| meta := {| role := Some r; deviceId := Some d; rate := rate (meta sock) |};
            readyState := readyState sock |}
  ∧ ∃ room, rooms s' !! d = Some room
            ∧ match r with
              | Driver => driver room = Some ws
              | Viewer => ws ∈ viewers room
              end.
Proof.
  intros Hs T V Ed Er s'. subst s'. apply str_is_true in T.
  rewrite (on_message_hello _ _ _ _ T), (on_hello_state ws msg s d r V Ed Er).
  destruct (remember_frame msg d (assignSocketToRoom ws d r s).1) as (-> & -> & _).
  rewrite assign_socket_self, Hs, assign_rooms, decide_True by done.
  split; [done|]. eexists. split; [done|].
  destruct r; simpl; [done|]. apply set_add_elem. by left.
Qed.

Lemma hello_binds_and_keeps_bucket_witness :
  sockets (on_message 1 (Some (hello_msg "driver" "bus-1" [])) 11 drained_state).1 !! 1
  = Some {| meta := {| role := Some Driver; deviceId := Some "bus-1";
                       rate := rate (meta (default
                                 {| meta := {| role := None; deviceId := None;
                                               rate := None |};
                                    readyState := OPEN |}
                                 (sockets drained_state !! 1))) |};
            readyState := OPEN |}.
Proof.
  destruct (sockets drained_state !! 1) as [sock|] eqn:Hs;
    [|vm_compute in Hs; discriminate Hs].
  destruct (hello_binds_and_keeps_bucket drained_state 1 sock
              (hello_msg "driver" "bus-1" []) 11 "bus-1" Driver) as [A _].
  - exact Hs.
  - vm_compute. reflexivity.
  - vm_compute. reflexivity.
  - vm_compute. reflexivity.
  - vm_compute. reflexivity.
  - rewrite A. simpl. vm_compute in Hs. injection Hs as <-. reflexivity.
Defined.

(** ** The heartbeat *)

Lemma heartbeat_cons ws rest a :
  heartbeat (ws :: rest) a
  = ((heartbeat rest (heartbeat_client a ws).1).1,
     (heartbeat_client a ws).2 ++ (heartbeat rest (heartbeat_client a ws).1).2).
Proof.
  simpl. destruct (heartbeat_client a ws) as [a1 o1]. simpl.
  by destruct (heartbeat rest a1).
Qed.

(** One sweep, client by client. *)
Lemma heartbeat_sweep_spec clients : ∀ a,
  NoDup clients →
  (heartbeat clients a).2
  = (λ w, if bool_decide (a !! w = Some false) then Terminate w else Ping w) <$> clients
  ∧ ∀ w, (heartbeat clients a).1 !! w
         = if bool_decide (w ∈ clients) then Some false else a !! w.
Proof.
  induction clients as [|c rest IH]; intros a Hn.
  - split; [done|]. intros w. cbn [heartbeat fst].
    by rewrite bool_decide_eq_false_2 by apply not_elem_of_nil.
  - apply NoDup_cons in Hn as [Hc Hn]. rewrite heartbeat_cons. cbn [fst snd].
    destruct (IH (heartbeat_client a c).1 Hn) as [O A]. rewrite O.
    assert (K : ∀ w, w ≠ c → (heartbeat_client a c).1 !! w = a !! w).
    { intros w Hw. unfold heartbeat_client. case_bool_decide; simpl; [done|].
      by rewrite lookup_insert_ne. }
    assert (Kc : (heartbeat_client a c).1 !! c = Some false).
    { unfold heartbeat_client. case_bool_decide; simpl; [done|].
      by rewrite lookup_insert_eq. }
    split.
    + assert (O1 : (heartbeat_client a c).2
                   = [if bool_decide (a !! c = Some false) then Terminate c else Ping c]).
      { unfold heartbeat_client. by case_bool_decide. }
      rewrite O1, fmap_cons. simpl. f_equal.
      apply list_fmap_ext. intros i w Hw.
      apply list_elem_of_lookup_2 in Hw.
      rewrite K; [done|]. by intros ->.
    + intros w. rewrite A. destruct (decide (w = c)) as [->|Hne].
      * rewrite (bool_decide_eq_false_2 (c ∈ rest)) by done.
        rewrite (bool_decide_eq_true_2 (c ∈ c :: rest)) by (by left). exact Kc.
      * rewrite K by done.
        assert (E : w ∈ c :: rest ↔ w ∈ rest) by (rewrite elem_of_cons; naive_solver).
        by rewrite (bool_decide_ext _ _ E).
Qed.

(** X19: one sweep of the heartbeat over the set of clients terminates
    exactly the clients whose liveness flag is false, pings exactly the
    others, takes one of the two actions for each client and none for
    anyone else, and leaves the flag of every client false. *)
Theorem heartbeat_sweep clients a :
  NoDup clients →
  (∀ w, Terminate w ∈ (heartbeat clients a).2 ↔ w ∈ clients ∧ a !! w = Some false)
  ∧ (∀ w, Ping w ∈ (heartbeat clients a).2 ↔ w ∈ clients ∧ a !! w ≠ Some false)
  ∧ length (heartbeat clients a).2 = length clients
  ∧ (∀ w, w ∈ clients → (heartbeat clients a).1 !! w = Some false)
  ∧ (∀ w, w ∉ clients → (heartbeat clients a).1 !! w = a !! w).
Proof.
  intros Hn. destruct (heartbeat_sweep_spec clients a Hn) as [O A].
  rewrite O. split; [|split; [|split; [|split]]].
  - intros w. rewrite list_elem_of_fmap. split.
    + intros (x & E & Hx). case_bool_decide; [|done]. by injection E as ->.
    + intros [Hw Hf]. exists w. by rewrite bool_decide_eq_true_2.
  - intros w. rewrite list_elem_of_fmap. split.
    + intros (x & E & Hx). case_bool_decide; [done|]. by injection E as ->.
    + intros [Hw Hf]. exists w. by rewrite bool_decide_eq_false_2.
  - by rewrite length_fmap.
  - intros w Hw. by rewrite A, bool_decide_eq_true_2.
  - intros w Hw. by rewrite A, bool_decide_eq_false_2.
Qed.

Lemma heartbeat_sweep_witness :
  Terminate 2 ∈ (heartbeat [1; 2; 3] {[1 := true; 2 := false; 3 := true]}).2.
Proof.
  apply (proj1 (heartbeat_sweep [1; 2; 3] {[1 := true; 2 := false; 3 := true]}
                  ltac:(repeat constructor; set_solver)) 2).
  split; [set_solver|]. vm_compute. reflexivity.
Defined.

(** X20: a client that has not answered the ping of a sweep is terminated
    by the next sweep and not pinged again, whatever pongs other clients
    have sent in between; a client whose pong arrived after the sweep is
    pinged by the next sweep and not terminated. *)
Theorem missed_pong_terminates clients a w pongs :
  NoDup clients →
  w ∈ clients →
  w ∉ pongs →
  let a1 := (heartbeat clients a).1 in
  let a2 := foldr on_pong a1 pongs in
  Terminate w ∈ (heartbeat clients a2).2
  ∧ (Ping w ∉ (heartbeat clients a2).2)
  ∧ Ping w ∈ (heartbeat clients (on_pong w a2)).2
  ∧ (Terminate w ∉ (heartbeat clients (on_pong w a2)).2).
Proof.
  intros Hn Hw Hp a1 a2.
  destruct (heartbeat_sweep_spec clients a Hn) as [_ F].
  assert (E : a2 !! w = Some false).
  { subst a2. induction pongs as [|p ps IH]; simpl.
    - subst a1. by rewrite F, bool_decide_eq_true_2.
    - apply not_elem_of_cons in Hp as [Hne Hp]. unfold on_pong at 1.
      rewrite lookup_insert_ne by done. by apply IH. }
  destruct (heartbeat_sweep_spec clients a2 Hn) as [O2 _].
  destruct (heartbeat_sweep_spec clients (on_pong w a2) Hn) as [O3 _].
  assert (E3 : on_pong w a2 !! w = Some true) by apply lookup_insert_eq.
  rewrite O2, O3, !list_elem_of_fmap.
  split; [|split; [|split]].
  - exists w. by rewrite bool_decide_eq_true_2.
  - intros (x & Ex & Hx). case_bool_decide as B; [done|].
    injection Ex as ->. by apply B.
  - exists w. rewrite bool_decide_eq_false_2; [done|]. rewrite E3. congruence.
  - intros (x & Ex & Hx). case_bool_decide as B; [|done].
    injection Ex as ->. rewrite E3 in B. congruence.
Qed.

Lemma missed_pong_terminates_witness :
  Terminate 2 ∈ (heartbeat [1; 2; 3]
                   (foldr on_pong
                      (heartbeat [1; 2; 3] {[1 := true; 2 := true; 3 := true]}).1
                      [1; 3])).2.
Proof.
  refine (proj1 (missed_pong_terminates [1; 2; 3] {[1 := true; 2 := true; 3 := true]}
                   2 [1; 3] _ _ _)).
  - repeat constructor; set_solver.
  - set_solver.
  - set_solver.
Defined.

(** ** index.js: identity, snapshots, unregistering *)

(** X21: in index.js the role and the device of a connection are fixed by
    its first accepted hello: no later message changes the connections,
    the driver table or the viewer groups, and a second hello is answered
    with the ["Unsupported message"] error frame and changes nothing. *)
Theorem index_identity_is_fixed s ws sock raw s' out :
  Index.sockets s !! ws = Some sock →
  is_Some (Index.role (Index.meta sock)) →
  Index.on_message ws raw s = Some (s', out) →
  Index.sockets s' = Index.sockets s
  ∧ Index.drivers s' = Index.drivers s
  ∧ Index.viewers s' = Index.viewers s
  ∧ (∀ msg, raw = Some msg → as_string (get msg "type") = Some "hello" →
       Index.readyState sock = OPEN →
       s' = s ∧ out = [Send ws (error_frame "Unsupported message")]).
Proof.
  intros Hs [r Hr] E. unfold Index.on_message in E.
  destruct raw as [msg|]; [|by injection E as <- <-].
  rewrite Hs, Hr in E.
  assert (T : (if str_is (get msg "type") "telemetry"
               then Some (Index.on_telemetry ws (Index.meta sock) msg s)
               else Some (s, Index.sendJson ws (error_frame "Unsupported message") s))
              = Some (s', out)).
  { destruct msg; done. }
  clear E. split; [|split; [|split]].
  1-3: destruct (str_is _ _); [|by injection T as <- <-];
       unfold Index.on_telemetry in T;
       destruct (negb _); [by injection T as <- <-|];
       destruct (Index.deviceId _); [|by injection T as <- <-];
       destruct (Index.validateTelemetry msg _); by injection T as <- <-.
  intros msg0 [= <-] Th Ho. apply str_is_true in Th.
  rewrite (str_is_functional _ _ "telemetry" Th) in T by done.
  injection T as <- <-. by rewrite (index_sendJson_open _ _ _ _ Hs Ho).
Qed.

Lemma index_identity_is_fixed_witness :
  Index.sockets
    (default index_driver_state
       (fst <$> Index.on_message 1 (Some (hello_msg "viewer" "bus-2" []))
                  index_driver_state))
  = Index.sockets index_driver_state.
Proof.
  destruct (Index.on_message 1 (Some (hello_msg "viewer" "bus-2" [])) index_driver_state)
    as [[s' out]|] eqn:E; [|done].
  simpl.
  refine (proj1 (index_identity_is_fixed index_driver_state 1
            {| Index.meta := {| Index.role := Some Driver;
                                Index.deviceId := Some "bus-1" |};
               Index.readyState := OPEN |} _ s' out _ _ E)).
  - vm_compute. reflexivity.
  - simpl. eauto.
Defined.

Lemma index_unregister_latest ws s :
  Index.latestTelemetry (Index.unregister ws s) = Index.latestTelemetry s
  ∧ Index.sockets (Index.unregister ws s) = Index.sockets s.
Proof.
  unfold Index.unregister.
  repeat (case_match; try done); by case_bool_decide.
Qed.

(** X22: index.js never deletes a snapshot: unregistering a connection and
    handling a message keep every stored snapshot's device in the table,
    so a connection whose first message is a viewer hello for a device
    that ever had telemetry is sent the stored snapshot and then the
    hello-ack, even after everybody else has disconnected. *)
Theorem index_snapshot_persists s ws sock msg d snapshot :
  Index.sockets s !! ws = Some sock →
  Index.readyState sock = OPEN →
  Index.role (Index.meta sock) = None →
  Index.validateHello msg = None →
  role_of (get msg "role") = Some Viewer →
  as_string (get msg "deviceId") = Some d →
  Index.latestTelemetry s !! d = Some snapshot →
  (∃ s', Index.on_message ws (Some msg) s
         = Some (s', [Send ws snapshot; Send ws (Index.hello_ack Viewer d)])
         ∧ Index.latestTelemetry s' = Index.latestTelemetry s)
  ∧ (∀ w s0, Index.latestTelemetry (Index.unregister w s0) = Index.latestTelemetry s0)
  ∧ (∀ w raw s0 s1 out d0,
       Index.on_message w raw s0 = Some (s1, out) →
       is_Some (Index.latestTelemetry s0 !! d0) →
       is_Some (Index.latestTelemetry s1 !! d0)).
Proof.
  intros Hs Ho Hr V Er Ed L. split; [|split].
  - unfold Index.on_message, Index.on_first. rewrite Hs, Hr, V, Ed, Er. simpl.
    rewrite L. unfold Index.sendJson. simpl.
    rewrite lookup_alter_eq, Hs. simpl. rewrite Ho. simpl. eauto.
  - intros w s0. by destruct (index_unregister_latest w s0).
  - clear. intros w raw s0 s1 out d0 E H. unfold Index.on_message in E.
    destruct raw as [m|]; [|by injection E as <- <-].
    destruct (Index.sockets s0 !! w) as [sk|]; [|by injection E as <- <-].
    destruct (Index.role (Index.meta sk)) as [r|].
    + assert (T : (if str_is (get m "type") "telemetry"
                   then Some (Index.on_telemetry w (Index.meta sk) m s0)
                   else Some (s0, Index.sendJson w (error_frame "Unsupported message") s0))
                  = Some (s1, out)) by (destruct m; done).
      clear E. destruct (str_is _ _); [|by injection T as <- <-].
      unfold Index.on_telemetry in T.
      destruct (negb _); [by injection T as <- <-|].
      destruct (Index.deviceId _) as [d1|]; [|by injection T as <- <-].
      destruct (Index.validateTelemetry m d1); injection T as <- <-; [done|].
      simpl. destruct (decide (d1 = d0)) as [->|Hne].
      * rewrite lookup_insert_eq. eauto.
      * by rewrite lookup_insert_ne.
    + injection E as E. unfold Index.on_first in E.
      destruct (Index.validateHello m); [simpl in E; by injection E as <- <-|].
      destruct (as_string _) as [d1|]; [|simpl in E; by injection E as <- <-].
      destruct (role_of _) as [[]|]; [| |simpl in E; by injection E as <- <-].
      * destruct (Index.drivers _ !! d1) as [p|]; [case_bool_decide|];
          simpl in E; by injection E as <- <-.
      * simpl in E. destruct (Index.latestTelemetry s0 !! d1);
          simpl in E; by injection E as <- <-.
Qed.

Lemma index_snapshot_persists_witness :
  ∃ s', Index.on_message 2 (Some (hello_msg "viewer" "bus-1" [])) index_snapshot_state
        = Some (s', [Send 2 [("type", JStr "telemetry"); ("deviceId", JStr "bus-1");
                             ("lat", JNum 29.65); ("lng", JNum (-82.35));
                             ("ts", JNum 1000)];
                     Send 2 (Index.hello_ack Viewer "bus-1")]).
Proof.
  destruct (index_snapshot_persists index_snapshot_state 2
              {| Index.meta := {| Index.role := None; Index.deviceId := None |};
                 Index.readyState := OPEN |}
              (hello_msg "viewer" "bus-1" []) "bus-1"
              [("type", JStr "telemetry"); ("deviceId", JStr "bus-1");
               ("lat", JNum 29.65); ("lng", JNum (-82.35)); ("ts", JNum 1000)])
    as [(s' & E & _) _].
  - vm_compute. reflexivity.
  - reflexivity.
  - reflexivity.
  - vm_compute. reflexivity.
  - vm_compute. reflexivity.
  - vm_compute. reflexivity.
  - vm_compute. reflexivity.
  - exists s'. exact E.
Defined.

(** X23: unregistering a connection in index.js removes that connection
    only.  A driver entry held by another connection stays, so a replaced
    driver that closes does not unregister its successor; every other
    viewer of a group stays in it; the unregistered connection is no
    longer the driver or a viewer of its device, and a viewer group left
    empty is deleted. *)
Theorem index_unregister_removes_only_self s ws :
  (∀ d w, Index.drivers s !! d = Some w → w ≠ ws →
     Index.drivers (Index.unregister ws s) !! d = Some w)
  ∧ (∀ d group v, Index.viewers s !! d = Some group → v ∈ group → v ≠ ws →
       ∃ group', Index.viewers (Index.unregister ws s) !! d = Some group'
                 ∧ v ∈ group')
  ∧ (∀ sock r d, Index.sockets s !! ws = Some sock →
       Index.role (Index.meta sock) = Some r →
       Index.deviceId (Index.meta sock) = Some d → d ≠ "" →
       match r with
       | Driver => Index.drivers (Index.unregister ws s) !! d ≠ Some ws
       | Viewer => ∀ group, Index.viewers (Index.unregister ws s) !! d = Some group →
                     (ws ∉ group) ∧ group ≠ []
       end).
Proof.
  split; [|split].
  - intros d w D Hne. unfold Index.unregister.
    destruct (Index.sockets s !! ws) as [sock|]; [|done].
    destruct (Index.role _) as [[]|]; [| |done];
      destruct (Index.deviceId _) as [d0|]; try done;
      case_bool_decide; try done.
    + case_bool_decide as E; [|done]. simpl.
      destruct (decide (d0 = d)) as [->|]; [congruence|].
      by rewrite lookup_delete_ne.
    + by destruct (Index.viewers s !! d0).
  - intros d group v G Hin Hne. unfold Index.unregister.
    destruct (Index.sockets s !! ws) as [sock|]; [|eauto].
    destruct (Index.role _) as [[]|]; [| |eauto];
      destruct (Index.deviceId _) as [d0|]; eauto;
      case_bool_decide; eauto.
    + case_bool_decide; eauto.
    + destruct (Index.viewers s !! d0) as [g0|] eqn:G0; [|eauto]. simpl.
      destruct (decide (d0 = d)) as [->|Hd].
      * rewrite G in G0. injection G0 as <-.
        assert (Hv : v ∈ set_delete ws group) by (by apply list_elem_of_filter).
        case_bool_decide as E.
        { rewrite E in Hv. by apply not_elem_of_nil in Hv. }
        rewrite lookup_insert_eq. eauto.
      * case_bool_decide; [rewrite lookup_delete_ne by done|
                           rewrite lookup_insert_ne by done]; eauto.
  - intros sock r d Hs Hr Hd Hne. unfold Index.unregister.
    rewrite Hs, Hr, Hd. rewrite bool_decide_eq_false_2 by done.
    destruct r.
    + case_bool_decide as E; simpl; [by rewrite lookup_delete_eq|done].
    + destruct (Index.viewers s !! d) as [g0|] eqn:G0; simpl.
      * case_bool_decide as E.
        { intros group. by rewrite lookup_delete_eq. }
        intros group. rewrite lookup_insert_eq. intros [= <-]. split; [|done].
        unfold set_delete. rewrite list_elem_of_filter. naive_solver.
      * intros group. by rewrite G0.
Qed.

Lemma index_unregister_removes_only_self_witness :
  Index.drivers index_takeover_state !! "bus-1" = Some 2
  ∧ Index.drivers (Index.unregister 1 index_takeover_state) !! "bus-1" = Some 2
  ∧ Index.drivers (Index.unregister 2 index_takeover_state) !! "bus-1" ≠ Some 2
  ∧ (∃ group, Index.viewers (Index.unregister 3 index_takeover_state) !! "bus-1"
              = Some group ∧ 4 ∈ group)
  ∧ (∀ group, Index.viewers (Index.unregister 3 index_takeover_state) !! "bus-1"
              = Some group → (3 ∉ group) ∧ group ≠ []).
Proof.
  split; [vm_compute; reflexivity|]. split; [|split; [|split]].
  - apply (proj1 (index_unregister_removes_only_self index_takeover_state 1)
             "bus-1" 2); [vm_compute; reflexivity|lia].
  - apply (proj2 (proj2 (index_unregister_removes_only_self index_takeover_state 2))
             {| Index.meta := {| Index.role := Some Driver;
                                 Index.deviceId := Some "bus-1" |};
                Index.readyState := OPEN |} Driver "bus-1");
      [vm_compute; reflexivity|reflexivity|reflexivity|discriminate].
  - apply (proj1 (proj2 (index_unregister_removes_only_self index_takeover_state 3))
             "bus-1" [3; 4] 4); [vm_compute; reflexivity| |lia].
    rewrite !elem_of_cons. auto.
  - apply (proj2 (proj2 (index_unregister_removes_only_self index_takeover_state 3))
             {| Index.meta := {| Index.role := Some Viewer;
                                 Index.deviceId := Some "bus-1" |};
                Index.readyState := OPEN |} Viewer "bus-1");
      [vm_compute; reflexivity|reflexivity|reflexivity|discriminate].
Defined.

(** X24: index.js reads [msg.type] of a JSON [null] without a guard once a
    connection is identified: the handler throws exactly when an identified
    connection sends [null].  The same frame as the first message of a
    connection is rejected as malformed and the connection is closed. *)
Theorem index_null_message s ws raw :
  (Index.on_message ws raw s = None ↔
   raw = Some JNull
   ∧ ∃ sock, Index.sockets s !! ws = Some sock
             ∧ is_Some (Index.role (Index.meta sock)))
  ∧ (∀ sock, Index.sockets s !! ws = Some sock →
       Index.role (Index.meta sock) = None →
       Index.readyState sock = OPEN →
       ∃ s', Index.on_message ws (Some JNull) s
             = Some (s', [Send ws (error_frame "Malformed message");
                          Close ws 1002 "protocol error"])).
Proof.
  split.
  - unfold Index.on_message. destruct raw as [msg|]; [|naive_solver].
    destruct (Index.sockets s !! ws) as [sock|] eqn:Hs; [|naive_solver].
    destruct (Index.role (Index.meta sock)) as [r|] eqn:Hr.
    + destruct msg; try (destruct (str_is _ _)); split; try done;
        try (by intros [[=] _]).
      intros _. split; [done|]. exists sock. eauto.
    + split; [done|]. intros (_ & sock' & [= <-] & [? ?]). congruence.
  - intros sock Hs Hr Ho. unfold Index.on_message, Index.on_first.
    rewrite Hs, Hr. simpl. rewrite (index_sendJson_open _ _ _ _ Hs Ho). eauto.
Qed.

Lemma index_null_message_witness :
  ∃ s', Index.on_message 1 (Some JNull) (Index.on_connection 1 Index.init)
        = Some (s', [Send 1 (error_frame "Malformed message");
                     Close 1 1002 "protocol error"]).
Proof.
  refine (proj2 (index_null_message (Index.on_connection 1 Index.init) 1 None)
            {| Index.meta := {| Index.role := None; Index.deviceId := None |};
               Index.readyState := OPEN |} _ _ _).
  - vm_compute. reflexivity.
  - reflexivity.
  - reflexivity.
Defined.

(** ** Telemetry of a replaced driver *)

(** X25: the telemetry branch decides by the connection's own role and
    device, not by the room's driver slot.  After a driver has been
    replaced its socket is closing but its metadata still says driver, so
    a valid telemetry message it sends before its ["close"] event is still
    stored as the device's snapshot and broadcast to the open viewers of
    the room, which by then is driven by its successor. *)
Theorem replaced_driver_telemetry_still_relayed s ws d room p psock msg now :
  rooms s !! d = Some room →
  driver room = Some p →
  p ≠ ws →
  sockets s !! p = Some psock →
  role (meta psock) = Some Driver →
  deviceId (meta psock) = Some d →
  rate (meta psock) = None →
  as_string (get msg "type") = Some "telemetry" →
  validateTelemetry msg = None →
  as_string (get msg "deviceId") = Some d →
  let s' := (assignSocketToRoom ws d Driver s).1 in
  let r := on_message p (Some msg) now s' in
  (∃ room', rooms s' !! d = Some room' ∧ driver room' = Some ws)
  ∧ (∃ psock', sockets s' !! p = Some psock' ∧ meta psock' = meta psock
               ∧ readyState psock' ≠ OPEN)
  ∧ ∃ payload,
      latestTelemetry r.1 !! d = Some payload
      ∧ assoc "ts" payload = get msg "ts"
      ∧ r.2 = (λ v, Send v payload)
                <$> filter (λ v, is_open s' v) (viewers (room_at d s')).
Proof.
  intros R D Hne Hp Hr Hd Hrate T V Ed s' r. subst r.
  destruct (assign_driver_replaces s ws d room p R D Hne) as (_ & room' & R' & D').
  split; [eauto|].
  assert (Sp : sockets s' !! p
               = Some {| meta := meta psock;
                         readyState := if bool_decide (readyState psock = OPEN)
                                       then CLOSING else readyState psock |}).
  { unfold s'. rewrite (assign_driver_socket_other ws d s room p R D Hne).
    by rewrite Hp. }
  split.
  { eexists. split; [exact Sp|]. split; [done|]. simpl. by case_bool_decide. }
  apply str_is_true in T. rewrite (on_message_telemetry _ _ _ _ T).
  unfold on_telemetry. rewrite Sp. cbn [meta readyState].
  rewrite Hr, V, Ed, Hd. rewrite !bool_decide_eq_true_2 by done. cbn [negb].
  rewrite (consumeRateToken_first now _ Hrate). cbn [fst snd negb].
  match goal with
  | |- context [relay_telemetry msg d ?x] => set (s1 := x)
  end.
  destruct (relay_telemetry_recipients msg d s1) as (payload & St & O).
  exists payload. split; [exact St|]. split.
  - rewrite relay_telemetry_payload in St. injection St as <-.
    rewrite assoc_telemetry_payload.
    repeat (rewrite decide_False by done). by rewrite decide_True.
  - rewrite O. f_equal.
    assert (Os : ∀ v, is_open s1 v = is_open s' v).
    { intros v. unfold is_open, s1. simpl. destruct (decide (p = v)) as [->|Hv].
      - by rewrite lookup_insert_eq, Sp.
      - by rewrite lookup_insert_ne. }
    change (room_at d s1) with (room_at d s').
    induction (viewers (room_at d s')) as [|v vs IH]; [done|].
    by rewrite !filter_cons, IH, Os.
Qed.

Lemma replaced_driver_telemetry_still_relayed_witness :
  let s := (run [EConnection 1; EMessage 1 (Some (hello_msg "driver" "bus-1" [])) 0;
                 EConnection 2] init).1 in
  ∃ payload,
    latestTelemetry
      (on_message 1 (Some (telemetry_msg "bus-1" [])) 40
         (assignSocketToRoom 2 "bus-1" Driver s).1).1 !! "bus-1" = Some payload
    ∧ assoc "ts" payload = Some (JNum 1000).
Proof.
  lazy zeta.
  destruct (replaced_driver_telemetry_still_relayed
              (run [EConnection 1; EMessage 1 (Some (hello_msg "driver" "bus-1" [])) 0;
                    EConnection 2] init).1
              2 "bus-1" {| driver := Some 1; viewers := [] |} 1
              {| meta := {| role := Some Driver; deviceId := Some "bus-1"; rate := None |};
                 readyState := OPEN |}
              (telemetry_msg "bus-1" []) 40)
    as (_ & _ & payload & L & A & _).
  - vm_compute. reflexivity.
  - reflexivity.
  - lia.
  - vm_compute. reflexivity.
  - reflexivity.
  - reflexivity.
  - reflexivity.
  - vm_compute. reflexivity.
  - vm_compute. reflexivity.
  - vm_compute. reflexivity.
  - exists payload. split; [exact L|]. rewrite A. vm_compute. reflexivity.
Defined.
